(** * The local credential vault and the deep-link authentication handshake

    A shallow embedding of the Electron main process (the entry script with
    its event handlers) and of [SecureMasterKeyManager]
    (utils/masterKeyManager), followed by the properties of the
    authentication subsystem that hold of them.  The attachment, chat and
    model settings contexts of the renderer come after them, as functions
    on the state that their providers hold.

    Conventions of the embedding.
    - A JavaScript string is a Rocq [string], read as the sequence of its
      UTF-8 bytes; all the literals of the program are ASCII.
    - The platform (Node's [crypto], [fs], [url], [JSON] and Electron's
      [app], [dialog], [BrowserWindow]) is modelled by executable
      definitions over an explicit [World]; every definition notes what it
      leaves out.
    - Code that throws is a computation in the monad [M], whose results are
      [Ok v] or [Throw e]; [try_catch] is the [try { } catch { }] block. *)

From Stdlib Require Import ZArith Ascii String DecimalString DecimalZ DecimalPos.
From Stdlib Require QArith_base Qround.
From stdpp Require Import base option list gmap strings.

Local Open Scope string_scope.
Local Open Scope list_scope.
Local Open Scope Z_scope.

(** ** Bytes, characters and hexadecimal *)

Module Bytes.

Definition of_ascii (c : ascii) : Z := Z.of_N (N_of_ascii c).
Definition to_ascii (b : Z) : ascii := ascii_of_N (Z.to_N (b mod 256)).

Fixpoint of_string (s : string) : list Z :=
  match s with
  | EmptyString => []
  | String c r => of_ascii c :: of_string r
  end.

Fixpoint to_string (bs : list Z) : string :=
  match bs with
  | [] => EmptyString
  | b :: r => String (to_ascii b) (to_string r)
  end.

(** One hexadecimal digit, lower case, as [Buffer.toString("hex")] prints. *)
Definition hex_digit (n : Z) : ascii :=
  if n <? 10 then to_ascii (48 + n) else to_ascii (87 + n).

Fixpoint hex (bs : list Z) : string :=
  match bs with
  | [] => EmptyString
  | b :: r =>
      String (hex_digit (Z.shiftr (b mod 256) 4))
        (String (hex_digit (Z.land b 15)) (hex r))
  end.

(** The value of a hexadecimal digit of either case, if it is one. *)
Definition hex_value (c : ascii) : option Z :=
  let n := of_ascii c in
  if (48 <=? n) && (n <=? 57) then Some (n - 48)
  else if (97 <=? n) && (n <=? 102) then Some (n - 87)
  else if (65 <=? n) && (n <=? 70) then Some (n - 55)
  else None.

(** The text [s] with every apostrophe turned into a double quote: the
    way the JSON texts of this file are written. *)
Fixpoint dq (s : string) : string :=
  match s with
  | EmptyString => EmptyString
  | String c r => String (if of_ascii c =? 39 then to_ascii 34 else c) (dq r)
  end.

(** Big-endian bytes of a [len]-byte unsigned integer. *)
Fixpoint be (len : nat) (n : Z) : list Z :=
  match len with
  | O => []
  | S k => Z.land (Z.shiftr n (8 * Z.of_nat k)) 255 :: be k n
  end.

Definition be_value (bs : list Z) : Z :=
  fold_left (fun acc b => Z.lor (Z.shiftl acc 8) b) bs 0.

Fixpoint xor (a b : list Z) : list Z :=
  match a, b with
  | x :: a', y :: b' => Z.lxor x y :: xor a' b'
  | _, _ => []
  end.

(** Consecutive chunks of [n] bytes; [fuel] bounds the number of chunks. *)
Fixpoint chunks (fuel n : nat) (bs : list Z) : list (list Z) :=
  match fuel with
  | O => []
  | S f =>
      match bs with
      | [] => []
      | _ => take n bs :: chunks f n (drop n bs)
      end
  end.

End Bytes.

(** ** SHA-512, HMAC and PBKDF2

    [crypto.pbkdf2Sync(password, salt, iterations, keylen, "sha512")] is
    PBKDF2 of RFC 8018 over HMAC (RFC 2104) over SHA-512 (FIPS 180-4).
    Words are 64-bit, held in [Z], every addition reduced modulo [2^64]. *)

Module Sha512.

Definition mask : Z := 2 ^ 64 - 1.
Definition add (x y : Z) : Z := Z.land (x + y) mask.
Definition rotr (n x : Z) : Z :=
  Z.lor (Z.shiftr x n) (Z.land (Z.shiftl x (64 - n)) mask).
Definition lnot64 (x : Z) : Z := Z.lxor x mask.

Definition Ch (x y z : Z) : Z := Z.lxor (Z.land x y) (Z.land (lnot64 x) z).
Definition Maj (x y z : Z) : Z :=
  Z.lxor (Z.lxor (Z.land x y) (Z.land x z)) (Z.land y z).
Definition Sum0 (x : Z) : Z := Z.lxor (Z.lxor (rotr 28 x) (rotr 34 x)) (rotr 39 x).
Definition Sum1 (x : Z) : Z := Z.lxor (Z.lxor (rotr 14 x) (rotr 18 x)) (rotr 41 x).
Definition sig0 (x : Z) : Z := Z.lxor (Z.lxor (rotr 1 x) (rotr 8 x)) (Z.shiftr x 7).
Definition sig1 (x : Z) : Z := Z.lxor (Z.lxor (rotr 19 x) (rotr 61 x)) (Z.shiftr x 6).

Definition K : list Z :=
  [ 0x428a2f98d728ae22; 0x7137449123ef65cd; 0xb5c0fbcfec4d3b2f; 0xe9b5dba58189dbbc;
    0x3956c25bf348b538; 0x59f111f1b605d019; 0x923f82a4af194f9b; 0xab1c5ed5da6d8118;
    0xd807aa98a3030242; 0x12835b0145706fbe; 0x243185be4ee4b28c; 0x550c7dc3d5ffb4e2;
    0x72be5d74f27b896f; 0x80deb1fe3b1696b1; 0x9bdc06a725c71235; 0xc19bf174cf692694;
    0xe49b69c19ef14ad2; 0xefbe4786384f25e3; 0x0fc19dc68b8cd5b5; 0x240ca1cc77ac9c65;
    0x2de92c6f592b0275; 0x4a7484aa6ea6e483; 0x5cb0a9dcbd41fbd4; 0x76f988da831153b5;
    0x983e5152ee66dfab; 0xa831c66d2db43210; 0xb00327c898fb213f; 0xbf597fc7beef0ee4;
    0xc6e00bf33da88fc2; 0xd5a79147930aa725; 0x06ca6351e003826f; 0x142929670a0e6e70;
    0x27b70a8546d22ffc; 0x2e1b21385c26c926; 0x4d2c6dfc5ac42aed; 0x53380d139d95b3df;
    0x650a73548baf63de; 0x766a0abb3c77b2a8; 0x81c2c92e47edaee6; 0x92722c851482353b;
    0xa2bfe8a14cf10364; 0xa81a664bbc423001; 0xc24b8b70d0f89791; 0xc76c51a30654be30;
    0xd192e819d6ef5218; 0xd69906245565a910; 0xf40e35855771202a; 0x106aa07032bbd1b8;
    0x19a4c116b8d2d0c8; 0x1e376c085141ab53; 0x2748774cdf8eeb99; 0x34b0bcb5e19b48a8;
    0x391c0cb3c5c95a63; 0x4ed8aa4ae3418acb; 0x5b9cca4f7763e373; 0x682e6ff3d6b2b8a3;
    0x748f82ee5defb2fc; 0x78a5636f43172f60; 0x84c87814a1f0ab72; 0x8cc702081a6439ec;
    0x90befffa23631e28; 0xa4506cebde82bde9; 0xbef9a3f7b2c67915; 0xc67178f2e372532b;
    0xca273eceea26619c; 0xd186b8c721c0c207; 0xeada7dd6cde0eb1e; 0xf57d4f7fee6ed178;
    0x06f067aa72176fba; 0x0a637dc5a2c898a6; 0x113f9804bef90dae; 0x1b710b35131c471b;
    0x28db77f523047d84; 0x32caab7b40c72493; 0x3c9ebe0a15c9bebc; 0x431d67c49c100d4c;
    0x4cc5d4becb3e42b6; 0x597f299cfc657e2a; 0x5fcb6fab3ad6faec; 0x6c44198c4a475817 ].

Definition H0 : list Z :=
  [ 0x6a09e667f3bcc908; 0xbb67ae8584caa73b; 0x3c6ef372fe94f82b; 0xa54ff53a5f1d36f1;
    0x510e527fade682d1; 0x9b05688c2b3e6c1f; 0x1f83d9abfb41bd6b; 0x5be0cd19137e2179 ].

(** The eight working variables a..h. *)
Record Regs := mkRegs { ra : Z; rb : Z; rc : Z; rd : Z; re : Z; rf : Z; rg : Z; rh : Z }.

Definition regs_of (l : list Z) : Regs :=
  match l with
  | [a; b; c; d; e; f; g; h] => mkRegs a b c d e f g h
  | _ => mkRegs 0 0 0 0 0 0 0 0
  end.

Definition regs_list (r : Regs) : list Z :=
  [ra r; rb r; rc r; rd r; re r; rf r; rg r; rh r].

Definition round (k w : Z) (r : Regs) : Regs :=
  let t1 := add (add (add (add (rh r) (Sum1 (re r))) (Ch (re r) (rf r) (rg r))) k) w in
  let t2 := add (Sum0 (ra r)) (Maj (ra r) (rb r) (rc r)) in
  mkRegs (add t1 t2) (ra r) (rb r) (rc r) (add (rd r) t1) (re r) (rf r) (rg r).

(** The message schedule is kept as a window of the last sixteen words:
    its head is [W t], and [W (t+16)] is appended when the head is used. *)
Definition next_word (win : list Z) : Z :=
  add (add (add (sig1 (nth 14 win 0)) (nth 9 win 0)) (sig0 (nth 1 win 0))) (nth 0 win 0).

Fixpoint rounds (ks : list Z) (win : list Z) (r : Regs) : Regs :=
  match ks with
  | [] => r
  | k :: ks' => rounds ks' (tl win ++ [next_word win]) (round k (nth 0 win 0) r)
  end.

Definition compress (h : list Z) (block : list Z) : list Z :=
  let win := Bytes.be_value <$> Bytes.chunks 16 8 block in
  zip_with add h (regs_list (rounds K win (regs_of h))).

(** Padding: one 1 bit, zeros up to 112 modulo 128 bytes, then the
    length of the message in bits as a 128-bit big-endian integer. *)
Definition pad (msg : list Z) : list Z :=
  let len := Z.of_nat (length msg) in
  let zeros := Z.to_nat ((111 - len) mod 128) in
  msg ++ [128] ++ replicate zeros 0 ++ Bytes.be 16 (8 * len).

Definition hash (msg : list Z) : list Z :=
  let padded := pad msg in
  let blocks := Bytes.chunks (S (length padded)) 128 padded in
  concat (Bytes.be 8 <$> fold_left compress blocks H0).

Definition block_size : nat := 128.
Definition out_size : nat := 64.

End Sha512.

Module Hmac.

Definition block_key (key : list Z) : list Z :=
  let k := if (Sha512.block_size <? length key)%nat then Sha512.hash key else key in
  k ++ replicate (Sha512.block_size - length k) 0.

Definition sha512 (key msg : list Z) : list Z :=
  let k := block_key key in
  let ipad := Z.lxor 0x36 <$> k in
  let opad := Z.lxor 0x5c <$> k in
  Sha512.hash (opad ++ Sha512.hash (ipad ++ msg)).

End Hmac.

Module Pbkdf2.

(** Block [i] of the derived key: the exclusive or of [U_1 .. U_c], where
    [U_1 = PRF (P, S || INT i)] and [U_(j+1) = PRF (P, U_j)].  The pair
    carried through the iteration is (the running xor, the last [U]). *)
Definition block (prf : list Z -> list Z -> list Z)
    (password salt : list Z) (c : N) (i : Z) : list Z :=
  let u1 := prf password (salt ++ Bytes.be 4 i) in
  fst (N.iter (N.pred c)
         (fun '(acc, u) => let u' := prf password u in (Bytes.xor acc u', u'))
         (u1, u1)).

Definition derive (prf : list Z -> list Z -> list Z) (hlen : nat)
    (password salt : list Z) (c : N) (dklen : nat) : list Z :=
  let l := Nat.div (dklen + hlen - 1) hlen in
  take dklen
    (concat ((fun i => block prf password salt c (Z.of_nat i)) <$> seq 1 l)).

Definition hmac_sha512 (password salt : list Z) (c : N) (dklen : nat) : list Z :=
  derive Hmac.sha512 Sha512.out_size password salt c dklen.

End Pbkdf2.

(** ** JSON

    [JSON.parse] and [JSON.stringify] (ECMA-404, ECMA-262 25.5).  The
    members of an object are kept in the order in which JavaScript
    enumerates its properties: the keys that are array indices first, in
    ascending order, then the other keys in the order in which they were
    first written; a repeated key keeps its place and takes its last value.
    A number is carried as the lexeme it was written with.  It stands for
    the double nearest to it, which [JSON.stringify] prints in its shortest
    form: an integer up to [2 ** 53] is printed as it was written (and [-0]
    as [0]); for every other number the text is asked of the platform
    ([null] for a number beyond the range of a double).  A
    [\uXXXX] escape becomes the UTF-8 bytes of its code point, a surrogate
    pair becoming one code point; a surrogate without its pair is kept as
    the three bytes that this encoding gives it, and is printed back as an
    escape. *)

Module Json.

#[local] Unset Elimination Schemes.
Inductive value : Type :=
| Null
| Bool (b : bool)
| Number (lexeme : string)
| Str (s : string)
| Array (items : list value)
| Object (members : list (string * value)).
#[local] Set Elimination Schemes.

(** *** Lexical analysis *)

Inductive token : Type :=
| TLBrace | TRBrace | TLBracket | TRBracket | TColon | TComma
| TStr (s : string)
| TWord (w : string).

(** A character of a string literal: written as itself, or the UTF-16
    code unit of an escape. *)
Inductive piece : Type :=
| Raw (c : ascii)
| Unit16 (cu : Z).

Inductive mode : Type :=
| Top
| InWord (acc : list ascii)
| InStr (acc : list piece)
| InEsc (acc : list piece)
| InHex (acc : list piece) (digits : list Z).

Definition is_ws (c : ascii) : bool :=
  let n := Bytes.of_ascii c in (n =? 32) || (n =? 9) || (n =? 10) || (n =? 13).

Definition is_digit (c : ascii) : bool :=
  let n := Bytes.of_ascii c in (48 <=? n) && (n <=? 57).

(** The characters of numbers and of [true], [false], [null]. *)
Definition is_word_char (c : ascii) : bool :=
  let n := Bytes.of_ascii c in
  is_digit c || ((97 <=? n) && (n <=? 122)) || ((65 <=? n) && (n <=? 90))
  || (n =? 43) || (n =? 45) || (n =? 46).

Definition string_of_rev (acc : list ascii) : string :=
  string_of_list_ascii (rev acc).

(** UTF-8 encoding of a code point. *)
Definition utf8 (cp : Z) : list ascii :=
  Bytes.to_ascii <$>
  (if cp <? 0x80 then [cp]
   else if cp <? 0x800 then [0xC0 + Z.shiftr cp 6; 0x80 + Z.land cp 0x3F]
   else if cp <? 0x10000 then
     [0xE0 + Z.shiftr cp 12; 0x80 + Z.land (Z.shiftr cp 6) 0x3F; 0x80 + Z.land cp 0x3F]
   else
     [0xF0 + Z.shiftr cp 18; 0x80 + Z.land (Z.shiftr cp 12) 0x3F;
      0x80 + Z.land (Z.shiftr cp 6) 0x3F; 0x80 + Z.land cp 0x3F]).

Definition is_high (cu : Z) : bool := (0xD800 <=? cu) && (cu <=? 0xDBFF).
Definition is_low (cu : Z) : bool := (0xDC00 <=? cu) && (cu <=? 0xDFFF).

Fixpoint render (ps : list piece) : list ascii :=
  match ps with
  | [] => []
  | Raw c :: r => c :: render r
  | Unit16 hi :: ((Unit16 lo :: r') as r) =>
      if is_high hi && is_low lo
      then utf8 (0x10000 + Z.shiftl (hi - 0xD800) 10 + (lo - 0xDC00)) ++ render r'
      else utf8 hi ++ render r
  | Unit16 cu :: r => utf8 cu ++ render r
  end.

Definition string_of_pieces (acc : list piece) : string :=
  string_of_list_ascii (render (rev acc)).

Definition simple_escape (c : ascii) : option ascii :=
  let n := Bytes.of_ascii c in
  if (n =? 34) || (n =? 92) || (n =? 47) then Some c
  else if n =? 98 then Some (Bytes.to_ascii 8)
  else if n =? 102 then Some (Bytes.to_ascii 12)
  else if n =? 110 then Some (Bytes.to_ascii 10)
  else if n =? 114 then Some (Bytes.to_ascii 13)
  else if n =? 116 then Some (Bytes.to_ascii 9)
  else None.

(** A character met between tokens. *)
Definition top_step (c : ascii) : option (list token * mode) :=
  let n := Bytes.of_ascii c in
  if is_ws c then Some ([], Top)
  else if n =? 123 then Some ([TLBrace], Top)
  else if n =? 125 then Some ([TRBrace], Top)
  else if n =? 91 then Some ([TLBracket], Top)
  else if n =? 93 then Some ([TRBracket], Top)
  else if n =? 58 then Some ([TColon], Top)
  else if n =? 44 then Some ([TComma], Top)
  else if n =? 34 then Some ([], InStr [])
  else if is_word_char c then Some ([], InWord [c])
  else None.

Definition step (m : mode) (c : ascii) : option (list token * mode) :=
  match m with
  | Top => top_step c
  | InWord acc =>
      if is_word_char c then Some ([], InWord (c :: acc))
      else '(ts, m') ← top_step c; Some (TWord (string_of_rev acc) :: ts, m')
  | InStr acc =>
      let n := Bytes.of_ascii c in
      if n =? 34 then Some ([TStr (string_of_pieces acc)], Top)
      else if n =? 92 then Some ([], InEsc acc)
      else if n <? 32 then None
      else Some ([], InStr (Raw c :: acc))
  | InEsc acc =>
      if Bytes.of_ascii c =? 117 then Some ([], InHex acc [])
      else e ← simple_escape c; Some ([], InStr (Raw e :: acc))
  | InHex acc ds =>
      d ← Bytes.hex_value c;
      match ds with
      | [d3; d2; d1] => Some ([], InStr (Unit16 (((d1 * 16 + d2) * 16 + d3) * 16 + d) :: acc))
      | _ => Some ([], InHex acc (d :: ds))
      end
  end.

Definition finish (m : mode) : option (list token) :=
  match m with
  | Top => Some []
  | InWord acc => Some [TWord (string_of_rev acc)]
  | _ => None
  end.

Fixpoint lex (s : string) (m : mode) : option (list token) :=
  match s with
  | EmptyString => finish m
  | String c r => '(ts, m') ← step m c; rest ← lex r m'; Some (ts ++ rest)
  end.

(** *** Numbers: an optional minus sign; zero, or a digit other than zero
    and any digits; optionally a point and digits; optionally [e] or [E],
    a sign and digits. *)

Fixpoint skip_digits (s : string) : string :=
  match s with
  | String c r => if is_digit c then skip_digits r else s
  | EmptyString => s
  end.

Definition digits1 (s : string) : option string :=
  match s with
  | String c r => if is_digit c then Some (skip_digits r) else None
  | EmptyString => None
  end.

Definition number_exp (s : string) : bool :=
  match s with
  | EmptyString => true
  | String c r =>
      if (c =? "e")%char || (c =? "E")%char then
        let r' := match r with
                  | String d r2 => if (d =? "+")%char || (d =? "-")%char then r2 else r
                  | EmptyString => r
                  end in
        bool_decide (digits1 r' = Some "")
      else false
  end.

Definition number_frac (s : string) : bool :=
  match s with
  | String "."%char r => from_option number_exp false (digits1 r)
  | _ => number_exp s
  end.

Definition number_int (s : string) : bool :=
  match s with
  | String c r =>
      if (c =? "0")%char then number_frac r
      else if is_digit c then number_frac (skip_digits r)
      else false
  | EmptyString => false
  end.

Definition is_number (s : string) : bool :=
  match s with
  | String "-"%char r => number_int r
  | _ => number_int s
  end.

Definition word_value (w : string) : option value :=
  if bool_decide (w = "true") then Some (Bool true)
  else if bool_decide (w = "false") then Some (Bool false)
  else if bool_decide (w = "null") then Some Null
  else if is_number w then Some (Number w)
  else None.

(** *** Syntactic analysis: a stack of the containers still open *)

Inductive frame : Type :=
| FArray (done : list value)
| FObject (done : list (string * value)) (key : string).

Inductive phase : Type :=
| WantValue                                   (* a value must follow *)
| WantValueOrClose                            (* just after [ *)
| WantKeyOrClose (done : list (string * value))   (* just after { *)
| WantKey (done : list (string * value))      (* after , in an object *)
| WantColon (done : list (string * value)) (key : string)
| HaveValue (v : value).                      (* a value was completed *)

(** The index that a key is when it is an array index: the decimal form,
    without leading zeros, of an integer below [2 ** 32 - 1]. *)
Definition index_of (k : string) : option Z :=
  match k with
  | EmptyString => None
  | String c r =>
      if forallb is_digit (c :: list_ascii_of_string r)
         && ((negb (c =? "0")%char) || bool_decide (r = ""))
      then
        let n := fold_left (fun acc d => acc * 10 + (Bytes.of_ascii d - 48))
                   (c :: list_ascii_of_string r) 0 in
        if n <? 2 ^ 32 - 1 then Some n else None
      else None
  end.

(** The place of a new key [k] is before the key [k'] when [k] is an array
    index and [k'] is none or a greater one. *)
Definition goes_before (k k' : string) : bool :=
  match index_of k, index_of k' with
  | Some i, Some i' => i <? i'
  | Some _, None => true
  | None, _ => false
  end.

Fixpoint replace_member (k : string) (v : value) (ms : list (string * value))
    : list (string * value) :=
  match ms with
  | [] => []
  | (k', v') :: r =>
      if bool_decide (k' = k) then (k, v) :: r else (k', v') :: replace_member k v r
  end.

Fixpoint insert_member (k : string) (v : value) (ms : list (string * value))
    : list (string * value) :=
  match ms with
  | [] => [(k, v)]
  | (k', v') :: r =>
      if goes_before k k' then (k, v) :: ms else (k', v') :: insert_member k v r
  end.

(** [obj[k] = v] on the members read so far. *)
Definition set_member (k : string) (v : value) (ms : list (string * value))
    : list (string * value) :=
  if existsb (fun m => bool_decide (fst m = k)) ms
  then replace_member k v ms
  else insert_member k v ms.

Definition begin_value (t : token) (stack : list frame) : option (list frame * phase) :=
  match t with
  | TStr s => Some (stack, HaveValue (Str s))
  | TWord w => v ← word_value w; Some (stack, HaveValue v)
  | TLBracket => Some (stack, WantValueOrClose)
  | TLBrace => Some (stack, WantKeyOrClose [])
  | _ => None
  end.

Definition parse_step (t : token) (st : list frame * phase) : option (list frame * phase) :=
  let '(stack, ph) := st in
  match ph with
  | WantValue => begin_value t stack
  | WantValueOrClose =>
      match t with
      | TRBracket => Some (stack, HaveValue (Array []))
      | _ => begin_value t (FArray [] :: stack)
      end
  | WantKeyOrClose done =>
      match t with
      | TRBrace => Some (stack, HaveValue (Object done))
      | TStr k => Some (stack, WantColon done k)
      | _ => None
      end
  | WantKey done =>
      match t with
      | TStr k => Some (stack, WantColon done k)
      | _ => None
      end
  | WantColon done k =>
      match t with
      | TColon => Some (FObject done k :: stack, WantValue)
      | _ => None
      end
  | HaveValue v =>
      match stack, t with
      | FArray done :: stack', TComma => Some (FArray (done ++ [v]) :: stack', WantValue)
      | FArray done :: stack', TRBracket => Some (stack', HaveValue (Array (done ++ [v])))
      | FObject done k :: stack', TComma => Some (stack', WantKey (set_member k v done))
      | FObject done k :: stack', TRBrace =>
          Some (stack', HaveValue (Object (set_member k v done)))
      | _, _ => None
      end
  end.

Fixpoint parse_tokens (ts : list token) (st : list frame * phase) : option value :=
  match ts with
  | [] => match st with
          | ([], HaveValue v) => Some v
          | _ => None
          end
  | t :: r => st' ← parse_step t st; parse_tokens r st'
  end.

(** [JSON.parse(text)]; [None] stands for the [SyntaxError] it throws. *)
Definition parse (text : string) : option value :=
  ts ← lex text Top; parse_tokens ts ([], WantValue).

(** *** Printing *)

Definition dquote : ascii := Bytes.to_ascii 34.

Definition quote_char (c : ascii) : list ascii :=
  let n := Bytes.of_ascii c in
  if n =? 34 then ["\"%char; dquote]
  else if n =? 92 then ["\"; "\"]%char
  else if n =? 8 then ["\"; "b"]%char
  else if n =? 12 then ["\"; "f"]%char
  else if n =? 10 then ["\"; "n"]%char
  else if n =? 13 then ["\"; "r"]%char
  else if n =? 9 then ["\"; "t"]%char
  else if n <? 32 then
    ["\"; "u"; "0"; "0"]%char ++ [Bytes.hex_digit (Z.shiftr n 4); Bytes.hex_digit (Z.land n 15)]
  else [c].

(** A surrogate without its pair, as [string_of_pieces] left it: the bytes
    [ED], [A0]..[BF], [80]..[BF].  It is printed as its escape. *)
Definition lone_surrogate (a b c : ascii) : option Z :=
  let '(x, y, z) := (Bytes.of_ascii a, Bytes.of_ascii b, Bytes.of_ascii c) in
  if (x =? 0xED) && (0xA0 <=? y) && (y <=? 0xBF) && (0x80 <=? z) && (z <=? 0xBF)
  then Some (0xD000 + Z.shiftl (Z.land y 0x3F) 6 + Z.land z 0x3F)
  else None.

Definition unicode_escape (cu : Z) : list ascii :=
  ["\"; "u"]%char ++
  [Bytes.hex_digit (Z.shiftr cu 12); Bytes.hex_digit (Z.land (Z.shiftr cu 8) 15);
   Bytes.hex_digit (Z.land (Z.shiftr cu 4) 15); Bytes.hex_digit (Z.land cu 15)].

Fixpoint quote_chars (l : list ascii) : list ascii :=
  match l with
  | [] => []
  | a :: r =>
      match r with
      | b :: c :: r' =>
          match lone_surrogate a b c with
          | Some cu => unicode_escape cu ++ quote_chars r'
          | None => quote_char a ++ quote_chars r
          end
      | _ => quote_char a ++ quote_chars r
      end
  end.

Definition quote (s : string) : string :=
  String dquote
    (string_of_list_ascii (quote_chars (list_ascii_of_string s)) +:+ String dquote "").

Fixpoint join (sep : string) (l : list string) : string :=
  match l with
  | [] => ""
  | [x] => x
  | x :: r => x +:+ sep +:+ join sep r
  end.

(** A lexeme that is an integer of at most sixteen digits and of magnitude
    at most [2 ** 53]: a double holds it exactly. *)
Definition safe_integer (lexeme : string) : bool :=
  let digits := match lexeme with
                | String "-"%char r => r
                | _ => lexeme
                end in
  let l := list_ascii_of_string digits in
  negb (bool_decide (l = [])) && forallb is_digit l
  && (fold_left (fun acc d => acc * 10 + (Bytes.of_ascii d - 48)) l 0 <=? 2 ^ 53).

(** The text of a number: [platform] prints the numbers that are no safe
    integers. *)
Definition number_to_string (platform : string -> string) (lexeme : string) : string :=
  if safe_integer lexeme
  then (if bool_decide (lexeme = "-0") then "0" else lexeme)
  else platform lexeme.

Section Stringify.

Variable platform : string -> string.

Fixpoint stringify (v : value) : string :=
  match v with
  | Null => "null"
  | Bool true => "true"
  | Bool false => "false"
  | Number lexeme => number_to_string platform lexeme
  | Str s => quote s
  | Array items => "[" +:+ join "," (map stringify items) +:+ "]"
  | Object members =>
      "{" +:+ join "," (map (fun m => quote (fst m) +:+ ":" +:+ stringify (snd m)) members)
      +:+ "}"
  end.

End Stringify.

Definition lookup_member (k : string) (ms : list (string * value)) : option value :=
  snd <$> find (fun m => bool_decide (fst m = k)) ms.

End Json.

(** ** URLs

    [new URL(url)] without a base, [url.searchParams.get] and
    [decodeURIComponent].  The URL parser follows the state machine of the
    WHATWG URL Standard for what decides the outcome here: the scheme, the
    split into authority and path, query and fragment, the credentials, the
    host and the port of an authority.  The host parser of the Standard is
    followed for the host of a scheme that is not special (an opaque host).
    The domain of a special scheme (percent-decoding, IDNA processing, IPv4
    numbers) and an IPv6 literal in brackets are left to the platform: the
    parser takes as a parameter what the platform's host parser answers.
    The percent-encoding that the parser applies to the query is undone by
    [searchParams], so the query is kept as written. *)

Module Url.

Record t : Type := mk {
  scheme : string;
  body : string;            (* authority and path, as written *)
  query : option string;
  fragment : option string
}.

Definition code (c : ascii) : Z := Bytes.of_ascii c.

Definition is_alpha (c : ascii) : bool :=
  ((97 <=? code c) && (code c <=? 122)) || ((65 <=? code c) && (code c <=? 90)).
Definition is_digit (c : ascii) : bool := (48 <=? code c) && (code c <=? 57).
Definition is_scheme_char (c : ascii) : bool :=
  is_alpha c || is_digit c || (code c =? 43) || (code c =? 45) || (code c =? 46).
Definition is_c0_or_space (c : ascii) : bool := code c <=? 32.
Definition is_tab_or_newline (c : ascii) : bool :=
  (code c =? 9) || (code c =? 10) || (code c =? 13).

Definition lower (c : ascii) : ascii :=
  if (65 <=? code c) && (code c <=? 90) then Bytes.to_ascii (code c + 32) else c.

Fixpoint drop_while (p : ascii -> bool) (l : list ascii) : list ascii :=
  match l with
  | c :: r => if p c then drop_while p r else l
  | [] => []
  end.

Definition trim_ends (p : ascii -> bool) (l : list ascii) : list ascii :=
  rev (drop_while p (rev (drop_while p l))).

(** Splits at the first character satisfying [p], which is dropped. *)
Fixpoint break (p : ascii -> bool) (l : list ascii) : list ascii * option (list ascii) :=
  match l with
  | [] => ([], None)
  | c :: r => if p c then ([], Some r) else let '(a, b) := break p r in (c :: a, b)
  end.

Definition is_char (k : Z) (c : ascii) : bool := code c =? k.

(** The scheme and what follows its colon. *)
Definition parse_scheme (l : list ascii) : option (list ascii * list ascii) :=
  match l with
  | c :: _ =>
      if is_alpha c then
        match break (fun c => negb (is_scheme_char c)) l with
        | (s, None) => None
        | (s, Some rest) =>
            (* [break] dropped the first character outside the scheme: it
               must have been the colon *)
            match drop (length s) l with
            | d :: _ => if is_char 58 d then Some (lower <$> s, rest) else None
            | [] => None
            end
        end
      else None
  | [] => None
  end.

Definition is_special (s : string) : bool :=
  bool_decide (s ∈ ["ftp"; "file"; "http"; "https"; "ws"; "wss"]).

Definition forbidden_host (c : ascii) : bool :=
  bool_decide (code c ∈ [0; 9; 10; 13; 32; 35; 47; 58; 60; 62; 63; 64; 91; 92; 93; 94; 124]).

Definition port_value (l : list ascii) : Z :=
  fold_left (fun acc c => acc * 10 + (code c - 48)) l 0.

Definition valid_port (l : list ascii) : bool :=
  forallb is_digit l && (port_value l <=? 65535).

(** The host state: the host ends at the first colon that is not between
    brackets; what follows the colon is the port. *)
Fixpoint split_host (inside : bool) (l : list ascii) : list ascii * option (list ascii) :=
  match l with
  | [] => ([], None)
  | c :: r =>
      if is_char 58 c && negb inside then ([], Some r)
      else
        let inside' := if is_char 91 c then true else if is_char 93 c then false else inside in
        let '(h, p) := split_host inside' r in (c :: h, p)
  end.

Section Hosts.

(** [platform special host]: the host parser of the platform accepts
    [host], for a special scheme or not. *)
Variable platform : bool -> string -> bool.

(** The host parser on a host that is not empty: a host that opens a
    bracket must end with the closing one, and is an IPv6 literal then; an
    opaque host must hold no forbidden code point. *)
Definition host_parses (special : bool) (host : list ascii) : bool :=
  match host with
  | c :: _ =>
      if is_char 91 c then
        match last host with
        | Some d => is_char 93 d && platform special (string_of_list_ascii host)
        | None => false
        end
      else if special then platform true (string_of_list_ascii host)
      else negb (existsb forbidden_host host)
  | [] => negb special
  end.

(** The host and the port of an authority without its credentials: whether
    they are accepted, and whether the host is empty. *)
Definition valid_host_port (special : bool) (hp : list ascii) : bool * bool :=
  let '(host, port) := split_host false hp in
  (host_parses special host && from_option valid_port true port,
   bool_decide (host = [])).

(** The last [@] of an authority ends its credentials. *)
Definition split_credentials (auth : list ascii) : bool * list ascii :=
  match break (is_char 64) (rev auth) with
  | (hp, Some _) => (true, rev hp)
  | (hp, None) => (false, auth)
  end.

Definition valid_authority (special : bool) (auth : list ascii) : bool :=
  let '(creds, hp) := split_credentials auth in
  let '(ok, empty_host) := valid_host_port special hp in
  ok && negb (empty_host && (creds || negb (bool_decide (hp = [])))).

Definition is_slash (special : bool) (c : ascii) : bool :=
  is_char 47 c || (special && is_char 92 c).

(** A Windows drive letter: a letter and a colon or a bar. *)
Definition is_drive_letter (l : list ascii) : bool :=
  match l with
  | [c; d] => is_alpha c && (is_char 58 d || is_char 124 d)
  | _ => false
  end.

(** What follows the scheme, up to the query: for a [file] URL, the host
    is what stands between two slashes and the next one, unless it is a
    drive letter; for another special scheme, the authority follows any
    number of slashes; for any other scheme, an authority follows two
    slashes, and there is none otherwise. *)
Definition valid_body (sch : string) (b : list ascii) : bool :=
  let special := is_special sch in
  if bool_decide (sch = "file") then
    match b with
    | c1 :: c2 :: r =>
        if is_slash true c1 && is_slash true c2 then
          let host := fst (break (is_slash true) r) in
          bool_decide (host = []) || is_drive_letter host || host_parses true host
        else true
    | _ => true
    end
  else if special then
    valid_authority true (fst (break (is_slash true) (drop_while (is_slash true) b)))
  else
    match b with
    | c1 :: c2 :: r =>
        if is_char 47 c1 && is_char 47 c2
        then valid_authority false (fst (break (is_slash false) r))
        else true
    | _ => true
    end.

(** [new URL(url)]; [None] stands for the [TypeError] it throws. *)
Definition parse (url : string) : option t :=
  let l := filter (fun c => negb (is_tab_or_newline c))
             (trim_ends is_c0_or_space (list_ascii_of_string url)) in
  '(sch, rest) ← parse_scheme l;
  let '(main, frag) := break (is_char 35) rest in
  let '(b, q) := break (is_char 63) main in
  let sch := string_of_list_ascii sch in
  if valid_body sch b
  then Some (mk sch (string_of_list_ascii b) (string_of_list_ascii <$> q)
               (string_of_list_ascii <$> frag))
  else None.

End Hosts.

Definition hex_byte (h1 h2 : ascii) : option Z :=
  a ← Bytes.hex_value h1; b ← Bytes.hex_value h2; Some (a * 16 + b).

(** Percent-decoding of the URL Standard: a [%] that is not followed by
    two hexadecimal digits stands for itself. *)
Fixpoint percent_decode (l : list ascii) : list ascii :=
  match l with
  | [] => []
  | c :: r =>
      match r with
      | h1 :: h2 :: r' =>
          match (if is_char 37 c then hex_byte h1 h2 else None) with
          | Some b => Bytes.to_ascii b :: percent_decode r'
          | None => c :: percent_decode r
          end
      | _ => c :: percent_decode r
      end
  end.

(** Consecutive pieces of a list separated by [sep]. *)
Fixpoint split_on (sep : Z) (l : list ascii) : list (list ascii) :=
  match l with
  | [] => [[]]
  | c :: r =>
      if is_char sep c then [] :: split_on sep r
      else match split_on sep r with
           | p :: ps => (c :: p) :: ps
           | [] => [[c]]
           end
  end.

(** The replacement character U+FFFD in UTF-8. *)
Definition replacement : list Z := [0xEF; 0xBF; 0xBD].

(** The UTF-8 decoder of the Encoding Standard, which [searchParams]
    applies to the bytes it has percent-decoded: a byte that cannot begin
    or continue a sequence is replaced by U+FFFD, and a byte that cannot
    continue one is read again as the beginning of the next.  [seen] holds
    the bytes of the sequence read so far and [need] how many must follow;
    the next byte must lie between [lo] and [hi]. *)
Fixpoint utf8_decode (l : list Z) (seen : list Z) (need : nat) (lo hi : Z) : list Z :=
  match l with
  | [] => match need with O => [] | S _ => replacement end
  | b :: r =>
      let start :=
        if b <=? 0x7F then b :: utf8_decode r [] 0 0x80 0xBF
        else if (0xC2 <=? b) && (b <=? 0xDF) then utf8_decode r [b] 1 0x80 0xBF
        else if (0xE0 <=? b) && (b <=? 0xEF) then
          utf8_decode r [b] 2 (if b =? 0xE0 then 0xA0 else 0x80)
            (if b =? 0xED then 0x9F else 0xBF)
        else if (0xF0 <=? b) && (b <=? 0xF4) then
          utf8_decode r [b] 3 (if b =? 0xF0 then 0x90 else 0x80)
            (if b =? 0xF4 then 0x8F else 0xBF)
        else replacement ++ utf8_decode r [] 0 0x80 0xBF in
      match need with
      | O => start
      | S k =>
          if (lo <=? b) && (b <=? hi) then
            match k with
            | O => seen ++ [b] ++ utf8_decode r [] 0 0x80 0xBF
            | S _ => utf8_decode r (seen ++ [b]) k 0x80 0xBF
            end
          else replacement ++ start
      end
  end.

Definition form_decode (l : list ascii) : string :=
  Bytes.to_string
    (utf8_decode
       (Bytes.of_ascii <$>
        percent_decode ((fun c => if is_char 43 c then Bytes.to_ascii 32 else c) <$> l))
       [] 0 0x80 0xBF).

(** The application/x-www-form-urlencoded parser. *)
Definition search_params (u : t) : list (string * string) :=
  let pieces := split_on 38 (list_ascii_of_string (default "" (query u))) in
  (fun p => let '(n, v) := break (is_char 61) p in
            (form_decode n, form_decode (default [] v)))
  <$> filter (fun p => negb (bool_decide (p = []))) pieces.

(** [url.searchParams.get(name)]; [None] is [null]. *)
Definition search_params_get (u : t) (name : string) : option string :=
  snd <$> find (fun p => bool_decide (fst p = name)) (search_params u).

Definition utf8_length (b : Z) : option nat :=
  if (0xC0 <=? b) && (b <=? 0xDF) then Some 2%nat
  else if (0xE0 <=? b) && (b <=? 0xEF) then Some 3%nat
  else if (0xF0 <=? b) && (b <=? 0xF7) then Some 4%nat
  else None.

Definition between (lo hi b : Z) : bool := (lo <=? b) && (b <=? hi).

(** Well-formed UTF-8 sequences of two, three and four bytes. *)
Definition valid_utf8 (bs : list Z) : bool :=
  match bs with
  | [b0; b1] => between 0xC2 0xDF b0 && between 0x80 0xBF b1
  | [b0; b1; b2] =>
      ((b0 =? 0xE0) && between 0xA0 0xBF b1
       || between 0xE1 0xEC b0 && between 0x80 0xBF b1
       || (b0 =? 0xED) && between 0x80 0x9F b1
       || between 0xEE 0xEF b0 && between 0x80 0xBF b1)
      && between 0x80 0xBF b2
  | [b0; b1; b2; b3] =>
      ((b0 =? 0xF0) && between 0x90 0xBF b1
       || between 0xF1 0xF3 b0 && between 0x80 0xBF b1
       || (b0 =? 0xF4) && between 0x80 0x8F b1)
      && between 0x80 0xBF b2 && between 0x80 0xBF b3
  | _ => false
  end.

(** The loop of [decodeURIComponent]: [pending] holds the bytes of an
    unfinished UTF-8 sequence and [need] how many more must follow, each
    one as an escape. *)
Fixpoint decode_from (l : list ascii) (pending : list Z) (need : nat)
    : option (list ascii) :=
  match need, l with
  | O, [] => Some []
  | O, c :: r =>
      if is_char 37 c then
        match r with
        | h1 :: h2 :: r' =>
            b ← hex_byte h1 h2;
            if b <? 0x80 then cons (Bytes.to_ascii b) <$> decode_from r' [] 0
            else n ← utf8_length b; decode_from r' [b] (Nat.pred n)
        | _ => None
        end
      else cons c <$> decode_from r [] 0
  | S k, c :: h1 :: h2 :: r' =>
      if is_char 37 c then
        b ← hex_byte h1 h2;
        let bs := pending ++ [b] in
        match k with
        | O => if valid_utf8 bs
               then app (Bytes.to_ascii <$> bs) <$> decode_from r' [] 0
               else None
        | S _ => decode_from r' bs k
        end
      else None
  | S _, _ => None
  end.

(** [decodeURIComponent(s)]; [None] stands for the [URIError] it throws. *)
Definition decodeURIComponent (s : string) : option string :=
  string_of_list_ascii <$> decode_from (list_ascii_of_string s) [] 0.

End Url.

Definition callback_url : string :=
  "appname://auth?data=%7B%22displayName%22%3A%22Jane%22%2C%22idToken%22%3A%22abc%22%7D".

(** ** The world of a process

    What the program can observe and change: the file system, the
    operating system's source of randomness, the window, the pending
    asynchronous file operations, and the chronological trace of the calls
    it made to the platform.  [Env] is what it can only read. *)

Inductive Exn : Type :=
| TypeError (msg : string)
| SyntaxError (msg : string)
| URIError (msg : string)
| RangeError (code : string)                       (* thrown by [crypto] *)
| SystemError (code : string) (path : string)      (* thrown by [fs] *)
| Error (msg : string)                             (* [new Error(msg)] *)
| VaultError (kind : string) (name : string).      (* thrown by the vault *)

Inductive Res (A : Type) : Type :=
| Ok (a : A)
| Throw (e : Exn).
Arguments Ok {A} a.
Arguments Throw {A} e.

(** A JavaScript value that came out of [JSON.parse], or [undefined]. *)
Definition JsValue : Type := option Json.value.

(** A JavaScript number given as an argument: a finite number is a
    rational, and there are [NaN] and the two infinities. *)
Inductive JsNumber : Type :=
| Finite (q : QArith_base.Q)
| NaN
| Infinity (negative : bool).

(** The number of an integer literal. *)
Definition integer (z : Z) : JsNumber := Finite (QArith_base.inject_Z z).

Inductive IoOp : Type :=
| OpRead | OpWrite | OpMkdir | OpUnlink     (* [fs] *)
| OpStore | OpDelete.                       (* the slots of the vault *)

Inductive Event : Type :=
| ConsoleError (msg : string) (e : Exn)
| ShowErrorBox (title content : string)
| FsMkdir (path : string)
| FsWriteFile (path : string)
| FsUnlink (path : string)
| StoreToken (name : string)
| ClearAllTokens
| WindowCreate | WindowRestore | WindowFocus | WindowReload
| AppQuit
| AppOn (event : string)
| AppWhenReady
| IpcHandle (channel : string)
| RegisterHandlers (group : string)
| SetProtocolClient (protocol : string) (args : list string)
| RequestLock
| PreventDefault.

Record File : Type := mkFile { data : string; mode : Z }.

Record Window : Type := mkWindow { minimized : bool; focused : bool; loads : nat }.

(** Modelled from the spec: an entry of the vault, whose code is missing:
    "ciphertext plus whatever metadata the chosen authenticated-encryption
    scheme requires".  Encryption is symbolic: the entry records the
    plaintext, the nonce and the sealing key, and only that key opens it. *)
Record Sealed : Type := mkSealed { sealed_key : string; nonce : list Z; plaintext : string }.

(** Modelled from the spec: what the vault, whose code is missing, does
    with a value that is not a string; the specification leaves it open. *)
Inductive Coerced : Type :=
| Store (plain : string)
| Ignore
| Reject.

Record Env : Type := mkEnv {
  userData : string;               (* [app.getPath("userData")] *)
  fails : IoOp -> string -> bool;  (* what the system refuses before it has
                                      changed anything: permissions, a
                                      read-only volume, a file further up
                                      in the place of a directory *)
  space : string -> option nat;    (* a disk that fills up: how many bytes of
                                      a write to this path it still takes *)
  eager : string -> bool;          (* the thread pool carries out the removal
                                      of this path before the caller's next
                                      statement runs *)
  entropy : nat -> Z;              (* the bytes [crypto.randomBytes] will give *)
  lock_taken : bool;               (* another instance holds the lock *)
  defaultApp : bool;               (* [process.defaultApp] *)
  argv : list string;              (* [process.argv] *)
  execPath : string;               (* [process.execPath] *)
  platform : string;               (* [process.platform] *)
  parses_host : bool -> string -> bool;
                                   (* the host parser of [new URL] on the hosts
                                      that [Url.parse] leaves to it, for a
                                      special scheme or not *)
  number_text : string -> string;  (* what [JSON.stringify] prints for the
                                      number written as this lexeme, when
                                      it is no small integer *)
  coerce : JsValue -> Coerced      (* the vault on a value that is no string *)
}.

Record World : Type := mkWorld {
  env : Env;
  files : gmap string File;
  dirs : gset string;
  drawn : nat;                     (* random bytes consumed so far *)
  vault : gmap string Sealed;
  mainWindow : option Window;      (* [let mainWindow: BrowserWindow | null] *)
  pending : list string;           (* [fs.unlink] requests not yet carried out *)
  quitting : bool;
  trace : list Event
}.

Definition set_files (f : gmap string File -> gmap string File) (w : World) : World :=
  mkWorld (env w) (f (files w)) (dirs w) (drawn w) (vault w) (mainWindow w)
    (pending w) (quitting w) (trace w).
Definition set_dirs (f : gset string -> gset string) (w : World) : World :=
  mkWorld (env w) (files w) (f (dirs w)) (drawn w) (vault w) (mainWindow w)
    (pending w) (quitting w) (trace w).
Definition set_drawn (f : nat -> nat) (w : World) : World :=
  mkWorld (env w) (files w) (dirs w) (f (drawn w)) (vault w) (mainWindow w)
    (pending w) (quitting w) (trace w).
Definition set_vault (f : gmap string Sealed -> gmap string Sealed) (w : World) : World :=
  mkWorld (env w) (files w) (dirs w) (drawn w) (f (vault w)) (mainWindow w)
    (pending w) (quitting w) (trace w).
Definition set_mainWindow (f : option Window -> option Window) (w : World) : World :=
  mkWorld (env w) (files w) (dirs w) (drawn w) (vault w) (f (mainWindow w))
    (pending w) (quitting w) (trace w).
Definition set_pending (f : list string -> list string) (w : World) : World :=
  mkWorld (env w) (files w) (dirs w) (drawn w) (vault w) (mainWindow w)
    (f (pending w)) (quitting w) (trace w).
Definition set_quitting (b : bool) (w : World) : World :=
  mkWorld (env w) (files w) (dirs w) (drawn w) (vault w) (mainWindow w)
    (pending w) b (trace w).
Definition set_trace (f : list Event -> list Event) (w : World) : World :=
  mkWorld (env w) (files w) (dirs w) (drawn w) (vault w) (mainWindow w)
    (pending w) (quitting w) (f (trace w)).

(** ** Computations *)

Definition M (A : Type) : Type := World -> Res A * World.

Global Instance M_ret : MRet M := fun A a w => (Ok a, w).

Global Instance M_bind : MBind M := fun A B k m w =>
  match m w with
  | (Ok a, w') => k a w'
  | (Throw e, w') => (Throw e, w')
  end.

Definition throw {A} (e : Exn) : M A := fun w => (Throw e, w).

(** [try { body } catch (e) { handler e }] *)
Definition try_catch {A} (body : M A) (handler : Exn -> M A) : M A := fun w =>
  match body w with
  | (Ok a, w') => (Ok a, w')
  | (Throw e, w') => handler e w'
  end.

Definition gets {A} (f : World -> A) : M A := fun w => (Ok (f w), w).
Definition modify (f : World -> World) : M unit := fun w => (Ok tt, f w).
Definition emit (e : Event) : M unit := modify (set_trace (fun t => t ++ [e])).

(** A library call that throws [e] where the model gives [None]. *)
Definition or_throw {A} (e : Exn) (o : option A) : M A :=
  match o with
  | Some a => mret a
  | None => throw e
  end.

Definition when (b : bool) (m : M unit) : M unit := if b then m else mret tt.

(** ** The platform *)

(** [path.join(dir, name)] for a directory and a file name that need no
    normalisation. *)
Definition path_join (dir name : string) : string := dir +:+ "/" +:+ name.

Module console.
Definition error (msg : string) (e : Exn) : M unit := emit (ConsoleError msg e).
End console.

Module dialog.
Definition showErrorBox (title content : string) : M unit :=
  emit (ShowErrorBox title content).
End dialog.

Module crypto.

(** The next [n] bytes of the system's entropy. *)
Definition draw (n : nat) : M (list Z) :=
  w ← gets id;
  modify (set_drawn (fun d => (d + n)%nat));;
  mret ((fun i => entropy (env w) i mod 256) <$> seq (drawn w) n).

(** The largest size that [randomBytes] accepts, [2 ** 31 - 1]. *)
Definition kMaxPossibleLength : Z := 2 ^ 31 - 1.

(** [crypto.randomBytes(size)]: a size that is [NaN], negative or above
    [2 ** 31 - 1] is refused with [ERR_OUT_OF_RANGE]; otherwise the size is
    converted to an integer ([size >>> 0], which drops the fraction) and
    that many bytes are drawn. *)
Definition randomBytes (size : JsNumber) : M (list Z) :=
  match size with
  | Finite q =>
      if QArith_base.Qle_bool (QArith_base.inject_Z 0) q
         && QArith_base.Qle_bool q (QArith_base.inject_Z kMaxPossibleLength)
      then draw (Z.to_nat (Qround.Qfloor q))
      else throw (RangeError "ERR_OUT_OF_RANGE")
  | NaN | Infinity _ => throw (RangeError "ERR_OUT_OF_RANGE")
  end.

(** [crypto.pbkdf2Sync(password, salt, iterations, keylen, "sha512")] *)
Definition pbkdf2Sync (password salt : string) (iterations : N) (keylen : nat) : list Z :=
  Pbkdf2.hmac_sha512 (Bytes.of_string password) (Bytes.of_string salt) iterations keylen.

End crypto.

Module fs.

(** The mode that [writeFileSync] gives by default, [0o666]. *)
Definition mode_0o666 : Z := 6 * 8 * 8 + 6 * 8 + 6.

Definition refused (op : IoOp) (path : string) : M bool :=
  gets (fun w => fails (env w) op path).

(** [fs.existsSync(path)] never throws. *)
Definition existsSync (path : string) : M bool :=
  gets (fun w => bool_decide (is_Some (files w !! path)) || bool_decide (path ∈ dirs w)).

(** [fs.readFileSync(path, "utf8")] *)
Definition readFileSync (path : string) : M string :=
  no ← refused OpRead path;
  if no : bool then throw (SystemError "EACCES" path)
  else
    w ← gets id;
    match files w !! path with
    | Some f => mret (data f)
    | None =>
        throw (SystemError (if bool_decide (path ∈ dirs w) then "EISDIR" else "ENOENT") path)
    end.

(** [fs.mkdirSync(path, { recursive: true })]: an existing directory is
    not an error.  The directories above [path] that the call makes on its
    way are not recorded: the program never looks at them. *)
Definition mkdirSync (path : string) : M unit :=
  emit (FsMkdir path);;
  no ← refused OpMkdir path;
  w ← gets id;
  if no : bool then throw (SystemError "EACCES" path)
  else if bool_decide (is_Some (files w !! path)) then throw (SystemError "EEXIST" path)
  else modify (set_dirs (fun d => {[path]} ∪ d)).

(** The directory of a path, for paths as [path_join] makes them: what
    precedes the last [/]; [None] for a name without [/], which is looked
    up in the working directory. *)
Fixpoint dirname (path : string) : option string :=
  match path with
  | EmptyString => None
  | String c r =>
      match dirname r with
      | Some d => Some (String c d)
      | None => if (c =? "/")%char then Some "" else None
      end
  end.

(** What stands in the way of a new file at [path]: its directory is
    missing ([ENOENT]) or is a file ([ENOTDIR]).  The root and the working
    directory are always there. *)
Definition parent_error (path : string) (w : World) : option string :=
  match dirname path with
  | Some d =>
      if bool_decide (d = "") || bool_decide (d ∈ dirs w) then None
      else if bool_decide (is_Some (files w !! d)) then Some "ENOTDIR"
      else Some "ENOENT"
  | None => None
  end.

(** [fs.writeFileSync(path, data, { mode })].  The file is opened first:
    its directory must be there; the mode is given to a file that the call
    creates (the umask of the process is not modelled), a file that exists
    keeps its own and is emptied.  Then the data is written: when the disk
    fills up on the way, the file is left with the bytes that were taken
    and the call throws. *)
Definition writeFileSync (path content : string) (md : Z) : M unit :=
  emit (FsWriteFile path);;
  no ← refused OpWrite path;
  w ← gets id;
  if no : bool then throw (SystemError "EACCES" path)
  else
    match parent_error path w with
    | Some code => throw (SystemError code path)
    | None =>
        if bool_decide (path ∈ dirs w) then throw (SystemError "EISDIR" path)
        else
          let md' := from_option mode md (files w !! path) in
          let taken := default (String.length content) (space (env w) path) in
          if (taken <? String.length content)%nat then
            modify (set_files
                      (fun fm => <[path := mkFile (String.substring 0 taken content) md']> fm));;
            throw (SystemError "ENOSPC" path)
          else modify (set_files (fun fm => <[path := mkFile content md']> fm))
    end.

(** The removal that [fs.unlink] asked for is carried out.  The callback
    of this program is [() => {}]: an error is dropped. *)
Definition complete_unlink (path : string) (w : World) : World :=
  if fails (env w) OpUnlink path then w
  else set_files (fun fm => delete path fm) w.

(** [fs.unlink(path, callback)] returns at once, and the thread pool
    removes the file while the program goes on: before the caller's next
    statement runs ([eager]), or at some later time, which [run_pending]
    stands for. *)
Definition unlink (path : string) : M unit :=
  emit (FsUnlink path);;
  e ← gets env;
  if eager e path then modify (complete_unlink path)
  else modify (set_pending (fun q => q ++ [path])).


End fs.

(** ** The credential vault

    The entry script calls three methods of its token manager
    ([storeToken], [hasToken], [clearAllTokens]); the specification adds
    [retrieveToken].  The handlers are written against this interface. *)

Record TokenManager : Type := mkTokenManager {
  storeToken : string -> JsValue -> M unit;
  retrieveToken : string -> M (option string);
  hasToken : string -> M bool;
  clearAllTokens : M unit
}.

Module SecureTokenManager.

(** The class [SecureTokenManager] (utils/tokenManager) is imported by the
    entry script and is not among the sources.  Its methods are modelled
    from the contract that section 4.2 of the specification gives it. *)

(** Modelled from the spec: the size of the "freshly generated nonce per
    call" of [storeToken], which is missing; the specification suggests
    random 96-bit nonces. *)
Definition nonce_size : nat := 12.

(** Modelled from the spec: the plaintext that [storeToken], which is
    missing, seals.  The contract gives it a string; it says nothing of a
    value that is not a string, which the environment decides ([coerce]). *)
Definition as_plaintext (w : World) (v : JsValue) : Coerced :=
  match v with
  | Some (Json.Str s) => Store s
  | _ => coerce (env w) v
  end.

(** Modelled from the spec: [storeToken(name, plaintext)], which is missing.
    It "encrypts plaintext under the DerivedKey with a freshly generated
    nonce per call, writes ciphertext+nonce+tag atomically to the entry's
    storage slot (overwriting any prior value for that name)" and "fails
    with VaultWriteError on I/O failure". *)
Definition store (key name : string) (v : JsValue) : M unit :=
  emit (StoreToken name);;
  w ← gets id;
  match as_plaintext w v with
  | Reject => throw (TypeError "The plaintext must be a string")
  | Ignore => mret tt
  | Store p =>
      if fails (env w) OpStore name then throw (VaultError "write" name)
      else
        n ← crypto.draw nonce_size;
        modify (set_vault (fun v => <[name := mkSealed key n p]> v))
  end.

(** Modelled from the spec: [hasToken(name)], which is missing: "existence
    check only; must not require successful decryption". *)
Definition has (name : string) : M bool :=
  gets (fun w => bool_decide (is_Some (vault w !! name))).

(** Modelled from the spec: [retrieveToken(name)], which is missing:
    "decrypts; fails with VaultDecryptError distinctly from NotFound".  The
    result [None] is NotFound. *)
Definition retrieve (key name : string) : M (option string) :=
  w ← gets id;
  match vault w !! name with
  | None => mret None
  | Some s =>
      if bool_decide (sealed_key s = key) then mret (Some (plaintext s))
      else throw (VaultError "decrypt" name)
  end.

(** Modelled from the spec: the entries whose storage [clearAllTokens],
    which is missing, cannot delete: "logout correctness matters more than
    file cleanliness". *)
Definition undeleted (w : World) : list string :=
  filter (fun name => fails (env w) OpDelete name = true) (fst <$> map_to_list (vault w)).

(** Modelled from the spec: [clearAllTokens()], which is missing:
    "best-effort deletion of every entry; must not fail the overall logout
    flow if an individual deletion fails (log and continue)", and
    "[clearAllTokens()] followed by [hasToken(N)] is false for every N that
    existed before": a deletion that fails is logged, and no entry is
    present afterwards. *)
Definition clear : M unit :=
  emit ClearAllTokens;;
  w ← gets id;
  modify (set_trace (fun t =>
    t ++ ((fun name => ConsoleError "Failed to clear token" (VaultError "delete" name))
          <$> undeleted w)));;
  modify (set_vault (fun _ => ∅)).

(** Modelled from the spec: [new SecureTokenManager(derivedKey)], which is
    missing: the vault is "constructed with one DerivedKey for its
    lifetime". *)
Definition new (derivedKey : string) : TokenManager :=
  mkTokenManager (store derivedKey) (retrieve derivedKey) has clear.

End SecureTokenManager.

(** ** utils/masterKeyManager *)

Module Js.

Definition is_ascii_space (b : Z) : bool :=
  bool_decide (b ∈ [9; 10; 11; 12; 13; 32]).

(** The white space and line terminators of ECMAScript beyond ASCII, in
    UTF-8: U+00A0; U+1680, U+2000..U+200A, U+2028, U+2029, U+202F, U+205F,
    U+3000 and U+FEFF. *)
Definition is_space2 (a b : Z) : bool := (a =? 0xC2) && (b =? 0xA0).
Definition is_space3 (a b c : Z) : bool :=
  (a =? 0xE1) && (b =? 0x9A) && (c =? 0x80)
  || (a =? 0xE2) && (b =? 0x80)
     && ((0x80 <=? c) && (c <=? 0x8A) || (c =? 0xA8) || (c =? 0xA9) || (c =? 0xAF))
  || (a =? 0xE2) && (b =? 0x81) && (c =? 0x9F)
  || (a =? 0xE3) && (b =? 0x80) && (c =? 0x80)
  || (a =? 0xEF) && (b =? 0xBB) && (c =? 0xBF).

(** Removes the white space at the head of [l]; with [backwards], [l] is
    a text read from its end. *)
Fixpoint strip (backwards : bool) (l : list Z) : list Z :=
  match l with
  | [] => []
  | a :: r =>
      if is_ascii_space a then strip backwards r
      else
        match r with
        | [] => l
        | b :: r2 =>
            if (if backwards then is_space2 b a else is_space2 a b) then strip backwards r2
            else
              match r2 with
              | [] => l
              | c :: r3 =>
                  if (if backwards then is_space3 c b a else is_space3 a b c)
                  then strip backwards r3
                  else l
              end
        end
  end.

(** [String.prototype.trim] *)
Definition trim (s : string) : string :=
  Bytes.to_string (rev (strip true (rev (strip false (Bytes.of_string s))))).

(** [x || y] on an optional string: [undefined] and the empty string are
    falsy. *)
Definition or_else (x : option string) (y : string) : string :=
  match x with
  | Some s => if bool_decide (s = "") then y else s
  | None => y
  end.

(** The truthiness of a string that may be [undefined] or [null]. *)
Definition truthy (x : option string) : bool :=
  match x with
  | Some s => negb (bool_decide (s = ""))
  | None => false
  end.

End Js.

Module SecureMasterKeyManager.

Definition KEY_FILE_NAME : string := "app-secret.key".

(** The mode [0o600]: read and write for the owner, nothing for others. *)
Definition mode_0o600 : Z := 6 * 8 * 8.

(** [generateMasterKey(length = 64)] *)
Definition generateMasterKey (length : option JsNumber) : M string :=
  bs ← crypto.randomBytes (default (integer 64) length);
  mret (Bytes.hex bs).

Definition getPersistentMasterKey : M string :=
  userDataPath ← gets (fun w => userData (env w));
  let keyFilePath := path_join userDataPath KEY_FILE_NAME in
  try_catch
    (present ← fs.existsSync keyFilePath;
     if present : bool then
       content ← fs.readFileSync keyFilePath;
       mret (Js.trim content)
     else
       newMasterKey ← generateMasterKey None;
       fs.mkdirSync userDataPath;;
       fs.writeFileSync keyFilePath newMasterKey mode_0o600;;
       mret newMasterKey)
    (fun error =>
       console.error "Failed to manage master key:" error;;
       throw (Error "Could not generate or retrieve master key")).

Definition deriveMasterKey (masterKey : string) (salt : option string) : M string :=
  let finalSalt := Js.or_else salt "default-app-salt" in
  let iterations := 100000%N in
  let keyLength := 64%nat in
  mret (Bytes.hex (crypto.pbkdf2Sync masterKey finalSalt iterations keyLength)).

End SecureMasterKeyManager.

(** ** The entry script of the main process *)

Module Main.

Definition AUTH_FAILED : string :=
  "Something went wrong, unable to authenticate. Please try again.".

(** [value.name] on a value that [JSON.parse] returned: reading a property
    of [null] throws; a value that is not an object has none of the
    properties read here. *)
Definition get_property (v : Json.value) (name : string) : M JsValue :=
  match v with
  | Json.Null =>
      throw (TypeError ("Cannot read properties of null (reading '" +:+ name +:+ "')"))
  | Json.Object members => mret (Json.lookup_member name members)
  | _ => mret None
  end.

(** [JSON.stringify] of an object literal: a property whose value is
    [undefined] is left out. *)
Definition stringify_object (platform : string -> string) (props : list (string * JsValue))
    : string :=
  Json.stringify platform (Json.Object (omap (fun p => pair (fst p) <$> snd p) props)).

(** [if (x) { yes } else { no }] on a string that may be absent. *)
Definition if_truthy {A} (x : option string) (yes : string -> A) (no : A) : A :=
  if Js.truthy x then yes (default "" x) else no.

(** [mainWindow.restore()] and [mainWindow.focus()] *)
Definition window_restore : M unit :=
  emit WindowRestore;;
  modify (set_mainWindow (fmap (fun win => mkWindow false (focused win) (loads win)))).

Definition window_focus : M unit :=
  emit WindowFocus;;
  modify (set_mainWindow (fmap (fun win => mkWindow (minimized win) true (loads win)))).

(** [mainWindow?.reload()] *)
Definition window_reload : M unit :=
  win ← gets mainWindow;
  match win with
  | Some _ =>
      emit WindowReload;;
      modify (set_mainWindow
                (fmap (fun win => mkWindow (minimized win) (focused win) (S (loads win)))))
  | None => mret tt
  end.

(** [initWindow]: the window is created by [createMainWindow] and the
    handlers that need it are registered. *)
Definition initWindow : M unit :=
  emit WindowCreate;;
  modify (set_mainWindow (fun _ => Some (mkWindow false true 1)));;
  emit (RegisterHandlers "window").

(** [app.quit()] and [app.requestSingleInstanceLock()] *)
Definition app_quit : M unit :=
  emit AppQuit;;
  modify (set_quitting true).

Definition requestSingleInstanceLock : M bool :=
  emit RequestLock;;
  gets (fun w => negb (lock_taken (env w))).

Section Handlers.

Variable tokenManager : TokenManager.

(** The block under the comment "Storing user-info": the profile is
    built from the payload and written to user-info.json. *)
Definition storing_user_info (authData : Json.value) : M unit :=
  userDataPath ← gets (fun w => userData (env w));
  displayName ← get_property authData "displayName";
  email ← get_property authData "email";
  photoUrl ← get_property authData "photoUrl";
  userInfoJson ←
    gets (fun w =>
            stringify_object (number_text (env w))
              [("displayName", displayName); ("email", email);
               ("bio", Some (Json.Str "")); ("photoURL", photoUrl)]);
  fs.writeFileSync (path_join userDataPath "user-info.json") userInfoJson fs.mode_0o666.

(** The block under the comment "Storing TOKEN": one [try] around the
    three stores and the reload, one [catch] that logs. *)
Definition storing_token (authData : Json.value) : M unit :=
  try_catch
    (idToken ← get_property authData "idToken";
     storeToken tokenManager "idToken" idToken;;
     refreshToken ← get_property authData "refreshToken";
     storeToken tokenManager "refreshToken" refreshToken;;
     webApiKey ← get_property authData "webApiKey";
     storeToken tokenManager "webApiKey" webApiKey;;
     window_reload)
    (fun error => console.error "Token handling error:" error).

Definition parseAuthDataFromUrl (url : string) : M unit :=
  hosts ← gets (fun w => parses_host (env w));
  urlObj ← or_throw (TypeError "Invalid URL") (Url.parse hosts url);
  let encodedData := Url.search_params_get urlObj "data" in
  if_truthy encodedData
    (fun encodedData =>
       decoded ← or_throw (URIError "URI malformed") (Url.decodeURIComponent encodedData);
       authData ← or_throw (SyntaxError "Unexpected token in JSON") (Json.parse decoded);
       storing_user_info authData;;
       storing_token authData)
    (dialog.showErrorBox "Error" AUTH_FAILED).



(** [app.on("second-instance", (_, commandLine) => ...)] *)
Definition second_instance (commandLine : list string) : M unit :=
  win ← gets mainWindow;
  match win with
  | Some win => when (minimized win) window_restore;; window_focus
  | None => mret tt
  end;;
  let url := last commandLine in      (* [commandLine.pop()] *)
  if_truthy url
    (fun url => parseAuthDataFromUrl url)
    (dialog.showErrorBox "Error" AUTH_FAILED).

(** [app.on("open-url", (event, url) => ...)] *)
Definition open_url (url : string) : M unit :=
  emit PreventDefault;;
  parseAuthDataFromUrl url.

End Handlers.

(** [app.on("window-all-closed", ...)] *)
Definition window_all_closed : M unit :=
  pf ← gets (fun w => platform (env w));
  if bool_decide (pf ≠ "darwin")
  then app_quit;; modify (set_mainWindow (fun _ => None))
  else mret tt.

(** What the script leaves behind for its event handlers. *)
Record Process : Type := mkProcess {
  tokenManager : TokenManager;
  gotTheLock : bool
}.

Section Script.

(** [new SecureTokenManager(derivedKey)], from utils/tokenManager. *)
Variable newTokenManager : string -> TokenManager.

(** The statements of the module in the order in which they run. *)
Definition main : M Process :=
  (* Register IPC Handlers *)
  emit (RegisterHandlers "user");;
  emit (RegisterHandlers "file");;
  emit (RegisterHandlers "ai");;
  emit (RegisterHandlers "settings");;
  emit (AppOn "window-all-closed");;
  emit (AppOn "activate");;
  (* Authentication (using Deep Link) *)
  masterKey ← SecureMasterKeyManager.getPersistentMasterKey;
  derivedKey ← SecureMasterKeyManager.deriveMasterKey masterKey None;
  let tokenManager := newTokenManager derivedKey in
  emit (IpcHandle "check-auth");;
  emit (IpcHandle "logout");;
  (* Registering app's custom protocol; [script] is [process.argv[1]], which
     the program passes through [path.resolve] *)
  w ← gets id;
  (if defaultApp (env w) then
     match argv (env w) with
     | _ :: script :: _ =>
         emit (SetProtocolClient "pinac-workspace" [execPath (env w); script])
     | _ => mret tt
     end
   else emit (SetProtocolClient "pinac-workspace" []));;
  (* [app.whenReady().then(...)]: [initWindow] will run when the app is ready *)
  emit AppWhenReady;;
  (* for Windows and Linux *)
  gotTheLock ← requestSingleInstanceLock;
  (if negb gotTheLock then app_quit
   else emit (AppOn "second-instance"));;
  (* for MacOS *)
  emit (AppOn "open-url");;
  mret (mkProcess tokenManager gotTheLock).

End Script.

End Main.

(** ** Names used in the statements *)

(** The master-key file and the profile file of a world. *)
Definition keyFilePath (w : World) : string :=
  path_join (userData (env w)) SecureMasterKeyManager.KEY_FILE_NAME.

Definition profilePath (w : World) : string :=
  path_join (userData (env w)) "user-info.json".

(** The disk takes the whole of [content] at [path]. *)
Definition takes (e : Env) (path content : string) : Prop :=
  (default (String.length content) (space e path) <? String.length content)%nat = false.

(** The error that [getPersistentMasterKey] throws; the program has no class
    of its own for it. *)
Definition KeyStorageError : Exn := Error "Could not generate or retrieve master key".

(** The key that [generateMasterKey] makes of the next 64 random bytes. *)
Definition fresh_key (w : World) : string :=
  Bytes.hex ((fun i => entropy (env w) i mod 256) <$> seq (drawn w) 64).

(** The master key can be neither read nor made: the key file is there and
    cannot be read; or there is none, and the key path is a directory, or
    the data directory cannot be made (the system refuses, or a file is in
    its place), or the key file cannot be opened for writing, or the disk
    fills up while the key is written. *)
Definition key_unavailable (w : World) : Prop :=
  let key := keyFilePath w in
  let dir := userData (env w) in
  match files w !! key with
  | Some _ => fails (env w) OpRead key = true
  | None =>
      key ∈ dirs w \/
      fails (env w) OpMkdir dir = true \/
      is_Some (files w !! dir) \/
      fails (env w) OpWrite key = true \/
      ~ takes (env w) key (fresh_key w)
  end.

(** A world with one more event in its trace. *)
Definition traced (e : Event) (w : World) : World :=
  set_trace (fun t => t ++ [e]) w.

(** The world after the registrations that open the entry script. *)
Definition booted (w : World) : World :=
  traced (AppOn "activate")
    (traced (AppOn "window-all-closed")
       (traced (RegisterHandlers "settings")
          (traced (RegisterHandlers "ai")
             (traced (RegisterHandlers "file") (traced (RegisterHandlers "user") w))))).

(** The key derived from a master key with the default salt. *)
Definition derived (masterKey : string) : string :=
  Bytes.hex (crypto.pbkdf2Sync masterKey "default-app-salt" 100000 64).

(** The registration of the protocol, which depends on how the process was
    started. *)
Definition protocol_events (e : Env) : list Event :=
  if defaultApp e then
    match argv e with
    | _ :: script :: _ => [SetProtocolClient "pinac-workspace" [execPath e; script]]
    | _ => []
    end
  else [SetProtocolClient "pinac-workspace" []].

(** The world after the rest of the entry script, from the world in which
    the master key was obtained. *)
Definition launched (w : World) : World :=
  let w2 := traced (IpcHandle "logout") (traced (IpcHandle "check-auth") w) in
  let w3 := fold_left (fun w e => traced e w) (protocol_events (env w)) w2 in
  let w4 := traced RequestLock (traced AppWhenReady w3) in
  let w5 := if lock_taken (env w)
            then set_quitting true (traced AppQuit w4)
            else traced (AppOn "second-instance") w4 in
  traced (AppOn "open-url") w5.

(** A Linux installation whose data directory is /data: nothing is refused,
    the disk has room, removals wait for the event loop, no other instance
    runs, the entropy is a counter, and the vault rejects a plaintext that
    is not a string.  The runs on this installation have no host and no
    number that is left to the platform: its two answers are never
    consulted. *)
Definition sample_env : Env :=
  mkEnv "/data" (fun _ _ => false) (fun _ => None) (fun _ => false)
    (fun n => Z.of_nat n) false false
    ["/opt/app/app"] "/opt/app/app" "linux" (fun _ _ => false) (fun lexeme => lexeme)
    (fun _ => Reject).

Definition fresh_world : World :=
  mkWorld sample_env ∅ ∅ 0 ∅ None [] false [].

(** The same installation after a first run: the key file exists. *)
Definition installed_world : World :=
  set_dirs (fun _ => {["/data"]})
    (set_files (fun _ => {["/data/app-secret.key" :=
                             mkFile (String (Bytes.to_ascii 10) "00ff" +:+ " ") 384]})
       fresh_world).

(** An installation on which a file is in the place of the data directory,
    and one on which a directory is in the place of the key file. *)
Definition data_directory_is_file (w : World) : World :=
  set_files (fun fm => <[userData (env w) := mkFile "" fs.mode_0o666]> fm) w.

Definition key_path_is_directory (w : World) : World :=
  set_dirs (fun d => {[keyFilePath w]} ∪ ({[userData (env w)]} ∪ d)) w.

(** The same installations while another instance holds the lock. *)
Definition lock_held (w : World) : World :=
  let e := env w in
  mkWorld
    (mkEnv (userData e) (fails e) (space e) (eager e) (entropy e) true (defaultApp e)
       (argv e) (execPath e) (platform e) (parses_host e) (number_text e) (coerce e))
    (files w) (dirs w) (drawn w) (vault w) (mainWindow w) (pending w) (quitting w) (trace w).

(** An installation on which the system refuses the operation [op] on
    [path]. *)
Definition refusing (op : IoOp) (path : string) (w : World) : World :=
  let e := env w in
  mkWorld
    (mkEnv (userData e)
       (fun o p => match o, op with
                   | OpRead, OpRead | OpWrite, OpWrite | OpMkdir, OpMkdir
                   | OpUnlink, OpUnlink | OpStore, OpStore | OpDelete, OpDelete =>
                       bool_decide (p = path) || fails e o p
                   | _, _ => fails e o p
                   end)
       (space e) (eager e) (entropy e) (lock_taken e) (defaultApp e) (argv e) (execPath e)
       (platform e) (parses_host e) (number_text e) (coerce e))
    (files w) (dirs w) (drawn w) (vault w) (mainWindow w) (pending w) (quitting w) (trace w).

(** Callback URLs: a string that is no URL; a URL without [data]; a URL
    whose [data] is no JSON text; a URL with the three secrets. *)
Definition not_a_url : string := "not a uri".
Definition url_without_data : string := "appname://auth?state=1".
Definition url_with_bad_json : string := "appname://auth?data=%7Bnot-json".
Definition url_with_three_tokens : string :=
  "appname://auth?data=%7B%22idToken%22%3A%22a%22%2C%22refreshToken%22%3A%22b%22%2C%22webApiKey%22%3A%22c%22%7D".

(** A callback whose payload is the JSON text of a display name with a
    percent sign in it. *)
Definition url_with_percent : string :=
  "appname://auth?data=%7B%22displayName%22%3A%22100%25%22%7D".

(** The world in which the [catch] of the token block has logged [e]. *)
Definition token_error_logged (e : Exn) (w : World) : World :=
  traced (ConsoleError "Token handling error:" e) w.

(** The names of the secrets that a run tried to store, in order. *)
Definition stores_attempted (t : list Event) : list string :=
  omap (fun e => match e with StoreToken name => Some name | _ => None end) t.

(** The claim that a failed store does not end the token step: every one of
    the three secrets is attempted. *)
Definition attempts_every_store (t : list Event) : Prop :=
  stores_attempted t = ["idToken"; "refreshToken"; "webApiKey"].

(** The world after the window block of the [second-instance] handler: a
    minimized window is restored, the window is focused. *)
Definition window_raised (w : World) : World :=
  match mainWindow w with
  | Some win =>
      let w1 := if minimized win
                then set_mainWindow
                       (fmap (fun win => mkWindow false (focused win) (loads win)))
                       (traced WindowRestore w)
                else w in
      set_mainWindow (fmap (fun win => mkWindow (minimized win) true (loads win)))
        (traced WindowFocus w1)
  | None => w
  end.

Definition is_window_event (e : Event) : bool :=
  match e with
  | WindowRestore | WindowFocus => true
  | _ => false
  end.

(** The order that the specification gives to the [second-instance]
    handler: whatever the callback handler does comes before the window is
    focused. *)
Definition callback_then_window (t : list Event) : Prop :=
  forall i j e,
    t !! i = Some WindowFocus -> t !! j = Some e -> is_window_event e = false ->
    (j < i)%nat.

(** An installation with a session: a profile, an identity token under the
    key "k", and a minimized window. *)
Definition logged_in_world : World :=
  set_mainWindow (fun _ => Some (mkWindow true false 1))
    (set_vault (fun _ => {["idToken" := mkSealed "k" [1; 2; 3] "abc"]})
       (set_files (fun fm => <["/data/user-info.json" := mkFile "{}" 438]> fm)
          installed_world)).


(** The display name of the profile on disk. *)
Definition profile_displayName (w : World) : option Json.value :=
  f ← files w !! profilePath w;
  v ← Json.parse (data f);
  match v with
  | Json.Object members => Json.lookup_member "displayName" members
  | _ => None
  end.

(** A lower-case hexadecimal digit. *)
Definition is_lower_hex (c : ascii) : bool :=
  let n := Bytes.of_ascii c in
  ((48 <=? n) && (n <=? 57)) || ((97 <=? n) && (n <=? 102)).

(** A byte of ASCII text that is no white space. *)
Definition is_plain_byte (b : Z) : Prop :=
  0 <= b < 128 /\ Js.is_ascii_space b = false.

(** The registration of the custom protocol. *)
Definition is_protocol_event (e : Event) : bool :=
  match e with
  | SetProtocolClient _ _ => true
  | _ => false
  end.

(** The events that [getPersistentMasterKey] can add to the trace. *)
Definition is_key_storage_event (e : Event) : bool :=
  match e with
  | FsMkdir _ | FsWriteFile _ | ConsoleError _ _ => true
  | _ => false
  end.

(** What a run has added to the trace of the world [w] in which it
    started. *)
Definition added (w w' : World) : list Event := drop (length (trace w)) (trace w').

(** [value.name] on a value that is not [null]. *)
Definition property (v : Json.value) (name : string) : JsValue :=
  match v with
  | Json.Object members => Json.lookup_member name members
  | _ => None
  end.

(** The profile that the callback handler builds from its payload. *)
Definition profile_of (w : World) (authData : Json.value) : string :=
  Main.stringify_object (number_text (env w))
    [("displayName", property authData "displayName"); ("email", property authData "email");
     ("bio", Some (Json.Str "")); ("photoURL", property authData "photoUrl")].

(** The world in which the profile of the payload has been written. *)
Definition profile_written (authData : Json.value) (w : World) : World :=
  set_files
    (fun fm => <[profilePath w :=
                   mkFile (profile_of w authData)
                     (from_option mode fs.mode_0o666 (fm !! profilePath w))]> fm)
    (traced (FsWriteFile (profilePath w)) w).

(** The profile can be written with [content]: the system does not refuse
    to open the file, its directory is there, no directory is in its
    place, and the disk takes the content. *)
Definition profile_writable (w : World) (content : string) : Prop :=
  fails (env w) OpWrite (profilePath w) = false /\
  fs.parent_error (profilePath w) w = None /\
  (profilePath w ∉ dirs w) /\
  takes (env w) (profilePath w) content.

(** Callbacks whose payload is the JSON text [null], and the JSON text [5]. *)
Definition url_with_null : string := "appname://auth?data=null".
Definition url_with_number : string := "appname://auth?data=5".

(** The payload that the callback handler reads from a URL, when it gets as
    far as its two blocks: the [data] parameter is there and not empty, it
    can be decoded, and what it decodes to is a JSON text. *)
Definition payload (w : World) (url : string) : option Json.value :=
  urlObj ← Url.parse (parses_host (env w)) url;
  encodedData ← Url.search_params_get urlObj "data";
  if bool_decide (encodedData = "") then None
  else decoded ← Url.decodeURIComponent encodedData; Json.parse decoded.

(** ** The attachment context of the renderer (contexts/Attachment)

    Strings are the UTF-8 bytes of the text.  The characters that
    [parseFilePath] looks for ([/], [\] and [.]) are ASCII, and an ASCII
    byte never is part of the encoding of another character: splitting the
    bytes gives the bytes of the parts. *)

Module Attachment.

Record FileAttachment : Type := mkFileAttachment {
  name : string;
  path : string;
  extension : string;
  nameWithoutExtension : string
}.

(** The characters that the regular expression [[/\\]] matches. *)
Definition is_separator (c : ascii) : bool :=
  (c =? "/")%char || (c =? "\")%char.

(** [s.split(/[/\\]/)]: the text between the separators, in order; a text
    without separator, also the empty one, has one part. *)
Fixpoint split (s : string) : list string :=
  match s with
  | EmptyString => [""]
  | String c r =>
      if is_separator c then "" :: split r
      else match split r with
           | part :: parts => String c part :: parts
           | [] => [String c ""]
           end
  end.

(** [s.lastIndexOf(c)] for a text [c] of one character: [-1] when [c]
    does not occur. *)
Fixpoint lastIndexOf (c : ascii) (s : string) : Z :=
  match s with
  | EmptyString => -1
  | String a r =>
      let i := lastIndexOf c r in
      if 0 <=? i then i + 1 else if (a =? c)%char then 0 else -1
  end.

(** [s.substring(start, end)] and, with no [end], [s.substring(start)]:
    both indices are clamped to the text and swapped when out of order. *)
Definition substring (s : string) (start : Z) (end_ : option Z) : string :=
  let len := Z.of_nat (String.length s) in
  let clamp x := Z.min (Z.max x 0) len in
  let a := clamp start in
  let b := from_option clamp len end_ in
  String.substring (Z.to_nat (Z.min a b)) (Z.to_nat (Z.max a b - Z.min a b)) s.

(** Extract file details from full file path *)
Definition parseFilePath (filePath : string) : FileAttachment :=
  let parts := split filePath in
  let fileNameWithExtension := Js.or_else (last parts) "" in
  let lastDotIndex := lastIndexOf "." fileNameWithExtension in
  let nameWithoutExtension :=
    if 0 <? lastDotIndex
    then substring fileNameWithExtension 0 (Some lastDotIndex)
    else fileNameWithExtension in
  let extension :=
    if 0 <? lastDotIndex
    then substring fileNameWithExtension (lastDotIndex + 1) None
    else "" in
  {| name := fileNameWithExtension;
     path := filePath;
     extension := extension;
     nameWithoutExtension := nameWithoutExtension |}.

(** The state of [AttachmentProvider]. *)
Record State : Type := mkState {
  attachment : option FileAttachment;
  isAttachmentUsed : bool
}.

Definition initial : State := mkState None false.

Definition setAttachment (file : option FileAttachment) (s : State) : State :=
  mkState file false.

Definition setAttachmentFromPath (filePath : string) (s : State) : State :=
  let fileDetails := parseFilePath filePath in
  mkState (Some fileDetails) false.

Definition markAttachmentAsUsed (s : State) : State :=
  mkState (attachment s) true.

Definition clearAttachment (s : State) : State :=
  mkState None false.

(** The calls that the context offers to its consumers. *)
Inductive Call : Type :=
| SetAttachment (file : option FileAttachment)
| SetAttachmentFromPath (filePath : string)
| MarkAttachmentAsUsed
| ClearAttachment.

Definition call (s : State) (c : Call) : State :=
  match c with
  | SetAttachment file => setAttachment file s
  | SetAttachmentFromPath filePath => setAttachmentFromPath filePath s
  | MarkAttachmentAsUsed => markAttachmentAsUsed s
  | ClearAttachment => clearAttachment s
  end.

(** The state after a sequence of calls. *)
Definition calls (cs : list Call) (s : State) : State := fold_left call cs s.

End Attachment.

(** The characters of a text; a text without separator, without dot. *)
Definition chars (s : string) : list ascii := list_ascii_of_string s.

Definition no_separator (s : string) : Prop :=
  Forall (fun c => Attachment.is_separator c = false) (chars s).

Definition no_dot (s : string) : Prop := "."%char ∉ chars s.

(** ** The chat context of the renderer (contexts/Chat)

    A message is an object; the type [UIMessage] is declared elsewhere, and
    the context reads no property of a message but [id].  A property may be
    there with the value [undefined]. *)

Module Chat.

Abbreviation UIMessage := (gmap string JsValue).

(** The state of [ChatProvider]: the three values of [useState] and the
    counter that [messageCounterRef] holds. *)
Record State : Type := mkState {
  messages : list UIMessage;
  sessionId : option string;
  isStreaming : bool;
  messageCounter : N
}.

Definition initial : State := mkState [] None false 0.

(** An integer in a template literal: its decimal digits, after a minus
    sign when it is negative. *)
Definition decimal (n : Z) : string := NilZero.string_of_int (Z.to_int n).

(** [`msg_${now}_${counter}`] *)
Definition message_id (now : Z) (counter : N) : string :=
  "msg_" +:+ decimal now +:+ "_" +:+ decimal (Z.of_N counter).

(** [addMessage(message)].  The object literal reads the clock twice:
    [now_id] and [now_stamp] are what [Date.now()] returned for the id and
    for the time stamp.  The counter is incremented when the id is made; it
    is a natural number, as the counter of the program is below 2^53. *)
Definition addMessage (now_id now_stamp : Z) (message : UIMessage) (s : State)
    : UIMessage * State :=
  let newMessage : UIMessage :=
    <["timestamp" := Some (Json.Number (decimal now_stamp))]>
      (<["id" := Some (Json.Str (message_id now_id (messageCounter s)))]> message) in
  (newMessage,
   mkState (messages s ++ [newMessage]) (sessionId s) (isStreaming s) (messageCounter s + 1)).

(** [msg.id] *)
Definition id_of (msg : UIMessage) : JsValue := default None (msg !! "id").

(** [msg.id === id] for a string [id] *)
Definition has_id (id : string) (msg : UIMessage) : bool :=
  match id_of msg with
  | Some (Json.Str s) => bool_decide (s = id)
  | _ => false
  end.

(** [updateMessage(id, updates)]: in [{ ...msg, ...updates }] a property of
    [updates] replaces the one of [msg]. *)
Definition updateMessage (id : string) (updates : UIMessage) (s : State) : State :=
  mkState ((fun msg => if has_id id msg then updates ∪ msg else msg) <$> messages s)
    (sessionId s) (isStreaming s) (messageCounter s).

Definition clearMessages (s : State) : State :=
  mkState [] (sessionId s) (isStreaming s) 0.

Definition setSessionId (id : option string) (s : State) : State :=
  mkState (messages s) id (isStreaming s) (messageCounter s).

Definition setIsStreaming (streaming : bool) (s : State) : State :=
  mkState (messages s) (sessionId s) streaming (messageCounter s).

(** The calls that the context offers to its consumers. *)
Inductive Call : Type :=
| AddMessage (now_id now_stamp : Z) (message : UIMessage)
| UpdateMessage (id : string) (updates : UIMessage)
| ClearMessages
| SetSessionId (id : option string)
| SetIsStreaming (streaming : bool).

Definition call (s : State) (c : Call) : State :=
  match c with
  | AddMessage now_id now_stamp message => snd (addMessage now_id now_stamp message s)
  | UpdateMessage id updates => updateMessage id updates s
  | ClearMessages => clearMessages s
  | SetSessionId id => setSessionId id s
  | SetIsStreaming streaming => setIsStreaming streaming s
  end.

(** The state after a sequence of calls. *)
Definition calls (cs : list Call) (s : State) : State := fold_left call cs s.

End Chat.

(** A call that does not give a message another [id]: every call but an
    update whose [updates] have the property [id]. *)
Definition keeps_ids (c : Chat.Call) : Prop :=
  match c with
  | Chat.UpdateMessage _ updates => updates !! "id" = None
  | _ => True
  end.

(** A state of the chat context that such calls lead to. *)
Definition chat_reachable (s : Chat.State) : Prop :=
  exists cs, Forall keeps_ids cs /\ s = Chat.calls cs Chat.initial.

(** What the calls keep: the messages carry ids made from different
    values of the counter, all of them below the counter. *)
Definition issued (l : list (Z * N)) (s : Chat.State) : Prop :=
  Chat.id_of <$> Chat.messages s =
    (fun p => Some (Json.Str (Chat.message_id (fst p) (snd p)))) <$> l /\
  NoDup (snd <$> l) /\
  Forall (fun p => (snd p < Chat.messageCounter s)%N) l.

(** ** The model settings context of the renderer (contexts/LlmSettings) *)

Module ModelSettings.

(** [ModelConfig], and of a model that Ollama reports the one property
    that the context reads.  [ProviderConfig] has more properties; the
    context reads these two. *)
Record ModelConfig : Type := mkModelConfig {
  id : string;
  name : string;
  displayName : string
}.

Record OllamaModel : Type := mkOllamaModel { ollamaName : string }.

Record ProviderConfig : Type := mkProviderConfig {
  providerDisplayName : string;
  models : list ModelConfig
}.

(** What the context does besides changing its state. *)
Inductive Effect : Type :=
| ConsoleError (msg : string) (e : Exn)
| ConsoleWarn (msg : string)
| UpdateProviderModels (providerId : string) (models : list ModelConfig).

(** The state of [ModelSettingsProvider], and the effects so far. *)
Record State : Type := mkState {
  selectedProviderId : string;
  selectedModelId : string;
  providerSettings : gmap string (gmap string JsValue);
  ollamaModels : list ModelConfig;
  isLoadingOllamaModels : bool;
  ollamaError : option string;
  effects : list Effect
}.

Definition setSelectedProviderIdState (v : string) (s : State) : State :=
  mkState v (selectedModelId s) (providerSettings s) (ollamaModels s)
    (isLoadingOllamaModels s) (ollamaError s) (effects s).

Definition setSelectedModelIdState (v : string) (s : State) : State :=
  mkState (selectedProviderId s) v (providerSettings s) (ollamaModels s)
    (isLoadingOllamaModels s) (ollamaError s) (effects s).


Definition setOllamaModels (v : list ModelConfig) (s : State) : State :=
  mkState (selectedProviderId s) (selectedModelId s) (providerSettings s) v
    (isLoadingOllamaModels s) (ollamaError s) (effects s).

Definition setIsLoadingOllamaModels (v : bool) (s : State) : State :=
  mkState (selectedProviderId s) (selectedModelId s) (providerSettings s) (ollamaModels s)
    v (ollamaError s) (effects s).

Definition setOllamaError (v : option string) (s : State) : State :=
  mkState (selectedProviderId s) (selectedModelId s) (providerSettings s) (ollamaModels s)
    (isLoadingOllamaModels s) v (effects s).

Definition effect (e : Effect) (s : State) : State :=
  mkState (selectedProviderId s) (selectedModelId s) (providerSettings s) (ollamaModels s)
    (isLoadingOllamaModels s) (ollamaError s) (effects s ++ [e]).

(** How [window.ipcRenderer.invoke("get-ollama-models")] settles: with a
    list of models or with nothing ([null], [undefined]), or rejected. *)
Inductive Reply : Type :=
| Resolved (models : option (list OllamaModel))
| Rejected (error : Exn).

Definition NO_MODELS : string :=
  "No Ollama models found. Please download models using: ollama pull <model>".

Definition NOT_CONNECTED : string := "Failed to connect to Ollama. Is Ollama running?".

(** [modelConfigs.find((m) => m.id === selectedModelId)] *)
Definition find_model (modelId : string) (l : list ModelConfig) : option ModelConfig :=
  List.find (fun m => bool_decide (id m = modelId)) l.

(** [fetchOllamaModels], up to its [await]. *)
Definition fetch_begin (s : State) : State :=
  setOllamaError None (setIsLoadingOllamaModels true s).

(** [fetchOllamaModels], from the moment at which the [await] settles.
    [selectedProviderId] and [selectedModelId] are the values that the
    callback closed over, those of the render in which it was made. *)
Definition fetch_settle (selectedProviderId selectedModelId : string) (reply : Reply)
    (s : State) : State :=
  let finally := setIsLoadingOllamaModels false in
  match reply with
  | Resolved None | Resolved (Some []) =>
      finally
        (setIsLoadingOllamaModels false
           (effect (UpdateProviderModels "ollama" [])
              (setOllamaModels [] (setOllamaError (Some NO_MODELS) s))))
  | Resolved (Some models) =>
      (* Convert Ollama models to ModelConfig format *)
      let modelConfigs :=
        (fun model => mkModelConfig (ollamaName model) (ollamaName model) (ollamaName model))
          <$> models in
      let s1 := effect (UpdateProviderModels "ollama" modelConfigs)
                  (setOllamaModels modelConfigs s) in
      let s2 :=
        if bool_decide (selectedProviderId = "ollama") then
          match find_model selectedModelId modelConfigs, modelConfigs with
          | None, first :: _ =>
              (* Selected model doesn't exist, select the first available model *)
              setSelectedModelIdState (id first) s1
          | _, _ => s1
          end
        else s1 in
      finally s2
  | Rejected error =>
      finally
        (effect (UpdateProviderModels "ollama" [])
           (setOllamaModels []
              (setOllamaError (Some NOT_CONNECTED)
                 (effect (ConsoleError "Failed to fetch Ollama models:" error) s))))
  end.

(** [fetchOllamaModels] when nothing else changes the state while it
    waits. *)
Definition fetchOllamaModels (selectedProviderId selectedModelId : string) (reply : Reply)
    (s : State) : State :=
  fetch_settle selectedProviderId selectedModelId reply (fetch_begin s).

Definition setSelectedModel (modelId : string) (s : State) : State :=
  setSelectedModelIdState modelId s.



Definition getCurrentSettings (s : State) : gmap string JsValue :=
  default ∅ (providerSettings s !! selectedProviderId s).

Definition SELECTED_PROVIDER : string := "selected-provider-id".
Definition SELECTED_MODEL : string := "selected-model-id".

(** The two effects that store the selection in [localStorage] after a
    render. *)
Definition store_selection (s : State) (localStorage : gmap string string)
    : gmap string string :=
  <[SELECTED_MODEL := selectedModelId s]>
    (<[SELECTED_PROVIDER := selectedProviderId s]> localStorage).

Section Config.

(** From config/models: [MODEL_PROVIDERS[id]] for a provider id
    ([undefined] when the configuration has no such provider), and the
    defaults. *)
Variable MODEL_PROVIDERS : string -> option ProviderConfig.
Variable DEFAULT_PROVIDER_ID : string.
Variable DEFAULT_MODEL_ID : string.

(** The initial values of the selection, read from [localStorage]. *)
Definition initialSelectedProviderId (localStorage : gmap string string) : string :=
  let stored := localStorage !! SELECTED_PROVIDER in
  if Js.truthy stored && bool_decide (is_Some (MODEL_PROVIDERS (default "" stored)))
  then default "" stored
  else DEFAULT_PROVIDER_ID.

Definition initialSelectedModelId (localStorage : gmap string string) : string :=
  let stored := localStorage !! SELECTED_MODEL in
  (* Will be validated after models are loaded *)
  Js.or_else stored DEFAULT_MODEL_ID.

Definition setSelectedProvider (providerId : string) (s : State) : State :=
  match MODEL_PROVIDERS providerId with
  | None =>
      effect (ConsoleWarn ("Provider " +:+ providerId +:+ " not found in configuration")) s
  | Some provider =>
      let s1 := setSelectedProviderIdState providerId s in
      if bool_decide (providerId = "ollama") then
        (* For dynamic providers like Ollama, use the fetched models *)
        match ollamaModels s with
        | firstModel :: _ => setSelectedModelIdState (id firstModel) s1
        | [] => setSelectedModelIdState "" s1
        end
      else
        (* For static providers, use models from config *)
        match models provider with
        | firstModel :: _ => setSelectedModelIdState (id firstModel) s1
        | [] => setSelectedModelIdState "" s1
        end
  end.

Definition getCurrentProviderName (s : State) : string :=
  Js.or_else (providerDisplayName <$> MODEL_PROVIDERS (selectedProviderId s)) "Unknown".

Definition getCurrentModelName (s : State) : string :=
  (* For dynamic providers like Ollama, use the dynamic models *)
  if bool_decide (selectedProviderId s = "ollama") then
    if isLoadingOllamaModels s then "Loading..."
    else if Js.truthy (ollamaError s) then "Error loading models"
    else if bool_decide (length (ollamaModels s) = 0%nat) then "No models found"
    else
      let model := find_model (selectedModelId s) (ollamaModels s) in
      Js.or_else (displayName <$> model) "Select a model"
  else
    (* For static providers, use config *)
    match MODEL_PROVIDERS (selectedProviderId s) with
    | None => "Unknown"
    | Some provider =>
        let model := find_model (selectedModelId s) (models provider) in
        Js.or_else (displayName <$> model) "Select a model"
    end.

Definition getAvailableModels (providerId : string) (s : State) : list ModelConfig :=
  if bool_decide (providerId = "ollama") then ollamaModels s
  else from_option models [] (MODEL_PROVIDERS providerId).

End Config.

End ModelSettings.

(** The models that the context makes of the models of a reply, and a reply
    that brings at least one model. *)
Definition configs_of (reply : ModelSettings.Reply) : list ModelSettings.ModelConfig :=
  match reply with
  | ModelSettings.Resolved (Some models) =>
      (fun model =>
         ModelSettings.mkModelConfig (ModelSettings.ollamaName model)
           (ModelSettings.ollamaName model) (ModelSettings.ollamaName model)) <$> models
  | _ => []
  end.

Definition brings_models (reply : ModelSettings.Reply) : Prop :=
  exists model models, reply = ModelSettings.Resolved (Some (model :: models)).

(** A state of the context in which nothing is selected or loaded. *)
Definition blank_settings : ModelSettings.State :=
  ModelSettings.mkState "ollama" "" ∅ [] false None [].

(** * Properties *)

(** ** The platform model on known values *)

Example sha512_abc :
  Bytes.hex (Sha512.hash (Bytes.of_string "abc")) =
  "ddaf35a193617abacc417349ae20413112e6fa4e89a97ea20a9eeee64b55d39a2192992a274fc1a836ba3c23a3feebbd454d4423643ce80e2a9ac94fa54ca49f".
Proof. vm_compute. reflexivity. Qed.

Example sha512_empty :
  Bytes.hex (Sha512.hash []) =
  "cf83e1357eefb8bdf1542850d66d8007d620e4050b5715dc83f4a921d36ce9ce47d0d13c5d85f2b0ff8318d2877eec2f63b931bd47417a81a538327af927da3e".
Proof. vm_compute. reflexivity. Qed.

Example hmac_fox :
  Bytes.hex (Hmac.sha512 (Bytes.of_string "key")
               (Bytes.of_string "The quick brown fox jumps over the lazy dog")) =
  "b42af09057bac1e2d41708e48a902e09b5ff7f12ab428a4fe86653c73dd248fb82f948a549f7b791a5b41915ee4d1ec3935357e4e2317250d0372afa2ebeeb3a".
Proof. vm_compute. reflexivity. Qed.

Example pbkdf2_two_iterations :
  Bytes.hex (Pbkdf2.hmac_sha512 (Bytes.of_string "password") (Bytes.of_string "salt") 2 64) =
  "e1d9c16aa681708a45f5c7c4e215ceb66e011a2e9f0040713f18aefdb866d53cf76cab2868a39b9f7840edce4fef5a82be67335c77a6068e04112754f27ccf4e".
Proof. vm_compute. reflexivity. Qed.

Example pbkdf2_two_blocks :
  Bytes.hex (Pbkdf2.hmac_sha512 (Bytes.of_string "password") (Bytes.of_string "salt") 3 70) =
  "b6b07cb2cebf4ad84468391a543824fccffe0e0769dbe6bddf10a65673c4b648e612d44918f9ce9a19a1294cf5140628084ba994c3b21a4ef4741220b811c633cfc0641fccbc".
Proof. vm_compute. reflexivity. Qed.

Example json_parse_nested :
  Json.parse (Bytes.dq "{ 'a' : [1, -2.5e3, true, null], 'b': {'c': 'x\nA'}, 'a': 'z' }") =
  Some (Json.Object [("a", Json.Str "z");
                     ("b", Json.Object [("c", Json.Str (String (Bytes.to_ascii 120)
                                                (String (Bytes.to_ascii 10) "A")))])]).
Proof. vm_compute. reflexivity. Qed.

(** An object is enumerated with its array indices first; an integer is
    printed as it was written and [-0] as [0]; the platform prints the
    other numbers; a surrogate without its pair is printed as an escape. *)
Example json_stringify_order (platform : string -> string) :
  Json.stringify platform <$>
    Json.parse (Bytes.dq "{'b':1,'10':-0,'2':['\ud83d\ude00','\ud83d'],'01':0,'b':7}") =
  Some (Bytes.dq "{'2':['" +:+ Bytes.to_string [0xF0; 0x9F; 0x98; 0x80] +:+
        Bytes.dq "','\ud83d'],'10':0,'b':7,'01':0}").
Proof. vm_compute. reflexivity. Qed.

Example json_stringify_number (platform : string -> string) :
  Json.stringify platform <$> Json.parse "1e2" = Some (platform "1e2") /\
  Json.stringify platform <$> Json.parse "9007199254740993" =
    Some (platform "9007199254740993") /\
  Json.stringify platform <$> Json.parse "-9007199254740992" = Some "-9007199254740992" /\
  Json.stringify platform <$> Json.parse "-0" = Some "0".
Proof. repeat split; vm_compute; reflexivity. Qed.

Example url_parse_callback (hosts : bool -> string -> bool) :
  Url.parse hosts callback_url =
  Some (Url.mk "appname" "//auth"
          (Some "data=%7B%22displayName%22%3A%22Jane%22%2C%22idToken%22%3A%22abc%22%7D") None).
Proof. vm_compute. reflexivity. Qed.

Example url_get_data (hosts : bool -> string -> bool) :
  (u ← Url.parse hosts callback_url; Url.search_params_get u "data") =
  Some (Bytes.dq "{'displayName':'Jane','idToken':'abc'}").
Proof. vm_compute. reflexivity. Qed.

Example url_parse_not_a_uri (hosts : bool -> string -> bool) :
  Url.parse hosts "not a uri" = None.
Proof. vm_compute. reflexivity. Qed.

(** The platform decides on a host in brackets and on the domain of a
    special scheme; an opaque host is decided here. *)
Example url_parse_bracketed_host (hosts : bool -> string -> bool) :
  is_Some (Url.parse hosts "appname://[zz]?data=5") <-> hosts false "[zz]" = true.
Proof.
  assert (H : Url.parse hosts "appname://[zz]?data=5" =
              if hosts false "[zz]" then Some (Url.mk "appname" "//[zz]" (Some "data=5") None)
              else None) by (vm_compute; destruct (hosts false "[zz]"); reflexivity).
  rewrite H. destruct (hosts false "[zz]"); split; intros Hx; try reflexivity.
  - eexists. reflexivity.
  - destruct Hx as [x Hx]. discriminate Hx.
  - discriminate Hx.
Qed.

Example url_parse_special_host (hosts : bool -> string -> bool) :
  is_Some (Url.parse hosts "http://ex%61mple.com/?data=5") <->
  hosts true "ex%61mple.com" = true.
Proof.
  assert (H : Url.parse hosts "http://ex%61mple.com/?data=5" =
              if hosts true "ex%61mple.com"
              then Some (Url.mk "http" "//ex%61mple.com/" (Some "data=5") None)
              else None) by (vm_compute; destruct (hosts true "ex%61mple.com"); reflexivity).
  rewrite H. destruct (hosts true "ex%61mple.com"); split; intros Hx; try reflexivity.
  - eexists. reflexivity.
  - destruct Hx as [x Hx]. discriminate Hx.
  - discriminate Hx.
Qed.

Example url_parse_opaque_host (hosts : bool -> string -> bool) :
  Url.parse hosts "appname://a b?data=5" = None /\
  is_Some (Url.parse hosts "appname://ex%61mple?data=5").
Proof. split; [vm_compute; reflexivity | eexists; vm_compute; reflexivity]. Qed.

(** Bytes that are no UTF-8 come out of [searchParams] as U+FFFD. *)
Example search_params_replacement (hosts : bool -> string -> bool) :
  (u ← Url.parse hosts "appname://auth?data=%22%FF%E2%82%22";
   Url.search_params_get u "data") =
  Some (Bytes.to_string [34; 0xEF; 0xBF; 0xBD; 0xEF; 0xBF; 0xBD; 34]).
Proof. vm_compute. reflexivity. Qed.

(** ** The size of a derived key *)

Lemma hex_length (bs : list Z) : String.length (Bytes.hex bs) = (2 * length bs)%nat.
Proof. induction bs as [|b bs IH]; cbn [Bytes.hex String.length length]; [reflexivity | lia]. Qed.

Lemma be_length (n : nat) (x : Z) : length (Bytes.be n x) = n.
Proof. induction n as [|n IH]; cbn [Bytes.be length]; [reflexivity | now rewrite IH]. Qed.

Lemma xor_length (a b : list Z) : length a = length b -> length (Bytes.xor a b) = length a.
Proof.
  revert b. induction a as [|x a IH]; intros [|y b] H; cbn in *; try discriminate; try reflexivity.
  f_equal. apply IH. congruence.
Qed.

Lemma compress_length (h block : list Z) :
  length h = 8%nat -> length (Sha512.compress h block) = 8%nat.
Proof.
  intros H. unfold Sha512.compress. rewrite length_zip_with, H. reflexivity.
Qed.

(** A SHA-512 digest has 64 bytes. *)
Lemma sha512_length (msg : list Z) : length (Sha512.hash msg) = 64%nat.
Proof.
  unfold Sha512.hash.
  assert (H : forall blocks h, length h = 8%nat ->
                length (fold_left Sha512.compress blocks h) = 8%nat).
  { induction blocks as [|b blocks IH]; intros h Hh; cbn [fold_left]; [exact Hh|].
    apply IH, compress_length, Hh. }
  specialize (H (Bytes.chunks (S (length (Sha512.pad msg))) 128 (Sha512.pad msg))
                Sha512.H0 eq_refl).
  destruct (fold_left _ _ _) as [|a [|b [|c [|d [|e [|f [|g [|h [|]]]]]]]]];
    cbn in H; try discriminate.
  cbn [fmap list_fmap concat]. rewrite !length_app, !be_length. reflexivity.
Qed.

Lemma hmac_length (key msg : list Z) : length (Hmac.sha512 key msg) = 64%nat.
Proof. apply sha512_length. Qed.

Lemma pbkdf2_block_length (password salt : list Z) (c : N) (i : Z) :
  length (Pbkdf2.block Hmac.sha512 password salt c i) = 64%nat.
Proof.
  unfold Pbkdf2.block.
  set (step := fun '(acc, u) => let u' := Hmac.sha512 password u in (Bytes.xor acc u', u')).
  assert (H : forall n p, length (fst p) = 64%nat ->
                length (fst (N.iter n step p)) = 64%nat).
  { intros n. induction n as [|n IH] using N.peano_ind; intros p Hp; [exact Hp|].
    rewrite N.iter_succ. destruct (N.iter n step p) as [acc u] eqn:Hit.
    specialize (IH p Hp). rewrite Hit in IH. cbn [fst] in IH. cbn [step fst].
    rewrite xor_length; [exact IH | now rewrite IH, hmac_length]. }
  apply H. cbn [fst]. apply hmac_length.
Qed.

(** [pbkdf2Sync(..., 64, "sha512")] returns 64 bytes: a derived key is 128
    hexadecimal digits. *)
Lemma derived_key_length (masterKey salt : string) (iterations : N) :
  String.length (Bytes.hex (crypto.pbkdf2Sync masterKey salt iterations 64)) = 128%nat.
Proof.
  rewrite hex_length. unfold crypto.pbkdf2Sync, Pbkdf2.hmac_sha512, Pbkdf2.derive.
  change (Nat.div (64 + Sha512.out_size - 1) Sha512.out_size) with 1%nat.
  cbn [seq fmap list_fmap concat]. rewrite app_nil_r.
  rewrite length_take, pbkdf2_block_length. reflexivity.
Qed.

(** ** Reasoning about computations *)

Arguments path_join : simpl never.
Arguments Js.trim : simpl never.
Arguments Bytes.hex : simpl never.
Arguments crypto.pbkdf2Sync : simpl never.

(** The key derivation is never run inside a proof: 100000 rounds. *)
Opaque crypto.pbkdf2Sync.

(** Unfolds the monad and the platform calls, then reduces the projections
    of the worlds that they build. *)
Ltac msimpl :=
  lazy beta iota zeta delta
    [mbind M_bind mret M_ret try_catch gets modify emit throw or_throw when id traced
     console.error dialog.showErrorBox crypto.draw
     fs.existsSync fs.readFileSync fs.refused fs.mkdirSync fs.writeFileSync fs.unlink] in *;
  cbn [env files dirs drawn vault mainWindow pending quitting trace
       set_files set_dirs set_drawn set_vault set_mainWindow set_pending set_quitting
       set_trace orb andb negb] in *.

(** Replaces a [bool_decide] of the goal by its value, given the proof. *)
Ltac bd_false H :=
  match goal with
  | |- context [@bool_decide ?P ?d] =>
      replace (@bool_decide P d) with false
        by (symmetry; apply bool_decide_eq_false_2; exact H)
  end.

Ltac bd_true H :=
  match goal with
  | |- context [@bool_decide ?P ?d] =>
      replace (@bool_decide P d) with true
        by (symmetry; apply bool_decide_eq_true_2; exact H)
  end.

Lemma string_length_app (a b : string) :
  String.length (a +:+ b) = (String.length a + String.length b)%nat.
Proof. induction a as [|c a IH]; simpl; [reflexivity | now rewrite IH]. Qed.

Lemma path_join_neq_dir (dir name : string) : path_join dir name ≠ dir.
Proof.
  unfold path_join. intros H. apply (f_equal String.length) in H.
  rewrite !string_length_app in H. simpl in H. lia.
Qed.

Lemma not_is_Some_None {A} : ¬ is_Some (@None A).
Proof. intros [x Hx]. discriminate. Qed.

(** ** The master key *)

(** With the default length, [generateMasterKey] draws 64 bytes. *)
Lemma generateMasterKey_default :
  SecureMasterKeyManager.generateMasterKey None =
    (bs ← crypto.draw 64; mret (Bytes.hex bs)).
Proof. reflexivity. Qed.

(** The directory of a file that [path_join] put in a directory. *)
Lemma dirname_path_join (dir name : string) :
  fs.dirname name = None -> fs.dirname (path_join dir name) = Some dir.
Proof.
  intros Hname. unfold path_join. induction dir as [|c dir IH].
  - change ("" +:+ "/" +:+ name) with (String "/" name).
    cbn [fs.dirname]. rewrite Hname. reflexivity.
  - change (String c dir +:+ "/" +:+ name) with (String c (dir +:+ "/" +:+ name)).
    cbn [fs.dirname]. rewrite IH. reflexivity.
Qed.

Lemma parent_error_path_join (dir name : string) (w : World) :
  fs.dirname name = None -> dir ∈ dirs w -> fs.parent_error (path_join dir name) w = None.
Proof.
  intros Hname Hdir. unfold fs.parent_error. rewrite (dirname_path_join dir name Hname).
  rewrite (bool_decide_eq_true_2 (dir ∈ dirs w) Hdir). now rewrite orb_true_r.
Qed.

Section MasterKey.

Import SecureMasterKeyManager.

Variable w : World.

Let key := keyFilePath w.
Let dir := userData (env w).

Lemma getPersistentMasterKey_existing (f : File) :
  files w !! key = Some f ->
  fails (env w) OpRead key = false ->
  getPersistentMasterKey w = (Ok (Js.trim (data f)), w).
Proof.
  intros Hf Hr. subst key. unfold keyFilePath in *.
  unfold getPersistentMasterKey. msimpl.
  rewrite Hf. bd_true (mk_is_Some _ _ (eq_refl (Some f))). msimpl.
  rewrite Hr, Hf. reflexivity.
Qed.

Lemma getPersistentMasterKey_created :
  files w !! key = None -> key ∉ dirs w ->
  fails (env w) OpMkdir dir = false ->
  files w !! dir = None ->
  fails (env w) OpWrite key = false ->
  takes (env w) key (fresh_key w) ->
  getPersistentMasterKey w =
    (Ok (fresh_key w),
     set_files (fun fm => <[key := mkFile (fresh_key w) mode_0o600]> fm)
       (traced (FsWriteFile key)
          (set_dirs (fun d => {[dir]} ∪ d)
             (traced (FsMkdir dir) (set_drawn (fun d => (d + 64)%nat) w))))).
Proof.
  intros Hf Hd Hm Hu Hw Ht. subst key dir. unfold keyFilePath, takes, fresh_key in *.
  assert (Hd' : path_join (userData (env w)) KEY_FILE_NAME
                  ∉ ({[userData (env w)]} ∪ dirs w : gset string)).
  { intros [Hx | Hx]%elem_of_union; [|exact (Hd Hx)].
    apply elem_of_singleton in Hx. exact (path_join_neq_dir _ _ Hx). }
  unfold getPersistentMasterKey. rewrite generateMasterKey_default. msimpl.
  rewrite Hf. bd_false (@not_is_Some_None File). bd_false Hd. msimpl.
  rewrite Hm, Hu. bd_false (@not_is_Some_None File). msimpl.
  rewrite Hw, parent_error_path_join by (reflexivity || set_solver).
  bd_false Hd'. msimpl. rewrite Ht, Hf. reflexivity.
Qed.

End MasterKey.

(** A [try] whose [catch] logs and rethrows: what leaves it is the error of
    the [catch], and the cause was logged. *)
Lemma try_log_rethrow {A} (body : M A) (msg : string) (err : Exn) (w : World) :
  try_catch body (fun cause => console.error msg cause;; throw err) w =
  match body w with
  | (Ok a, w') => (Ok a, w')
  | (Throw cause, w') => (Throw err, traced (ConsoleError msg cause) w')
  end.
Proof. msimpl. destruct (body w) as [[a|cause] w']; reflexivity. Qed.

Lemma getPersistentMasterKey_throws_only (w : World) (e : Exn) (w' : World) :
  SecureMasterKeyManager.getPersistentMasterKey w = (Throw e, w') ->
  e = KeyStorageError /\
  exists cause, last (trace w') = Some (ConsoleError "Failed to manage master key:" cause).
Proof.
  unfold SecureMasterKeyManager.getPersistentMasterKey.
  change (gets (fun w0 => userData (env w0)) ≫= ?k) with (fun w0 : World => k (userData (env w0)) w0).
  cbv beta. rewrite try_log_rethrow.
  match goal with |- context [match ?b with _ => _ end] => destruct b as [[a|cause] w0] end;
    intros H; inversion H; subst.
  split; [reflexivity|]. exists cause. cbn. apply last_snoc.
Qed.

Lemma getPersistentMasterKey_refused_read (w : World) (f : File) :
  files w !! keyFilePath w = Some f ->
  fails (env w) OpRead (keyFilePath w) = true ->
  SecureMasterKeyManager.getPersistentMasterKey w =
    (Throw KeyStorageError,
     traced (ConsoleError "Failed to manage master key:" (SystemError "EACCES" (keyFilePath w))) w).
Proof.
  intros Hf Hr. unfold keyFilePath in *.
  unfold SecureMasterKeyManager.getPersistentMasterKey. msimpl.
  rewrite Hf. bd_true (mk_is_Some _ _ (eq_refl (Some f))). msimpl.
  rewrite Hr. reflexivity.
Qed.

Lemma getPersistentMasterKey_key_is_directory (w : World) :
  files w !! keyFilePath w = None -> keyFilePath w ∈ dirs w ->
  exists code,
    SecureMasterKeyManager.getPersistentMasterKey w =
      (Throw KeyStorageError,
       traced (ConsoleError "Failed to manage master key:" (SystemError code (keyFilePath w))) w).
Proof.
  intros Hf Hd. unfold keyFilePath in *.
  unfold SecureMasterKeyManager.getPersistentMasterKey. msimpl.
  rewrite Hf. bd_false (@not_is_Some_None File). bd_true Hd. msimpl.
  destruct (fails (env w) OpRead _); [eexists; reflexivity|].
  rewrite Hf. bd_true Hd. eexists. reflexivity.
Qed.

Lemma getPersistentMasterKey_refused_mkdir (w : World) :
  files w !! keyFilePath w = None -> keyFilePath w ∉ dirs w ->
  fails (env w) OpMkdir (userData (env w)) = true ->
  SecureMasterKeyManager.getPersistentMasterKey w =
    (Throw KeyStorageError,
     traced (ConsoleError "Failed to manage master key:"
               (SystemError "EACCES" (userData (env w))))
       (traced (FsMkdir (userData (env w))) (set_drawn (fun d => (d + 64)%nat) w))).
Proof.
  intros Hf Hd Hm. unfold keyFilePath in *.
  unfold SecureMasterKeyManager.getPersistentMasterKey.
  rewrite generateMasterKey_default. msimpl.
  rewrite Hf. bd_false (@not_is_Some_None File). bd_false Hd. msimpl.
  rewrite Hm. reflexivity.
Qed.

Lemma getPersistentMasterKey_directory_is_file (w : World) :
  files w !! keyFilePath w = None -> keyFilePath w ∉ dirs w ->
  fails (env w) OpMkdir (userData (env w)) = false ->
  is_Some (files w !! userData (env w)) ->
  SecureMasterKeyManager.getPersistentMasterKey w =
    (Throw KeyStorageError,
     traced (ConsoleError "Failed to manage master key:"
               (SystemError "EEXIST" (userData (env w))))
       (traced (FsMkdir (userData (env w))) (set_drawn (fun d => (d + 64)%nat) w))).
Proof.
  intros Hf Hd Hm Hu. unfold keyFilePath in *.
  unfold SecureMasterKeyManager.getPersistentMasterKey.
  rewrite generateMasterKey_default. msimpl.
  rewrite Hf. bd_false (@not_is_Some_None File). bd_false Hd. msimpl.
  rewrite Hm. bd_true Hu. reflexivity.
Qed.

Lemma getPersistentMasterKey_refused_write (w : World) :
  files w !! keyFilePath w = None -> keyFilePath w ∉ dirs w ->
  fails (env w) OpMkdir (userData (env w)) = false ->
  files w !! userData (env w) = None ->
  fails (env w) OpWrite (keyFilePath w) = true ->
  SecureMasterKeyManager.getPersistentMasterKey w =
    (Throw KeyStorageError,
     traced (ConsoleError "Failed to manage master key:" (SystemError "EACCES" (keyFilePath w)))
       (traced (FsWriteFile (keyFilePath w))
          (set_dirs (fun d => {[userData (env w)]} ∪ d)
             (traced (FsMkdir (userData (env w))) (set_drawn (fun d => (d + 64)%nat) w))))).
Proof.
  intros Hf Hd Hm Hu Hw. unfold keyFilePath in *.
  unfold SecureMasterKeyManager.getPersistentMasterKey.
  rewrite generateMasterKey_default. msimpl.
  rewrite Hf. bd_false (@not_is_Some_None File). bd_false Hd. msimpl.
  rewrite Hm, Hu. bd_false (@not_is_Some_None File). msimpl.
  rewrite Hw. reflexivity.
Qed.

(** The disk fills up while the key is written: the key file is left with
    the part of the key that the disk took. *)
Lemma getPersistentMasterKey_disk_full (w : World) :
  files w !! keyFilePath w = None -> keyFilePath w ∉ dirs w ->
  fails (env w) OpMkdir (userData (env w)) = false ->
  files w !! userData (env w) = None ->
  fails (env w) OpWrite (keyFilePath w) = false ->
  ~ takes (env w) (keyFilePath w) (fresh_key w) ->
  exists n,
    space (env w) (keyFilePath w) = Some n /\ (n < 128)%nat /\
    SecureMasterKeyManager.getPersistentMasterKey w =
      (Throw KeyStorageError,
       traced (ConsoleError "Failed to manage master key:"
                 (SystemError "ENOSPC" (keyFilePath w)))
         (set_files
            (fun fm => <[keyFilePath w :=
                           mkFile (String.substring 0 n (fresh_key w))
                             SecureMasterKeyManager.mode_0o600]> fm)
            (traced (FsWriteFile (keyFilePath w))
               (set_dirs (fun d => {[userData (env w)]} ∪ d)
                  (traced (FsMkdir (userData (env w)))
                     (set_drawn (fun d => (d + 64)%nat) w)))))).
Proof.
  intros Hf Hd Hm Hu Hw Ht. unfold keyFilePath, takes in *.
  assert (Hlen : String.length (fresh_key w) = 128%nat).
  { unfold fresh_key. rewrite hex_length, length_fmap, length_seq. reflexivity. }
  destruct (space (env w) (path_join (userData (env w)) SecureMasterKeyManager.KEY_FILE_NAME))
    as [n|] eqn:Hs; cbn [default from_option id] in Ht;
    [|destruct Ht; apply Nat.ltb_irrefl].
  unfold Datatypes.id in Ht. apply not_false_is_true in Ht.
  exists n. split; [reflexivity|]. split; [apply Nat.ltb_lt in Ht; lia|].
  assert (Hd' : path_join (userData (env w)) SecureMasterKeyManager.KEY_FILE_NAME
                  ∉ ({[userData (env w)]} ∪ dirs w : gset string)).
  { intros [Hx | Hx]%elem_of_union; [|exact (Hd Hx)].
    apply elem_of_singleton in Hx. exact (path_join_neq_dir _ _ Hx). }
  unfold SecureMasterKeyManager.getPersistentMasterKey.
  rewrite generateMasterKey_default. msimpl.
  rewrite Hf. bd_false (@not_is_Some_None File). bd_false Hd. msimpl.
  rewrite Hm, Hu. bd_false (@not_is_Some_None File). msimpl.
  rewrite Hw, parent_error_path_join by (reflexivity || set_solver).
  bd_false Hd'. msimpl. rewrite Hs. cbn [default from_option]. unfold Datatypes.id.
  unfold fresh_key in Ht. rewrite Ht, Hf. reflexivity.
Qed.

(** Case analysis on the tests that a computation makes of its world. *)
Ltac mcases :=
  repeat (msimpl;
          match goal with
          | |- context [if fails ?e ?op ?p then _ else _] => destruct (fails e op p) eqn:?
          | |- context [@bool_decide ?P ?d] => destruct (@bool_decide P d) eqn:?
          | |- context [match files ?w !! ?p with _ => _ end] => destruct (files w !! p) eqn:?
          | |- context [match fs.parent_error ?p ?w with _ => _ end] =>
              destruct (fs.parent_error p w) eqn:?
          | |- context [(?a <? ?b)%nat] => destruct (a <? b)%nat eqn:?
          end).

(** What [getPersistentMasterKey] leaves alone, whatever its outcome: the
    vault, the window, the pending removals; and, when the key file exists,
    the whole file system. *)
Lemma getPersistentMasterKey_frame (w : World) :
  let w' := snd (SecureMasterKeyManager.getPersistentMasterKey w) in
  env w' = env w /\ vault w' = vault w /\ mainWindow w' = mainWindow w /\
  pending w' = pending w /\ quitting w' = quitting w /\
  (is_Some (files w !! keyFilePath w) -> files w' = files w /\ dirs w' = dirs w).
Proof.
  unfold keyFilePath, SecureMasterKeyManager.getPersistentMasterKey.
  rewrite generateMasterKey_default.
  mcases; cbn [snd]; msimpl; repeat split; try reflexivity.
  all: exfalso;
    match goal with
    | Hb : bool_decide (is_Some ?x) = false, H : is_Some ?x |- _ =>
        apply bool_decide_eq_false_1 in Hb; exact (Hb H)
    end.
Qed.

(** ** The entry script *)

Lemma main_run (new : string -> TokenManager) (w : World) :
  Main.main new w =
  match SecureMasterKeyManager.getPersistentMasterKey (booted w) with
  | (Throw e, w1) => (Throw e, w1)
  | (Ok masterKey, w1) =>
      (Ok (Main.mkProcess (new (derived masterKey)) (negb (lock_taken (env w1)))),
       launched w1)
  end.
Proof.
  unfold Main.main. msimpl.
  change (set_trace _ (set_trace _ (set_trace _ (set_trace _ (set_trace _ (set_trace _ w))))))
    with (booted w).
  destruct (SecureMasterKeyManager.getPersistentMasterKey (booted w)) as [[masterKey|e] w1];
    [|reflexivity].
  unfold SecureMasterKeyManager.deriveMasterKey, Main.requestSingleInstanceLock,
    Main.app_quit, launched, protocol_events.
  cbn [Js.or_else]. msimpl. fold (derived masterKey).
  destruct (defaultApp (env w1)); [destruct (argv (env w1)) as [|a0 [|a1 rest]]|];
    msimpl; cbn [fold_left]; msimpl; destruct (lock_taken (env w1)); reflexivity.
Qed.

(** The rest of the script touches neither the files nor the vault. *)
Lemma launched_frame (w : World) :
  env (launched w) = env w /\ files (launched w) = files w /\
  dirs (launched w) = dirs w /\ vault (launched w) = vault w /\
  quitting (launched w) = (lock_taken (env w) || quitting w) /\
  trace (launched w) =
    trace w ++ [IpcHandle "check-auth"; IpcHandle "logout"] ++ protocol_events (env w) ++
    [AppWhenReady; RequestLock] ++
    (if lock_taken (env w) then [AppQuit] else [AppOn "second-instance"]) ++
    [AppOn "open-url"].
Proof.
  unfold launched, protocol_events.
  destruct (defaultApp (env w)); [destruct (argv (env w)) as [|a0 [|a1 rest]]|];
    cbn [fold_left]; destruct (lock_taken (env w)); msimpl;
    rewrite <- ?app_assoc; cbn [app]; repeat split; reflexivity.
Qed.

(** ** Claims about the master key *)

(** C5. [deriveMasterKey] is a pure, deterministic function: whatever the
    state of the world (files, entropy consumed, vault), two calls with the
    same master key and the same salt return the same derived key, never
    throw, and leave the world as it was; the key is the 128 hexadecimal
    digits of the 64 bytes of PBKDF2. *)
Theorem deriveMasterKey_deterministic
    (masterKey : string) (salt : option string) (w1 w2 : World) :
  exists derivedKey,
    SecureMasterKeyManager.deriveMasterKey masterKey salt w1 = (Ok derivedKey, w1) /\
    SecureMasterKeyManager.deriveMasterKey masterKey salt w2 = (Ok derivedKey, w2) /\
    String.length derivedKey = 128%nat.
Proof.
  exists (Bytes.hex (crypto.pbkdf2Sync masterKey (Js.or_else salt "default-app-salt")
                       100000 64)).
  split; [reflexivity|]. split; [reflexivity|]. apply derived_key_length.
Qed.

Lemma or_else_empty (y : string) : Js.or_else (Some "") y = y.
Proof. reflexivity. Qed.

Lemma or_else_default : Js.or_else (Some "default-app-salt") "default-app-salt" = "default-app-salt".
Proof. unfold Js.or_else. destruct (bool_decide _); reflexivity. Qed.

(** C10. An empty salt is an absent salt: it is replaced by the fixed
    default, so it derives the key that no salt and the literal salt
    "default-app-salt" derive. *)
Theorem deriveMasterKey_empty_salt (masterKey : string) (w : World) :
  SecureMasterKeyManager.deriveMasterKey masterKey (Some "") w =
    SecureMasterKeyManager.deriveMasterKey masterKey None w /\
  SecureMasterKeyManager.deriveMasterKey masterKey (Some "") w =
    SecureMasterKeyManager.deriveMasterKey masterKey (Some "default-app-salt") w.
Proof.
  unfold SecureMasterKeyManager.deriveMasterKey.
  rewrite or_else_empty, or_else_default. split; reflexivity.
Qed.

(** C6. When the key file exists (and can be read), the result is its
    trimmed content and nothing changes.  When it does not exist (and the
    system refuses neither the directory nor the file, and the disk takes
    the key), the result is a new key, the hexadecimal form of 64 bytes of
    [crypto.randomBytes]; the data directory exists afterwards; and the key
    is the content of the key file, created with mode 0o600. *)
Theorem getPersistentMasterKey_reads_or_creates (w : World) :
  match files w !! keyFilePath w with
  | Some f =>
      fails (env w) OpRead (keyFilePath w) = false ->
      SecureMasterKeyManager.getPersistentMasterKey w = (Ok (Js.trim (data f)), w)
  | None =>
      keyFilePath w ∉ dirs w ->
      fails (env w) OpMkdir (userData (env w)) = false ->
      files w !! userData (env w) = None ->
      fails (env w) OpWrite (keyFilePath w) = false ->
      takes (env w) (keyFilePath w) (fresh_key w) ->
      exists w',
        SecureMasterKeyManager.getPersistentMasterKey w = (Ok (fresh_key w), w') /\
        userData (env w) ∈ dirs w' /\
        files w' = <[keyFilePath w := mkFile (fresh_key w) SecureMasterKeyManager.mode_0o600]>
                     (files w) /\
        drawn w' = (drawn w + 64)%nat
  end.
Proof.
  destruct (files w !! keyFilePath w) as [f|] eqn:Hf.
  - intros Hr. exact (getPersistentMasterKey_existing w f Hf Hr).
  - intros Hd Hm Hu Hw Ht.
    eexists. split; [exact (getPersistentMasterKey_created w Hf Hd Hm Hu Hw Ht)|].
    msimpl. repeat split. apply elem_of_union_l, elem_of_singleton. reflexivity.
Qed.

Lemma getPersistentMasterKey_reads_or_creates_witness :
  SecureMasterKeyManager.getPersistentMasterKey installed_world = (Ok "00ff", installed_world) /\
  exists w',
    SecureMasterKeyManager.getPersistentMasterKey fresh_world =
      (Ok "000102030405060708090a0b0c0d0e0f101112131415161718191a1b1c1d1e1f202122232425262728292a2b2c2d2e2f303132333435363738393a3b3c3d3e3f", w') /\
    "/data" ∈ dirs w' /\
    files w' !! "/data/app-secret.key" =
      Some (mkFile "000102030405060708090a0b0c0d0e0f101112131415161718191a1b1c1d1e1f202122232425262728292a2b2c2d2e2f303132333435363738393a3b3c3d3e3f" 384).
Proof.
  split.
  - exact (getPersistentMasterKey_reads_or_creates installed_world eq_refl).
  - destruct (getPersistentMasterKey_reads_or_creates fresh_world
                (not_elem_of_empty _) eq_refl eq_refl eq_refl eq_refl)
      as (w' & Hrun & Hdir & Hfiles & _).
    exists w'. split; [exact Hrun|]. split; [exact Hdir|].
    rewrite Hfiles. reflexivity.
Defined.

(** How [getPersistentMasterKey] fails when the master key is unavailable:
    the error of its [catch] block is thrown, the cause was logged last, and
    before that only the directory and the key file were touched.  No file
    that existed is changed; the files are as they were unless the disk
    filled up, which leaves a part of the new key in the key file. *)
Lemma getPersistentMasterKey_unavailable (w : World) :
  key_unavailable w ->
  exists w0 cause events,
    SecureMasterKeyManager.getPersistentMasterKey w =
      (Throw KeyStorageError, traced (ConsoleError "Failed to manage master key:" cause) w0) /\
    vault w0 = vault w /\ trace w0 = trace w ++ events /\
    Forall (fun e => e = FsMkdir (userData (env w)) \/ e = FsWriteFile (keyFilePath w)) events /\
    (files w0 = files w \/
     files w !! keyFilePath w = None /\
     exists n, space (env w) (keyFilePath w) = Some n /\ (n < 128)%nat /\
       files w0 = <[keyFilePath w :=
                      mkFile (String.substring 0 n (fresh_key w))
                        SecureMasterKeyManager.mode_0o600]> (files w)).
Proof.
  unfold key_unavailable. cbv zeta. intros H.
  destruct (files w !! keyFilePath w) as [f|] eqn:Hf.
  { eexists _, _, []. rewrite (getPersistentMasterKey_refused_read w f Hf H).
    split; [reflexivity|]. rewrite app_nil_r. split; [reflexivity|].
    split; [reflexivity|]. split; [constructor | left; reflexivity]. }
  destruct (decide (keyFilePath w ∈ dirs w)) as [Hd|Hd].
  { destruct (getPersistentMasterKey_key_is_directory w Hf Hd) as (code & Hrun).
    eexists _, _, []. rewrite Hrun. split; [reflexivity|]. rewrite app_nil_r.
    split; [reflexivity|]. split; [reflexivity|]. split; [constructor | left; reflexivity]. }
  destruct (fails (env w) OpMkdir (userData (env w))) eqn:Hm.
  { eexists _, _, [_]. rewrite (getPersistentMasterKey_refused_mkdir w Hf Hd Hm).
    split; [reflexivity|]. split; [reflexivity|]. split; [reflexivity|].
    split; [repeat constructor | left; reflexivity]. }
  destruct (files w !! userData (env w)) as [g|] eqn:Hu.
  { eexists _, _, [_].
    rewrite (getPersistentMasterKey_directory_is_file w Hf Hd Hm)
      by (rewrite Hu; eexists; reflexivity).
    split; [reflexivity|]. split; [reflexivity|]. split; [reflexivity|].
    split; [repeat constructor | left; reflexivity]. }
  destruct (fails (env w) OpWrite (keyFilePath w)) eqn:Hw.
  { eexists _, _, [_; _]. rewrite (getPersistentMasterKey_refused_write w Hf Hd Hm Hu Hw).
    split; [reflexivity|]. split; [reflexivity|].
    split; [cbn; rewrite <- app_assoc; reflexivity|].
    split; [repeat constructor; tauto | left; reflexivity]. }
  assert (Ht : ~ takes (env w) (keyFilePath w) (fresh_key w)).
  { destruct H as [H|[H|[H|[H|H]]]]; try discriminate H; try exact H.
    - destruct (Hd H).
    - destruct H as [x Hx]. discriminate Hx. }
  destruct (getPersistentMasterKey_disk_full w Hf Hd Hm Hu Hw Ht) as (n & Hs & Hn & Hrun).
  eexists _, _, [_; _]. rewrite Hrun.
  split; [reflexivity|]. split; [reflexivity|].
  split; [cbn; rewrite <- app_assoc; reflexivity|].
  split; [repeat constructor; tauto|].
  right. split; [reflexivity|]. exists n. split; [exact Hs|]. split; [exact Hn | reflexivity].
Qed.

(** When the master key is available, [getPersistentMasterKey] returns,
    and the files are as they were or have the new key file in addition. *)
Lemma getPersistentMasterKey_available (w : World) :
  ~ key_unavailable w ->
  exists masterKey w',
    SecureMasterKeyManager.getPersistentMasterKey w = (Ok masterKey, w') /\
    (files w' = files w \/
     files w !! keyFilePath w = None /\
     files w' = <[keyFilePath w := mkFile (fresh_key w) SecureMasterKeyManager.mode_0o600]>
                  (files w)).
Proof.
  unfold key_unavailable. cbv zeta. intros H.
  destruct (files w !! keyFilePath w) as [f|] eqn:Hf.
  - eexists _, _. split; [|left; reflexivity].
    apply (getPersistentMasterKey_existing w f Hf).
    destruct (fails (env w) OpRead (keyFilePath w)); [destruct (H eq_refl) | reflexivity].
  - eexists _, _. split; [apply (getPersistentMasterKey_created w Hf)|].
    + intros Hd. apply H. left. exact Hd.
    + destruct (fails (env w) OpMkdir _); [destruct H; right; left; reflexivity | reflexivity].
    + destruct (files w !! userData (env w)) as [g|] eqn:Hu; [|reflexivity].
      destruct H. right. right. left. eexists. reflexivity.
    + destruct (fails (env w) OpWrite _); [|reflexivity].
      destruct H. right. right. right. left. reflexivity.
    + unfold takes in *.
      destruct (_ <? _)%nat eqn:Ht; [|reflexivity].
      destruct H. right. right. right. right. discriminate.
    + right. split; reflexivity.
Qed.

Lemma key_unavailable_dec (w : World) : key_unavailable w \/ ~ key_unavailable w.
Proof.
  unfold key_unavailable, takes. cbv zeta.
  destruct (files w !! keyFilePath w) as [f|].
  - destruct (fails (env w) OpRead (keyFilePath w)); [left; reflexivity | right; discriminate].
  - destruct (decide (keyFilePath w ∈ dirs w)) as [Hd|Hd]; [left; left; exact Hd|].
    destruct (fails (env w) OpMkdir (userData (env w)));
      [left; right; left; reflexivity|].
    destruct (files w !! userData (env w)) as [g|];
      [left; right; right; left; eexists; reflexivity|].
    destruct (fails (env w) OpWrite (keyFilePath w));
      [left; right; right; right; left; reflexivity|].
    destruct (_ <? _)%nat;
      [left; right; right; right; right; discriminate|].
    right. intros [H|[H|[[x H]|[H|H]]]];
      [exact (Hd H) | discriminate H | discriminate H | discriminate H | exact (H eq_refl)].
Qed.

(** C7. When the key file cannot be read, or the directory cannot be
    created (the system refuses, or a file is in its place), or the key
    file cannot be written (the key path is a directory, the system refuses
    to open it, or the disk fills up), [getPersistentMasterKey] logs the
    cause and throws the error of its [catch] block to its caller, and in
    no other case.  No file that existed is changed, and the files are as
    they were unless the disk filled up.  The entry script, which calls it
    at its top level, ends there with the same error: no token manager is
    built, no IPC handler for [check-auth] or [logout] is registered, the
    lock is never requested. *)
Theorem getPersistentMasterKey_failure_is_thrown (w : World) :
  (key_unavailable w ->
   (exists w' cause,
      SecureMasterKeyManager.getPersistentMasterKey w = (Throw KeyStorageError, w') /\
      last (trace w') = Some (ConsoleError "Failed to manage master key:" cause) /\
      files w ⊆ files w' /\
      (takes (env w) (keyFilePath w) (fresh_key w) -> files w' = files w)) /\
   (forall new, exists w' events,
      Main.main new w = (Throw KeyStorageError, w') /\
      files w ⊆ files w' /\
      (takes (env w) (keyFilePath w) (fresh_key w) -> files w' = files w) /\
      vault w' = vault w /\
      trace w' = trace w ++ events /\
      Forall (fun e => e <> IpcHandle "check-auth" /\ e <> IpcHandle "logout" /\
                       e <> RequestLock) events)) /\
  (~ key_unavailable w ->
   exists masterKey w',
     SecureMasterKeyManager.getPersistentMasterKey w = (Ok masterKey, w')).
Proof.
  split;
    [|intros H; destruct (getPersistentMasterKey_available w H) as (k & w' & Hrun & _);
      exists k, w'; exact Hrun].
  intros H.
  assert (Hfiles : forall w0 : World,
            (files w0 = files w \/
             files w !! keyFilePath w = None /\
             exists n, space (env w) (keyFilePath w) = Some n /\ (n < 128)%nat /\
               files w0 = <[keyFilePath w :=
                              mkFile (String.substring 0 n (fresh_key w))
                                SecureMasterKeyManager.mode_0o600]> (files w)) ->
            files w ⊆ files w0 /\
            (takes (env w) (keyFilePath w) (fresh_key w) -> files w0 = files w)).
  { intros w0 [->|(Hf & n & Hs & Hn & ->)]; [split; [reflexivity | intros _; reflexivity]|].
    split; [apply insert_subseteq; exact Hf|].
    unfold takes. rewrite Hs. cbn [default from_option]. unfold Datatypes.id.
    assert (Hlen : String.length (fresh_key w) = 128%nat).
    { unfold fresh_key. rewrite hex_length, length_fmap, length_seq. reflexivity. }
    rewrite Hlen. intros Ht. apply Nat.ltb_ge in Ht. lia. }
  split.
  - destruct (getPersistentMasterKey_unavailable w H) as (w0 & cause & events & Hrun & _ & _ & _ & Hf).
    eexists _, cause. split; [exact Hrun|]. split; [apply last_snoc|].
    exact (Hfiles w0 Hf).
  - intros new. rewrite main_run.
    destruct (getPersistentMasterKey_unavailable (booted w) H)
      as (w0 & cause & events & Hrun & Hv & Ht & Hev & Hf).
    rewrite Hrun.
    exists (traced (ConsoleError "Failed to manage master key:" cause) w0),
      ([RegisterHandlers "user"; RegisterHandlers "file"; RegisterHandlers "ai";
        RegisterHandlers "settings"; AppOn "window-all-closed"; AppOn "activate"]
       ++ events ++ [ConsoleError "Failed to manage master key:" cause]).
    split; [reflexivity|].
    destruct (Hfiles w0 Hf) as [Hsub Hsame].
    split; [exact Hsub|]. split; [exact Hsame|]. split; [exact Hv|]. split.
    + cbn [trace traced set_trace]. rewrite Ht. cbn. rewrite <- !app_assoc. reflexivity.
    + repeat (apply Forall_cons; split; [repeat split; discriminate|]).
      apply Forall_app. split.
      * eapply Forall_impl; [exact Hev|].
        intros e [->| ->]; repeat split; discriminate.
      * repeat constructor; discriminate.
Qed.

Lemma getPersistentMasterKey_failure_is_thrown_witness :
  (exists w' cause,
     SecureMasterKeyManager.getPersistentMasterKey
       (refusing OpRead "/data/app-secret.key" installed_world)
     = (Throw KeyStorageError, w') /\
     last (trace w') = Some (ConsoleError "Failed to manage master key:" cause) /\
     files w' = files installed_world) /\
  (exists w',
     Main.main SecureTokenManager.new (refusing OpWrite "/data/app-secret.key" fresh_world)
     = (Throw KeyStorageError, w') /\
     files w' = ∅) /\
  (exists w',
     Main.main SecureTokenManager.new (data_directory_is_file fresh_world)
     = (Throw KeyStorageError, w')) /\
  (exists w',
     Main.main SecureTokenManager.new (key_path_is_directory fresh_world)
     = (Throw KeyStorageError, w')).
Proof.
  split; [|split; [|split]].
  - destruct (proj1 (getPersistentMasterKey_failure_is_thrown
                       (refusing OpRead "/data/app-secret.key" installed_world)))
      as [(w' & cause & Hrun & Hlog & _ & Hsame) _]; [reflexivity|].
    exists w', cause. split; [exact Hrun|]. split; [exact Hlog|]. apply Hsame. reflexivity.
  - destruct (proj1 (getPersistentMasterKey_failure_is_thrown
                       (refusing OpWrite "/data/app-secret.key" fresh_world)))
      as [_ Hmain]; [right; right; right; left; reflexivity|].
    destruct (Hmain SecureTokenManager.new) as (w' & events & Hrun & _ & Hsame & _).
    exists w'. split; [exact Hrun|]. apply Hsame. reflexivity.
  - destruct (proj1 (getPersistentMasterKey_failure_is_thrown (data_directory_is_file fresh_world)))
      as [_ Hmain]; [right; right; left; eexists; reflexivity|].
    destruct (Hmain SecureTokenManager.new) as (w' & events & Hrun & _).
    exists w'. exact Hrun.
  - destruct (proj1 (getPersistentMasterKey_failure_is_thrown (key_path_is_directory fresh_world)))
      as [_ Hmain]; [left; vm_compute; reflexivity|].
    destruct (Hmain SecureTokenManager.new) as (w' & events & Hrun & _).
    exists w'. exact Hrun.
Defined.

(** ** Claims about the single-instance lock *)

(** C3, as the program has it.  A launch that does not get the lock never
    writes the vault, and leaves every file as it was when the master-key
    file exists; when it reaches the request for the lock, it is refused,
    calls [app.quit()] at once and then only registers the [open-url]
    listener.  (The master key is obtained before the lock is requested: a
    missing key file is created by this launch too.) *)
Theorem secondary_launch_effects (new : string -> TokenManager) (w : World) :
  lock_taken (env w) = true ->
  let w' := snd (Main.main new w) in
  vault w' = vault w /\
  (is_Some (files w !! keyFilePath w) -> files w' = files w) /\
  (forall p, fst (Main.main new w) = Ok p ->
     Main.gotTheLock p = false /\ quitting w' = true /\
     exists t, trace w' = t ++ [RequestLock; AppQuit; AppOn "open-url"]).
Proof.
  intros Hlock w'. subst w'. rewrite main_run.
  pose proof (getPersistentMasterKey_frame (booted w)) as Hframe. cbv zeta in Hframe.
  destruct (SecureMasterKeyManager.getPersistentMasterKey (booted w)) as [[masterKey|e] w1];
    cbn [fst snd] in *; destruct Hframe as (He & Hv & _ & _ & _ & Hfiles).
  - destruct (launched_frame w1) as (_ & Hf' & _ & Hv' & Hq & Ht).
    change (env (booted w)) with (env w) in He. rewrite He, Hlock in *.
    split; [now rewrite Hv', Hv|]. split.
    + intros Hkey. rewrite Hf'. apply Hfiles, Hkey.
    + intros p Hp. inversion Hp; subst p. cbn [Main.gotTheLock].
      split; [reflexivity|]. split; [exact Hq|].
      eexists. rewrite Ht. rewrite !app_assoc. cbn [app].
      rewrite <- (app_assoc _ [AppWhenReady; RequestLock] [AppQuit]).
      rewrite <- (app_assoc _ [AppWhenReady; RequestLock; AppQuit] [AppOn "open-url"]).
      cbn [app].
      change [AppWhenReady; RequestLock; AppQuit; AppOn "open-url"]
        with ([AppWhenReady] ++ [RequestLock; AppQuit; AppOn "open-url"]).
      rewrite app_assoc. reflexivity.
  - split; [exact Hv|]. split; [intros Hkey; apply Hfiles, Hkey | discriminate].
Qed.

Lemma secondary_launch_effects_witness :
  let w' := snd (Main.main SecureTokenManager.new (lock_held installed_world)) in
  vault w' = ∅ /\ files w' = files installed_world /\ quitting w' = true.
Proof.
  destruct (secondary_launch_effects SecureTokenManager.new (lock_held installed_world) eq_refl)
    as (Hv & Hf & Hp).
  split; [exact Hv|]. split; [apply Hf; eexists; reflexivity|].
  rewrite main_run.
  rewrite (getPersistentMasterKey_existing (booted (lock_held installed_world))
             (mkFile (String (Bytes.to_ascii 10) "00ff" +:+ " ") 384) eq_refl eq_refl).
  reflexivity.
Defined.

(** C3, as the specification states it, fails: on an installation whose
    master-key file is missing, a launch that does not get the lock has
    created the key file by the time it quits. *)
Lemma secondary_launch_creates_key_file :
  lock_taken (env (lock_held fresh_world)) = true /\
  files (lock_held fresh_world) !! "/data/app-secret.key" = None /\
  exists p w',
    Main.main SecureTokenManager.new (lock_held fresh_world) = (Ok p, w') /\
    Main.gotTheLock p = false /\ quitting w' = true /\
    files w' !! "/data/app-secret.key" =
      Some (mkFile "000102030405060708090a0b0c0d0e0f101112131415161718191a1b1c1d1e1f202122232425262728292a2b2c2d2e2f303132333435363738393a3b3c3d3e3f" 384).
Proof.
  split; [reflexivity|]. split; [reflexivity|].
  eexists _, _. rewrite main_run.
  rewrite (getPersistentMasterKey_created (booted (lock_held fresh_world))
             eq_refl (not_elem_of_empty _) eq_refl eq_refl eq_refl eq_refl).
  split; [reflexivity|]. repeat split.
Qed.

(** ** The callback handler *)

Section Callback.

Variable tm : TokenManager.

Lemma parse_invalid_url (url : string) (w : World) :
  Url.parse (parses_host (env w)) url = None ->
  Main.parseAuthDataFromUrl tm url w = (Throw (TypeError "Invalid URL"), w).
Proof. intros H. unfold Main.parseAuthDataFromUrl. msimpl. rewrite H. reflexivity. Qed.

Lemma parse_missing_data (url : string) (u : Url.t) (w : World) :
  Url.parse (parses_host (env w)) url = Some u ->
  Js.truthy (Url.search_params_get u "data") = false ->
  Main.parseAuthDataFromUrl tm url w =
    (Ok tt, traced (ShowErrorBox "Error" Main.AUTH_FAILED) w).
Proof.
  intros Hu Hd. unfold Main.parseAuthDataFromUrl, Main.if_truthy.
  msimpl. rewrite Hu. msimpl. rewrite Hd. reflexivity.
Qed.

Lemma parse_malformed_escape (url : string) (u : Url.t) (enc : string) (w : World) :
  Url.parse (parses_host (env w)) url = Some u ->
  Url.search_params_get u "data" = Some enc -> enc <> "" ->
  Url.decodeURIComponent enc = None ->
  Main.parseAuthDataFromUrl tm url w = (Throw (URIError "URI malformed"), w).
Proof.
  intros Hu Hd Hne Hdec. unfold Main.parseAuthDataFromUrl, Main.if_truthy.
  msimpl. rewrite Hu. msimpl. rewrite Hd. cbn [Js.truthy default].
  bd_false Hne. cbn [negb]. rewrite Hdec. reflexivity.
Qed.

Lemma parse_malformed_json (url : string) (u : Url.t) (enc dec : string) (w : World) :
  Url.parse (parses_host (env w)) url = Some u ->
  Url.search_params_get u "data" = Some enc -> enc <> "" ->
  Url.decodeURIComponent enc = Some dec ->
  Json.parse dec = None ->
  Main.parseAuthDataFromUrl tm url w = (Throw (SyntaxError "Unexpected token in JSON"), w).
Proof.
  intros Hu Hd Hne Hdec Hj. unfold Main.parseAuthDataFromUrl, Main.if_truthy.
  msimpl. rewrite Hu. msimpl. rewrite Hd. cbn [Js.truthy default].
  bd_false Hne. cbn [negb]. rewrite Hdec. msimpl. rewrite Hj. reflexivity.
Qed.

(** With a payload, the handler is its two blocks one after the other. *)
Lemma parse_payload (url : string) (u : Url.t) (enc dec : string) (authData : Json.value)
    (w : World) :
  Url.parse (parses_host (env w)) url = Some u ->
  Url.search_params_get u "data" = Some enc -> enc <> "" ->
  Url.decodeURIComponent enc = Some dec ->
  Json.parse dec = Some authData ->
  Main.parseAuthDataFromUrl tm url w =
    (Main.storing_user_info authData;; Main.storing_token tm authData) w.
Proof.
  intros Hu Hd Hne Hdec Hj. unfold Main.parseAuthDataFromUrl, Main.if_truthy.
  msimpl. rewrite Hu. msimpl. rewrite Hd. cbn [Js.truthy default].
  bd_false Hne. cbn [negb]. rewrite Hdec. msimpl. rewrite Hj. reflexivity.
Qed.

(** X1.  A callback that is no URL, or has no [data] (or an empty one), or
    whose [data] cannot be decoded or is no JSON text, leaves the files, the
    vault and the window as they were, whatever the token manager. *)
Lemma malformed_callback_keeps_state (url : string) (w : World) :
  Url.parse (parses_host (env w)) url = None \/
  (exists u, Url.parse (parses_host (env w)) url = Some u /\
     (Js.truthy (Url.search_params_get u "data") = false \/
      exists enc, Url.search_params_get u "data" = Some enc /\ enc <> "" /\
        (Url.decodeURIComponent enc = None \/
         exists dec, Url.decodeURIComponent enc = Some dec /\ Json.parse dec = None))) ->
  let w' := snd (Main.parseAuthDataFromUrl tm url w) in
  files w' = files w /\ vault w' = vault w /\ mainWindow w' = mainWindow w.
Proof.
  intros [H | (u & Hu & [H | (enc & Hd & Hne & [H | (dec & Hdec & H)])])]; cbv zeta.
  - rewrite parse_invalid_url by exact H. repeat split.
  - rewrite (parse_missing_data url u) by assumption. repeat split.
  - rewrite (parse_malformed_escape url u enc) by assumption. repeat split.
  - rewrite (parse_malformed_json url u enc dec) by assumption. repeat split.
Qed.

(** C1 is violated by the program: a string that is no URL makes
    [new URL(url)] throw its [TypeError] out of the handler, and a [data]
    that is no JSON text makes [JSON.parse] throw its [SyntaxError] out of
    it.  Neither is caught, no dialog is shown (the trace is unchanged); only
    a missing [data] reaches the dialog. *)
Theorem malformed_callback_raw_exceptions (w : World) :
  Main.parseAuthDataFromUrl tm not_a_url w = (Throw (TypeError "Invalid URL"), w) /\
  Main.parseAuthDataFromUrl tm url_with_bad_json w =
    (Throw (SyntaxError "Unexpected token in JSON"), w) /\
  Main.parseAuthDataFromUrl tm url_without_data w =
    (Ok tt, traced (ShowErrorBox "Error" Main.AUTH_FAILED) w).
Proof.
  split; [|split].
  - apply parse_invalid_url. vm_compute. reflexivity.
  - apply (parse_malformed_json url_with_bad_json
             (Url.mk "appname" "//auth" (Some "data=%7Bnot-json") None)
             "{not-json" "{not-json");
      try (vm_compute; reflexivity). discriminate.
  - apply (parse_missing_data url_without_data
             (Url.mk "appname" "//auth" (Some "state=1") None));
      vm_compute; reflexivity.
Qed.

(** The token block never throws: its [catch] logs whatever was thrown. *)
Lemma storing_token_returns (authData : Json.value) (w : World) :
  fst (Main.storing_token tm authData w) = Ok tt.
Proof.
  unfold Main.storing_token. msimpl.
  match goal with |- context [match ?b with _ => _ end] => destruct b as [[[]|e] w0] end;
    reflexivity.
Qed.

(** C2, as the program has it.  The three stores and the reload are one
    [try] block: the first store that throws ends the block.  The error is
    logged in the world in which that store threw; the stores that follow
    were not called and the window is not reloaded; what earlier stores
    wrote stays. *)
Theorem storing_token_stops_at_first_failure
    (members : list (string * Json.value)) (w : World) :
  let secret name := Json.lookup_member name members in
  let authData := Json.Object members in
  (forall e w1,
     storeToken tm "idToken" (secret "idToken") w = (Throw e, w1) ->
     Main.storing_token tm authData w = (Ok tt, token_error_logged e w1)) /\
  (forall w1 e w2,
     storeToken tm "idToken" (secret "idToken") w = (Ok tt, w1) ->
     storeToken tm "refreshToken" (secret "refreshToken") w1 = (Throw e, w2) ->
     Main.storing_token tm authData w = (Ok tt, token_error_logged e w2)) /\
  (forall w1 w2 e w3,
     storeToken tm "idToken" (secret "idToken") w = (Ok tt, w1) ->
     storeToken tm "refreshToken" (secret "refreshToken") w1 = (Ok tt, w2) ->
     storeToken tm "webApiKey" (secret "webApiKey") w2 = (Throw e, w3) ->
     Main.storing_token tm authData w = (Ok tt, token_error_logged e w3)) /\
  (forall w1 w2 w3,
     storeToken tm "idToken" (secret "idToken") w = (Ok tt, w1) ->
     storeToken tm "refreshToken" (secret "refreshToken") w1 = (Ok tt, w2) ->
     storeToken tm "webApiKey" (secret "webApiKey") w2 = (Ok tt, w3) ->
     Main.storing_token tm authData w = Main.window_reload w3).
Proof.
  intros secret authData. subst secret authData.
  unfold Main.storing_token, Main.get_property, token_error_logged.
  repeat split; intros; msimpl;
    repeat match goal with H : storeToken tm _ _ _ = _ |- _ => rewrite H; clear H end;
    try reflexivity.
  unfold Main.window_reload. msimpl. destruct (mainWindow w3); reflexivity.
Qed.

End Callback.

(** C2, as the specification states it, fails: on an installation with its
    data directory and key file, when the vault refuses the store of the
    identity token, the handler, which has written the profile, logs the
    failure and attempts no other store. *)
Lemma failed_store_ends_token_step :
  let w := refusing OpStore "idToken" installed_world in
  let w' := snd (Main.parseAuthDataFromUrl (SecureTokenManager.new "k")
                   url_with_three_tokens w) in
  trace w' =
    [FsWriteFile "/data/user-info.json"; StoreToken "idToken";
     ConsoleError "Token handling error:" (VaultError "write" "idToken")] /\
  stores_attempted (trace w') = ["idToken"] /\
  ~ attempts_every_store (trace w').
Proof.
  cbv zeta. unfold attempts_every_store.
  assert (H : trace (snd (Main.parseAuthDataFromUrl (SecureTokenManager.new "k")
                            url_with_three_tokens (refusing OpStore "idToken" installed_world)))
              = [FsWriteFile "/data/user-info.json"; StoreToken "idToken";
                 ConsoleError "Token handling error:" (VaultError "write" "idToken")])
    by (vm_compute; reflexivity).
  rewrite H. split; [reflexivity|]. split; [reflexivity|]. discriminate.
Qed.

Lemma storing_token_stops_at_first_failure_witness :
  let w := refusing OpStore "idToken" installed_world in
  Main.storing_token (SecureTokenManager.new "k")
    (Json.Object [("idToken", Json.Str "a"); ("refreshToken", Json.Str "b");
                  ("webApiKey", Json.Str "c")]) w =
  (Ok tt, token_error_logged (VaultError "write" "idToken") (traced (StoreToken "idToken") w)).
Proof.
  cbv zeta.
  apply (proj1 (storing_token_stops_at_first_failure (SecureTokenManager.new "k")
                  [("idToken", Json.Str "a"); ("refreshToken", Json.Str "b");
                   ("webApiKey", Json.Str "c")]
                  (refusing OpStore "idToken" installed_world))).
  reflexivity.
Defined.

(** ** The second-instance handler *)

(** C9, as the program has it.  The handler first restores the window if it
    is minimized and focuses it (when there is a window); only then does it
    take the last argument of the command line, and forward it to the
    callback handler when it is a non-empty string, or show the failure
    dialog when there is none. *)
Theorem second_instance_raises_then_forwards
    (tm : TokenManager) (commandLine : list string) (w : World) :
  Main.second_instance tm commandLine w =
    match last commandLine with
    | Some url =>
        if bool_decide (url = "")
        then (Ok tt, traced (ShowErrorBox "Error" Main.AUTH_FAILED) (window_raised w))
        else Main.parseAuthDataFromUrl tm url (window_raised w)
    | None => (Ok tt, traced (ShowErrorBox "Error" Main.AUTH_FAILED) (window_raised w))
    end /\
  trace (window_raised w) =
    trace w ++
    match mainWindow w with
    | Some win => (if minimized win then [WindowRestore] else []) ++ [WindowFocus]
    | None => []
    end /\
  mainWindow (window_raised w) =
    (fun win => mkWindow false true (loads win)) <$> mainWindow w /\
  files (window_raised w) = files w /\ vault (window_raised w) = vault w.
Proof.
  split.
  - unfold Main.second_instance, Main.if_truthy, Main.window_restore, Main.window_focus,
      window_raised.
    msimpl.
    destruct (mainWindow w) as [[[] foc n]|] eqn:Hw; msimpl;
      (destruct (last commandLine) as [url|]; cbn [Js.truthy default];
       [destruct (bool_decide (url = "")); cbn [negb]|]; reflexivity).
  - unfold window_raised.
    destruct (mainWindow w) as [[[] foc n]|] eqn:Hw; msimpl; cbn [minimized]; msimpl;
      rewrite ?Hw; cbn [fmap option_fmap option_map minimized focused loads app];
      rewrite <- ?app_assoc, ?app_nil_r; repeat split; reflexivity.
Qed.

(** C9, as the specification states it, fails: with a minimized window and
    a callback URL as last argument, the window is restored and focused
    before the callback handler writes the profile and stores the tokens. *)
Lemma second_instance_raises_window_first :
  let w' := snd (Main.second_instance (SecureTokenManager.new "k")
                   ["/opt/app/app"; url_with_three_tokens] logged_in_world) in
  trace w' =
    [WindowRestore; WindowFocus; FsWriteFile "/data/user-info.json"; StoreToken "idToken";
     StoreToken "refreshToken"; StoreToken "webApiKey"; WindowReload] /\
  ~ callback_then_window (trace w').
Proof.
  cbv zeta.
  assert (H : trace (snd (Main.second_instance (SecureTokenManager.new "k")
                            ["/opt/app/app"; url_with_three_tokens] logged_in_world))
              = [WindowRestore; WindowFocus; FsWriteFile "/data/user-info.json";
                 StoreToken "idToken"; StoreToken "refreshToken"; StoreToken "webApiKey";
                 WindowReload])
    by (vm_compute; reflexivity).
  rewrite H. split; [reflexivity|].
  intros Hclaim.
  specialize (Hclaim 1%nat 2%nat (FsWriteFile "/data/user-info.json") eq_refl eq_refl eq_refl).
  lia.
Qed.

(** ** The vault *)

(** A store touches the entry of its name and nothing else of the files and
    of the vault. *)
Lemma store_frame (key name : string) (v : JsValue) (w : World) :
  let w' := snd (SecureTokenManager.store key name v w) in
  env w' = env w /\ files w' = files w /\ mainWindow w' = mainWindow w /\
  forall other, other <> name -> vault w' !! other = vault w !! other.
Proof.
  unfold SecureTokenManager.store. msimpl.
  destruct (SecureTokenManager.as_plaintext _ v) as [p| |]; msimpl;
    [destruct (fails (env w) OpStore name); msimpl|..]; cbn [snd]; msimpl;
    repeat split; try reflexivity.
  intros other Hne. apply lookup_insert_ne. congruence.
Qed.

(** A string whose store the system does not refuse is sealed under the key
    of the manager. *)
Lemma store_string (key name plain : string) (w : World) :
  fails (env w) OpStore name = false ->
  exists w',
    SecureTokenManager.store key name (Some (Json.Str plain)) w = (Ok tt, w') /\
    env w' = env w /\ files w' = files w /\ mainWindow w' = mainWindow w /\
    (exists n, vault w' !! name = Some (mkSealed key n plain)) /\
    trace w' = trace w ++ [StoreToken name].
Proof.
  intros Hok. unfold SecureTokenManager.store. msimpl.
  cbn [SecureTokenManager.as_plaintext]. rewrite Hok. msimpl.
  eexists. split; [reflexivity|]. msimpl. repeat split.
  eexists. apply lookup_insert_eq.
Qed.






(** ** Logout *)






(** ** The handshake from end to end *)

Lemma get_property_not_null (v : Json.value) (name : string) (w : World) :
  v <> Json.Null -> Main.get_property v name w = (Ok (property v name), w).
Proof. intros Hv. destruct v; try reflexivity. destruct (Hv eq_refl). Qed.

(** The block that writes the profile, for a payload that is not [null]:
    it returns when the profile can be written, and throws the error of
    [writeFileSync] otherwise, having changed nothing unless the disk filled
    up, which leaves a part of the profile. *)
Lemma storing_user_info_cases (authData : Json.value) (w : World) :
  authData <> Json.Null ->
  Main.storing_user_info authData w =
    let path := profilePath w in
    let w1 := traced (FsWriteFile path) w in
    if fails (env w) OpWrite path then (Throw (SystemError "EACCES" path), w1)
    else
      match fs.parent_error path w with
      | Some code => (Throw (SystemError code path), w1)
      | None =>
          if bool_decide (path ∈ dirs w) then (Throw (SystemError "EISDIR" path), w1)
          else
            let content := profile_of w authData in
            let md := from_option mode fs.mode_0o666 (files w !! path) in
            let taken := default (String.length content) (space (env w) path) in
            if (taken <? String.length content)%nat
            then (Throw (SystemError "ENOSPC" path),
                  set_files (fun fm => <[path := mkFile (String.substring 0 taken content) md]> fm)
                    w1)
            else (Ok tt, profile_written authData w)
      end.
Proof.
  intros Hv. cbv zeta. unfold profilePath, profile_written, profile_of.
  unfold Main.storing_user_info. msimpl.
  rewrite !(get_property_not_null authData _ _ Hv). msimpl.
  destruct (fails (env w) OpWrite _); [reflexivity|].
  change (fs.parent_error ?p (set_trace ?f w)) with (fs.parent_error p w).
  destruct (fs.parent_error _ w); [reflexivity|].
  destruct (bool_decide _); [reflexivity|].
  destruct (_ <? _)%nat; reflexivity.
Qed.

Lemma storing_user_info_run (authData : Json.value) (w : World) :
  authData <> Json.Null ->
  profile_writable w (profile_of w authData) ->
  Main.storing_user_info authData w = (Ok tt, profile_written authData w).
Proof.
  intros Hv (Hok & Hparent & Hdir & Htakes).
  rewrite (storing_user_info_cases authData w Hv). cbv zeta.
  rewrite Hok, Hparent. bd_false Hdir. unfold takes in Htakes. now rewrite Htakes.
Qed.

Lemma profile_written_frame (authData : Json.value) (w : World) :
  env (profile_written authData w) = env w /\
  vault (profile_written authData w) = vault w /\
  data <$> files (profile_written authData w) !! profilePath w = Some (profile_of w authData).
Proof.
  unfold profile_written. msimpl. repeat split. now rewrite lookup_insert_eq.
Qed.

(** The token block with the vault of the specification: the identity token
    is sealed first, and nothing that follows touches its entry or the
    files. *)
Lemma storing_token_seals_idToken
    (key plain : string) (members : list (string * Json.value)) (w : World) :
  Json.lookup_member "idToken" members = Some (Json.Str plain) ->
  fails (env w) OpStore "idToken" = false ->
  let w' := snd (Main.storing_token (SecureTokenManager.new key) (Json.Object members) w) in
  files w' = files w /\ env w' = env w /\
  exists n, vault w' !! "idToken" = Some (mkSealed key n plain).
Proof.
  intros Hid Hok.
  destruct (store_string key "idToken" plain w Hok)
    as (w1 & Hrun & He1 & Hf1 & _ & [n Hv1] & _).
  unfold Main.storing_token, Main.get_property. msimpl.
  cbn [storeToken SecureTokenManager.new]. rewrite Hid, Hrun.
  pose proof (store_frame key "refreshToken" (Json.lookup_member "refreshToken" members) w1)
    as Hfr2. cbv zeta in Hfr2.
  destruct (SecureTokenManager.store key "refreshToken" _ w1) as [[[]|e2] w2];
    cbn [snd] in Hfr2; destruct Hfr2 as (He2 & Hf2 & _ & Hv2).
  - pose proof (store_frame key "webApiKey" (Json.lookup_member "webApiKey" members) w2)
      as Hfr3. cbv zeta in Hfr3.
    destruct (SecureTokenManager.store key "webApiKey" _ w2) as [[[]|e3] w3];
      cbn [snd] in Hfr3; destruct Hfr3 as (He3 & Hf3 & _ & Hv3).
    + unfold Main.window_reload. msimpl.
      destruct (mainWindow w3); cbn [snd]; msimpl;
        (split; [congruence|]; split; [congruence|]; exists n;
         rewrite Hv3, Hv2 by discriminate; exact Hv1).
    + cbn [snd]. msimpl. split; [congruence|]. split; [congruence|]. exists n.
      rewrite Hv3, Hv2 by discriminate. exact Hv1.
  - cbn [snd]. msimpl. split; [congruence|]. split; [congruence|]. exists n.
    rewrite Hv2 by discriminate. exact Hv1.
Qed.

Lemma callback_url_payload (hosts : bool -> string -> bool) :
  exists u enc,
    Url.parse hosts callback_url = Some u /\
    Url.search_params_get u "data" = Some enc /\ enc <> "" /\
    Url.decodeURIComponent enc = Some enc /\
    Json.parse enc =
      Some (Json.Object [("displayName", Json.Str "Jane"); ("idToken", Json.Str "abc")]).
Proof.
  exists (Url.mk "appname" "//auth"
            (Some "data=%7B%22displayName%22%3A%22Jane%22%2C%22idToken%22%3A%22abc%22%7D")
            None),
    (Bytes.dq "{'displayName':'Jane','idToken':'abc'}").
  split; [vm_compute; reflexivity|]. split; [vm_compute; reflexivity|].
  split; [vm_compute; discriminate|]. split; vm_compute; reflexivity.
Qed.

(** C4.  On an installation on which the profile can be written and the
    store of the identity token is not refused, handling the callback URL of
    the scenario returns normally; the profile written to user-info.json has
    the display name "Jane"; afterwards [hasToken("idToken")] is true and
    [retrieveToken("idToken")] is "abc". *)
Theorem callback_end_to_end (key : string) (w : World) :
  profile_writable w (Bytes.dq "{'displayName':'Jane','bio':''}") ->
  fails (env w) OpStore "idToken" = false ->
  let tm := SecureTokenManager.new key in
  let w' := snd (Main.parseAuthDataFromUrl tm callback_url w) in
  fst (Main.parseAuthDataFromUrl tm callback_url w) = Ok tt /\
  data <$> files w' !! profilePath w' = Some (Bytes.dq "{'displayName':'Jane','bio':''}") /\
  profile_displayName w' = Some (Json.Str "Jane") /\
  hasToken tm "idToken" w' = (Ok true, w') /\
  retrieveToken tm "idToken" w' = (Ok (Some "abc"), w').
Proof.
  intros Hwrite Hstore. cbv zeta.
  destruct (callback_url_payload (parses_host (env w))) as (u & enc & Hu & Hd & Hne & Hdec & Hj).
  rewrite (parse_payload _ callback_url u enc enc _ w Hu Hd Hne Hdec Hj).
  set (authData := Json.Object [("displayName", Json.Str "Jane"); ("idToken", Json.Str "abc")]).
  assert (Hcontent0 : profile_of w authData = Bytes.dq "{'displayName':'Jane','bio':''}")
    by (vm_compute; reflexivity).
  assert (Hrun : Main.storing_user_info authData w = (Ok tt, profile_written authData w)).
  { apply storing_user_info_run; [discriminate|]. rewrite Hcontent0. exact Hwrite. }
  destruct (profile_written_frame authData w) as (He1 & _ & Hprofile).
  set (w1 := profile_written authData w) in *.
  change ((Main.storing_user_info ?a;; ?k) w) with
    (match Main.storing_user_info a w with
     | (Ok _, w1) => k w1
     | (Throw e, w1) => (Throw e, w1)
     end).
  rewrite Hrun.
  pose proof (storing_token_returns (SecureTokenManager.new key) authData w1) as Hret.
  assert (Hs1 : fails (env w1) OpStore "idToken" = false) by (now rewrite He1).
  pose proof (storing_token_seals_idToken key "abc"
                [("displayName", Json.Str "Jane"); ("idToken", Json.Str "abc")] w1
                eq_refl Hs1) as Hseal.
  cbv zeta in Hseal. fold authData in Hseal.
  set (w' := snd (Main.storing_token (SecureTokenManager.new key) _ w1)) in *.
  destruct Hseal as (Hf & He & n & Hv).
  assert (Hp : profilePath w' = profilePath w) by (unfold profilePath; now rewrite He, He1).
  assert (Hcontent : data <$> files w' !! profilePath w'
                     = Some (Bytes.dq "{'displayName':'Jane','bio':''}")).
  { rewrite Hp, Hf, Hprofile, Hcontent0. reflexivity. }
  split; [exact Hret|]. split; [exact Hcontent|]. split; [|split].
  - unfold profile_displayName.
    destruct (files w' !! profilePath w') as [f|]; [|discriminate].
    cbn in Hcontent. injection Hcontent as Hdata. cbn [mbind option_bind]. rewrite Hdata.
    vm_compute. reflexivity.
  - cbn [hasToken SecureTokenManager.new]. unfold SecureTokenManager.has. msimpl.
    rewrite Hv. bd_true (mk_is_Some _ _ (eq_refl (Some (mkSealed key n "abc")))). reflexivity.
  - cbn [retrieveToken SecureTokenManager.new]. unfold SecureTokenManager.retrieve. msimpl.
    rewrite Hv. cbn [sealed_key plaintext]. bd_true (eq_refl key). reflexivity.
Qed.

(** The installation with its data directory can take any profile. *)
Lemma installed_profile_writable (content : string) :
  profile_writable installed_world content.
Proof.
  split; [reflexivity|]. split; [vm_compute; reflexivity|].
  split.
  - intros Hin.
    pose proof (proj1 (elem_of_singleton (C := gset string)
                         (profilePath installed_world) "/data") Hin) as Heq.
    discriminate Heq.
  - unfold takes. cbn. apply Nat.ltb_irrefl.
Qed.

Lemma callback_end_to_end_witness :
  let tm := SecureTokenManager.new "k" in
  let w' := snd (Main.parseAuthDataFromUrl tm callback_url installed_world) in
  profile_displayName w' = Some (Json.Str "Jane") /\
  hasToken tm "idToken" w' = (Ok true, w') /\
  retrieveToken tm "idToken" w' = (Ok (Some "abc"), w').
Proof.
  cbv zeta.
  destruct (callback_end_to_end "k" installed_world (installed_profile_writable _) eq_refl)
    as (_ & _ & Hname & Hhas & Hget).
  split; [exact Hname|]. split; [exact Hhas | exact Hget].
Defined.

(** ** Further properties *)

(** The state half of C1 holds on concrete malformed callbacks too. *)
Lemma malformed_callback_keeps_state_witness :
  let tm := SecureTokenManager.new "k" in
  let after url := snd (Main.parseAuthDataFromUrl tm url logged_in_world) in
  (files (after not_a_url) = files logged_in_world /\
   vault (after not_a_url) = vault logged_in_world) /\
  (files (after url_without_data) = files logged_in_world /\
   vault (after url_without_data) = vault logged_in_world) /\
  (files (after url_with_bad_json) = files logged_in_world /\
   vault (after url_with_bad_json) = vault logged_in_world).
Proof.
  cbv beta zeta. split; [|split].
  - destruct (malformed_callback_keeps_state (SecureTokenManager.new "k") not_a_url
                logged_in_world) as (Hf & Hv & _); [|split; [exact Hf | exact Hv]].
    left. vm_compute. reflexivity.
  - destruct (malformed_callback_keeps_state (SecureTokenManager.new "k") url_without_data
                logged_in_world) as (Hf & Hv & _); [|split; [exact Hf | exact Hv]].
    right. eexists. split; [vm_compute; reflexivity|]. left. vm_compute. reflexivity.
  - destruct (malformed_callback_keeps_state (SecureTokenManager.new "k") url_with_bad_json
                logged_in_world) as (Hf & Hv & _); [|split; [exact Hf | exact Hv]].
    right. eexists. split; [vm_compute; reflexivity|]. right.
    eexists. split; [vm_compute; reflexivity|]. split; [discriminate|]. right.
    eexists. split; [vm_compute; reflexivity | vm_compute; reflexivity].
Defined.

(** X2.  The payload is decoded twice: [searchParams.get] has already undone the
    percent-encoding when [decodeURIComponent] is applied.  A payload whose
    JSON text holds a percent sign is therefore refused with a [URIError],
    although the value that [searchParams.get] returned is a JSON text. *)
Theorem percent_in_payload_is_rejected (tm : TokenManager) (w : World) :
  (exists u enc v,
     Url.parse (parses_host (env w)) url_with_percent = Some u /\
     Url.search_params_get u "data" = Some enc /\
     Json.parse enc = Some v) /\
  Main.parseAuthDataFromUrl tm url_with_percent w = (Throw (URIError "URI malformed"), w).
Proof.
  split.
  - eexists _, _, _. split; [vm_compute; reflexivity|].
    split; [vm_compute; reflexivity | vm_compute; reflexivity].
  - apply (parse_malformed_escape tm url_with_percent
             (Url.mk "appname" "//auth"
                (Some "data=%7B%22displayName%22%3A%22100%25%22%7D") None)
             (Bytes.dq "{'displayName':'100%'}"));
      try (vm_compute; reflexivity). vm_compute. discriminate.
Qed.

(** X3.  Across restarts: two launches that read the same key from the key
    file build their token manager with the same derived key. *)
Theorem same_key_file_same_token_manager
    (new : string -> TokenManager) (w1 w2 : World) (f1 f2 : File) :
  files w1 !! keyFilePath w1 = Some f1 ->
  files w2 !! keyFilePath w2 = Some f2 ->
  fails (env w1) OpRead (keyFilePath w1) = false ->
  fails (env w2) OpRead (keyFilePath w2) = false ->
  Js.trim (data f1) = Js.trim (data f2) ->
  exists p1 w1' p2 w2',
    Main.main new w1 = (Ok p1, w1') /\ Main.main new w2 = (Ok p2, w2') /\
    Main.tokenManager p1 = new (derived (Js.trim (data f1))) /\
    Main.tokenManager p2 = Main.tokenManager p1.
Proof.
  intros Hf1 Hf2 Hr1 Hr2 Heq.
  rewrite !main_run.
  rewrite (getPersistentMasterKey_existing (booted w1) f1 Hf1 Hr1).
  rewrite (getPersistentMasterKey_existing (booted w2) f2 Hf2 Hr2).
  eexists _, _, _, _. split; [reflexivity|]. split; [reflexivity|].
  cbn [Main.tokenManager]. split; [reflexivity|]. now rewrite Heq.
Qed.

Lemma same_key_file_same_token_manager_witness :
  exists p1 w1' p2 w2',
    Main.main SecureTokenManager.new installed_world = (Ok p1, w1') /\
    Main.main SecureTokenManager.new logged_in_world = (Ok p2, w2') /\
    Main.tokenManager p1 = SecureTokenManager.new (derived "00ff") /\
    Main.tokenManager p2 = Main.tokenManager p1.
Proof.
  exact (same_key_file_same_token_manager SecureTokenManager.new
           installed_world logged_in_world
           (mkFile (String (Bytes.to_ascii 10) "00ff" +:+ " ") 384)
           (mkFile (String (Bytes.to_ascii 10) "00ff" +:+ " ") 384)
           eq_refl eq_refl eq_refl eq_refl eq_refl).
Defined.

(** ** More on the master key *)

Lemma of_to_ascii (b : Z) : 0 <= b < 256 -> Bytes.of_ascii (Bytes.to_ascii b) = b.
Proof.
  intros H. unfold Bytes.of_ascii, Bytes.to_ascii.
  rewrite Z.mod_small by lia. rewrite N_ascii_embedding; [lia|].
  apply N2Z.inj_lt. rewrite Z2N.id by lia. lia.
Qed.

Lemma of_ascii_range (c : ascii) : 0 <= Bytes.of_ascii c < 256.
Proof.
  unfold Bytes.of_ascii. pose proof (N_ascii_bounded c). lia.
Qed.

Lemma to_of_ascii (c : ascii) : Bytes.to_ascii (Bytes.of_ascii c) = c.
Proof.
  unfold Bytes.to_ascii. rewrite Z.mod_small by apply of_ascii_range.
  unfold Bytes.of_ascii. rewrite N2Z.id. apply ascii_N_embedding.
Qed.

Lemma to_of_string (s : string) : Bytes.to_string (Bytes.of_string s) = s.
Proof.
  induction s as [|c s IH]; cbn [Bytes.of_string Bytes.to_string]; [reflexivity|].
  now rewrite to_of_ascii, IH.
Qed.

Lemma hex_digit_lower (n : Z) : 0 <= n < 16 -> is_lower_hex (Bytes.hex_digit n) = true.
Proof.
  intros H. rewrite <- (Z2Nat.id n) by lia.
  assert (Hk : (Z.to_nat n < 16)%nat) by lia.
  revert Hk. generalize (Z.to_nat n) as k. intros k Hk.
  do 16 (destruct k as [|k]; [reflexivity|]). lia.
Qed.

Lemma high_nibble_range (b : Z) : 0 <= Z.shiftr (b mod 256) 4 < 16.
Proof.
  rewrite Z.shiftr_div_pow2 by lia. change (2 ^ 4) with 16.
  pose proof (Z.mod_pos_bound b 256 ltac:(lia)).
  split; [apply Z.div_pos; lia | apply Z.div_lt_upper_bound; lia].
Qed.

Lemma low_nibble_range (b : Z) : 0 <= Z.land b 15 < 16.
Proof.
  change 15 with (Z.ones 4). rewrite Z.land_ones by lia.
  apply Z.mod_pos_bound. lia.
Qed.

(** [Buffer.toString("hex")] gives lower-case hexadecimal digits only. *)
Lemma hex_lower (bs : list Z) :
  Forall (fun c => is_lower_hex c = true) (list_ascii_of_string (Bytes.hex bs)).
Proof.
  induction bs as [|b bs IH]; cbn [Bytes.hex list_ascii_of_string]; [constructor|].
  repeat constructor;
    [apply hex_digit_lower, high_nibble_range | apply hex_digit_lower, low_nibble_range | exact IH].
Qed.







(** White space is stripped from a text only: a byte of ASCII that is no
    white space at the head stops the stripping, in either direction. *)
Lemma strip_plain (backwards : bool) (a : Z) (r : list Z) :
  is_plain_byte a -> Js.strip backwards (a :: r) = a :: r.
Proof.
  intros [Ha Hs]. cbn [Js.strip]. rewrite Hs.
  destruct r as [|b [|c r3]]; try reflexivity.
  - destruct backwards; unfold Js.is_space2;
      [replace (a =? 160) with false by (symmetry; apply Z.eqb_neq; lia);
       now rewrite andb_false_r
      |replace (a =? 194) with false by (symmetry; apply Z.eqb_neq; lia); reflexivity].
  - assert (H2 : forall x, Js.is_space2 x a = false).
    { intros x. unfold Js.is_space2.
      replace (a =? 160) with false by (symmetry; apply Z.eqb_neq; lia).
      apply andb_false_r. }
    assert (H2' : forall x, Js.is_space2 a x = false).
    { intros x. unfold Js.is_space2.
      replace (a =? 194) with false by (symmetry; apply Z.eqb_neq; lia). reflexivity. }
    assert (H3 : forall x y, Js.is_space3 x y a = false).
    { intros x y. unfold Js.is_space3.
      repeat match goal with
             | |- context [a =? ?k] =>
                 replace (a =? k) with false by (symmetry; apply Z.eqb_neq; lia)
             | |- context [?k <=? a] =>
                 replace (k <=? a) with false by (symmetry; apply Z.leb_gt; lia)
             end.
      cbn [andb orb]. now rewrite !andb_false_r. }
    assert (H3' : forall x y, Js.is_space3 a x y = false).
    { intros x y. unfold Js.is_space3.
      repeat match goal with
             | |- context [a =? ?k] =>
                 replace (a =? k) with false by (symmetry; apply Z.eqb_neq; lia)
             end.
      reflexivity. }
    destruct backwards; rewrite ?H2, ?H2', ?H3, ?H3'; reflexivity.
Qed.

Lemma strip_all_plain (backwards : bool) (l : list Z) :
  Forall is_plain_byte l -> Js.strip backwards l = l.
Proof. intros H. destruct H as [|a r Ha _]; [reflexivity | now apply strip_plain]. Qed.

Lemma strip_blank (l : list Z) :
  Forall (fun b => Js.is_ascii_space b = true) l -> Js.strip false l = [].
Proof.
  induction 1 as [|a r Ha _ IH]; [reflexivity|]. cbn [Js.strip]. now rewrite Ha.
Qed.

(** [trim] leaves a text of plain ASCII without white space as it is, and
    empties a text of ASCII white space. *)
Lemma trim_plain (s : string) :
  Forall is_plain_byte (Bytes.of_string s) -> Js.trim s = s.
Proof.
  intros H. unfold Js.trim.
  rewrite (strip_all_plain false _ H).
  rewrite (strip_all_plain true); [|now apply Forall_rev].
  now rewrite rev_involutive, to_of_string.
Qed.

Lemma trim_blank (s : string) :
  Forall (fun b => Js.is_ascii_space b = true) (Bytes.of_string s) -> Js.trim s = "".
Proof. intros H. unfold Js.trim. now rewrite (strip_blank _ H). Qed.

Lemma lower_hex_plain (c : ascii) : is_lower_hex c = true -> is_plain_byte (Bytes.of_ascii c).
Proof.
  unfold is_lower_hex, is_plain_byte. intros H.
  assert (Hr : 48 <= Bytes.of_ascii c <= 57 \/ 97 <= Bytes.of_ascii c <= 102) by lia.
  split; [lia|]. unfold Js.is_ascii_space. apply bool_decide_eq_false_2.
  rewrite !elem_of_cons, elem_of_nil. lia.
Qed.

Lemma of_string_list (s : string) :
  Bytes.of_string s = Bytes.of_ascii <$> list_ascii_of_string s.
Proof.
  induction s as [|c s IH]; cbn [Bytes.of_string list_ascii_of_string fmap list_fmap];
    [reflexivity | now rewrite IH].
Qed.

Lemma trim_hex (bs : list Z) : Js.trim (Bytes.hex bs) = Bytes.hex bs.
Proof.
  apply trim_plain. rewrite of_string_list. apply Forall_fmap.
  eapply Forall_impl; [apply hex_lower|]. intros c Hc. now apply lower_hex_plain.
Qed.

(** X5.  The master key is persistent: when [getPersistentMasterKey] has
    created the key file, the next call (the next launch) that can read the
    file returns the very same key and changes nothing; the white space that
    [trim] removes never is part of a generated key. *)
Theorem master_key_persists (w : World) :
  files w !! keyFilePath w = None ->
  keyFilePath w ∉ dirs w ->
  fails (env w) OpMkdir (userData (env w)) = false ->
  files w !! userData (env w) = None ->
  fails (env w) OpWrite (keyFilePath w) = false ->
  takes (env w) (keyFilePath w) (fresh_key w) ->
  fails (env w) OpRead (keyFilePath w) = false ->
  exists key w',
    SecureMasterKeyManager.getPersistentMasterKey w = (Ok key, w') /\
    SecureMasterKeyManager.getPersistentMasterKey w' = (Ok key, w').
Proof.
  intros Hf Hd Hm Hu Hw Ht Hr.
  rewrite (getPersistentMasterKey_created w Hf Hd Hm Hu Hw Ht).
  eexists _, _. split; [reflexivity|].
  rewrite (getPersistentMasterKey_existing _
             (mkFile (fresh_key w) SecureMasterKeyManager.mode_0o600)).
  - cbn [data]. unfold fresh_key. now rewrite trim_hex.
  - msimpl. apply lookup_insert_eq.
  - exact Hr.
Qed.

Lemma master_key_persists_witness :
  exists key w',
    SecureMasterKeyManager.getPersistentMasterKey fresh_world = (Ok key, w') /\
    SecureMasterKeyManager.getPersistentMasterKey w' = (Ok key, w').
Proof.
  exact (master_key_persists fresh_world eq_refl (not_elem_of_empty _)
           eq_refl eq_refl eq_refl eq_refl eq_refl).
Defined.

(** X6.  An existing key file is never regenerated, whatever it holds: when
    it is empty or holds ASCII white space only, [getPersistentMasterKey]
    returns the empty string as the master key and leaves the file as it
    is. *)
Theorem blank_key_file_gives_empty_key (w : World) (f : File) :
  files w !! keyFilePath w = Some f ->
  fails (env w) OpRead (keyFilePath w) = false ->
  Forall (fun b => Js.is_ascii_space b = true) (Bytes.of_string (data f)) ->
  SecureMasterKeyManager.getPersistentMasterKey w = (Ok "", w).
Proof.
  intros Hf Hr Hb.
  rewrite (getPersistentMasterKey_existing w f Hf Hr). now rewrite (trim_blank _ Hb).
Qed.

Lemma blank_key_file_gives_empty_key_witness :
  let w := set_files (fun _ => {["/data/app-secret.key" :=
                                   mkFile (String (Bytes.to_ascii 10) " ") 384]})
             fresh_world in
  SecureMasterKeyManager.getPersistentMasterKey w = (Ok "", w).
Proof.
  cbv zeta.
  apply (blank_key_file_gives_empty_key _ (mkFile (String (Bytes.to_ascii 10) " ") 384));
    [reflexivity | reflexivity |].
  repeat constructor.
Defined.

(** X7.  [getPersistentMasterKey] never overwrites or removes a file: every
    file that existed is still there with its content and mode, and no path
    but the key file's is given a file.  When the call throws, the error is
    always the one of its [catch] block and the cause has been logged last;
    the files are then as they were, unless there was no key file and the
    disk filled up while the new key was written: that leaves a key file
    with the part of the key that the disk took, less than the 128
    digits. *)
Theorem getPersistentMasterKey_keeps_files (w : World) :
  let r := SecureMasterKeyManager.getPersistentMasterKey w in
  files w ⊆ files (snd r) /\
  (forall p, p <> keyFilePath w -> files (snd r) !! p = files w !! p) /\
  (forall e, fst r = Throw e ->
     e = KeyStorageError /\
     (exists cause,
        last (trace (snd r)) = Some (ConsoleError "Failed to manage master key:" cause)) /\
     (files (snd r) = files w \/
      files w !! keyFilePath w = None /\
      exists n, space (env w) (keyFilePath w) = Some n /\ (n < 128)%nat /\
        files (snd r) = <[keyFilePath w :=
                            mkFile (String.substring 0 n (fresh_key w))
                              SecureMasterKeyManager.mode_0o600]> (files w))).
Proof.
  cbv zeta. destruct (key_unavailable_dec w) as [H|H].
  - destruct (getPersistentMasterKey_unavailable w H)
      as (w0 & cause & events & Hrun & _ & _ & _ & Hf).
    rewrite Hrun. cbn [fst snd].
    change (files (traced ?e w0)) with (files w0).
    split; [|split].
    + destruct Hf as [->|(Hnone & n & _ & _ & ->)]; [reflexivity|].
      apply insert_subseteq. exact Hnone.
    + intros p Hp. destruct Hf as [->|(Hnone & n & _ & _ & ->)]; [reflexivity|].
      apply lookup_insert_ne. congruence.
    + intros e He. injection He as <-. split; [reflexivity|].
      split; [exists cause; apply last_snoc | exact Hf].
  - destruct (getPersistentMasterKey_available w H) as (k & w' & Hrun & Hf).
    rewrite Hrun. cbn [fst snd]. split; [|split].
    + destruct Hf as [->|(Hnone & ->)]; [reflexivity|].
      apply insert_subseteq. exact Hnone.
    + intros p Hp. destruct Hf as [->|(Hnone & ->)]; [reflexivity|].
      apply lookup_insert_ne. congruence.
    + intros e He. discriminate He.
Qed.

(** ** More on the entry script *)

(** [getPersistentMasterKey] only adds to the trace, and only calls of
    [mkdirSync], [writeFileSync] and [console.error]. *)
Lemma getPersistentMasterKey_trace (w : World) :
  exists evs,
    trace (snd (SecureMasterKeyManager.getPersistentMasterKey w)) = trace w ++ evs /\
    Forall (fun e => is_key_storage_event e = true) evs.
Proof.
  unfold SecureMasterKeyManager.getPersistentMasterKey.
  rewrite generateMasterKey_default.
  mcases; cbn [snd]; msimpl; rewrite <- ?app_assoc;
    first [ eexists; split; [reflexivity | repeat constructor]
          | exists []; split; [now rewrite app_nil_r | constructor] ].
Qed.

(** The trace of a launch that completes: the registrations that open the
    script, what obtaining the master key added, and the rest of the
    script. *)
Lemma main_trace (new : string -> TokenManager) (w : World) (p : Main.Process) (w' : World) :
  Main.main new w = (Ok p, w') ->
  exists evs,
    Forall (fun e => is_key_storage_event e = true) evs /\
    Main.gotTheLock p = negb (lock_taken (env w)) /\
    quitting w' = (lock_taken (env w) || quitting w) /\
    added w w' =
      [RegisterHandlers "user"; RegisterHandlers "file"; RegisterHandlers "ai";
       RegisterHandlers "settings"; AppOn "window-all-closed"; AppOn "activate"] ++
      evs ++ [IpcHandle "check-auth"; IpcHandle "logout"] ++ protocol_events (env w) ++
      [AppWhenReady; RequestLock] ++
      (if lock_taken (env w) then [AppQuit] else [AppOn "second-instance"]) ++
      [AppOn "open-url"].
Proof.
  rewrite main_run. intros Hrun.
  destruct (getPersistentMasterKey_trace (booted w)) as (evs & Ht & Hevs).
  pose proof (getPersistentMasterKey_frame (booted w)) as Hframe. cbv zeta in Hframe.
  destruct (SecureMasterKeyManager.getPersistentMasterKey (booted w)) as [[masterKey|e] w1];
    [|discriminate Hrun].
  cbn [snd] in *. destruct Hframe as (He & _ & _ & _ & Hq & _).
  change (env (booted w)) with (env w) in He.
  change (quitting (booted w)) with (quitting w) in Hq.
  inversion Hrun; subst p w'. clear Hrun. cbn [Main.gotTheLock].
  destruct (launched_frame w1) as (_ & _ & _ & _ & Hq' & Ht').
  rewrite He in *. rewrite Hq in Hq'.
  exists evs. split; [exact Hevs|]. split; [reflexivity|]. split; [exact Hq'|].
  unfold added. rewrite Ht', Ht.
  change (trace (booted w)) with
    ((((((trace w ++ [RegisterHandlers "user"]) ++ [RegisterHandlers "file"]) ++
          [RegisterHandlers "ai"]) ++ [RegisterHandlers "settings"]) ++
        [AppOn "window-all-closed"]) ++ [AppOn "activate"]).
  rewrite <- !app_assoc. rewrite drop_app_length. reflexivity.
Qed.

Lemma installed_launch :
  Main.main SecureTokenManager.new installed_world =
    (Ok (Main.mkProcess (SecureTokenManager.new (derived "00ff")) true),
     launched (booted installed_world)).
Proof.
  rewrite main_run.
  rewrite (getPersistentMasterKey_existing (booted installed_world)
             (mkFile (String (Bytes.to_ascii 10) "00ff" +:+ " ") 384) eq_refl eq_refl).
  reflexivity.
Qed.

Lemma key_storage_event_in (e : Event) (evs : list Event) :
  Forall (fun e => is_key_storage_event e = true) evs ->
  e ∈ evs -> is_key_storage_event e = true.
Proof. intros H Hin. rewrite Forall_forall in H. exact (H e Hin). Qed.

Lemma protocol_event_in (e : Event) (env : Env) :
  e ∈ protocol_events env -> is_protocol_event e = true.
Proof.
  unfold protocol_events.
  destruct (defaultApp env); [destruct (argv env) as [|a0 [|a1 rest]]|];
    rewrite ?elem_of_cons, ?elem_of_nil; intros H;
    repeat match goal with H : _ \/ _ |- _ => destruct H as [H|H] end;
    subst; try contradiction; reflexivity.
Qed.

(** X8.  The single-instance lock decides how a launch that completes goes
    on: the process has the lock exactly when no other instance holds it;
    the [second-instance] handler is registered exactly when the lock was
    obtained and [app.quit()] is called exactly when it was refused; the
    lock is requested and the [open-url] listener is registered in either
    case. *)
Theorem launch_lock_decides
    (new : string -> TokenManager) (w : World) (p : Main.Process) (w' : World) :
  Main.main new w = (Ok p, w') ->
  Main.gotTheLock p = negb (lock_taken (env w)) /\
  (AppOn "second-instance" ∈ added w w' <-> Main.gotTheLock p = true) /\
  (AppQuit ∈ added w w' <-> Main.gotTheLock p = false) /\
  RequestLock ∈ added w w' /\
  AppOn "open-url" ∈ added w w' /\
  quitting w' = (negb (Main.gotTheLock p) || quitting w).
Proof.
  intros Hrun. destruct (main_trace new w p w' Hrun) as (evs & Hevs & Hlock & Hq & Ht).
  rewrite Ht, Hlock, Hq, negb_involutive.
  assert (Hk : forall e, is_key_storage_event e = false -> e ∉ evs).
  { intros e He Hin. rewrite (key_storage_event_in e evs Hevs Hin) in He. discriminate. }
  assert (Hp : forall e, is_protocol_event e = false -> e ∉ protocol_events (env w)).
  { intros e He Hin. rewrite (protocol_event_in e _ Hin) in He. discriminate. }
  split; [reflexivity|].
  assert (Hno : forall e,
            is_key_storage_event e = false -> is_protocol_event e = false ->
            forall l1 l2 l3 : list Event,
              e ∈ l1 ++ evs ++ l2 ++ protocol_events (env w) ++ l3 ->
              e ∈ l1 ++ l2 ++ l3).
  { intros e He1 He2 l1 l2 l3. rewrite !elem_of_app.
    intros [H|[H|[H|[H|H]]]]; auto; [destruct (Hk e He1 H) | destruct (Hp e He2 H)]. }
  destruct (lock_taken (env w)); cbn [negb orb].
  - split; [split; [intros H; apply Hno in H; [|reflexivity|reflexivity] | discriminate]|].
    + cbn [app] in H. rewrite !elem_of_cons, elem_of_nil in H.
      repeat destruct H as [H|H]; try discriminate H; destruct H.
    + split; [split; [reflexivity | intros _]|]; [|split; [|split; [|reflexivity]]];
        rewrite !elem_of_app, !elem_of_cons; auto 20.
  - split; [split; [reflexivity | intros _]|].
    + rewrite !elem_of_app, !elem_of_cons; auto 20.
    + split; [split; [intros H; apply Hno in H; [|reflexivity|reflexivity] | discriminate]|].
      * cbn [app] in H. rewrite !elem_of_cons, elem_of_nil in H.
        repeat destruct H as [H|H]; try discriminate H; destruct H.
      * split; [|split; [|reflexivity]]; rewrite !elem_of_app, !elem_of_cons; auto 20.
Qed.

Lemma launch_lock_decides_witness :
  exists p w',
    Main.main SecureTokenManager.new installed_world = (Ok p, w') /\
    Main.gotTheLock p = true /\ quitting w' = false /\
    AppOn "second-instance" ∈ added installed_world w'.
Proof.
  eexists _, _. split; [exact installed_launch|].
  destruct (launch_lock_decides _ _ _ _ installed_launch) as (Hl & Hs & _ & _ & _ & Hq).
  split; [exact Hl|]. split; [exact Hq|]. apply Hs. exact Hl.
Defined.

(** X9.  The custom protocol is registered before [app.whenReady()] is
    called and at most once: what a launch that completes adds to the trace
    holds the registration just before [AppWhenReady] and nowhere else.  No
    registration is made exactly when the process runs as the default app
    with fewer than two arguments. *)
Theorem protocol_registered_before_ready
    (new : string -> TokenManager) (w : World) (p : Main.Process) (w' : World) :
  Main.main new w = (Ok p, w') ->
  (exists before after,
     added w w' = before ++ protocol_events (env w) ++ AppWhenReady :: after /\
     Forall (fun e => is_protocol_event e = false) before /\
     Forall (fun e => is_protocol_event e = false) after /\
     AppWhenReady ∉ before) /\
  (length (protocol_events (env w)) <= 1)%nat /\
  (protocol_events (env w) = [] <->
   defaultApp (env w) = true /\ (length (argv (env w)) < 2)%nat).
Proof.
  intros Hrun. destruct (main_trace new w p w' Hrun) as (evs & Hevs & _ & _ & Ht).
  split; [|split].
  - exists ([RegisterHandlers "user"; RegisterHandlers "file"; RegisterHandlers "ai";
             RegisterHandlers "settings"; AppOn "window-all-closed"; AppOn "activate"] ++
            evs ++ [IpcHandle "check-auth"; IpcHandle "logout"]),
           ([RequestLock] ++
            (if lock_taken (env w) then [AppQuit] else [AppOn "second-instance"]) ++
            [AppOn "open-url"]).
    split; [rewrite Ht, <- !app_assoc; reflexivity|].
    assert (Hk : Forall (fun e => is_protocol_event e = false) evs).
    { eapply Forall_impl; [exact Hevs|]. intros [] He; try discriminate He; reflexivity. }
    split; [|split].
    + repeat (apply Forall_cons; split; [reflexivity|]).
      apply Forall_app. split; [exact Hk | repeat constructor].
    + destruct (lock_taken (env w)); repeat constructor.
    + rewrite !elem_of_app, !elem_of_cons, !elem_of_nil. intros H.
      repeat match goal with H : _ \/ _ |- _ => destruct H as [H|H] end;
        try discriminate; try contradiction.
      pose proof (key_storage_event_in _ _ Hevs H) as Hf. discriminate Hf.
  - unfold protocol_events.
    destruct (defaultApp (env w)); [destruct (argv (env w)) as [|a0 [|a1 rest]]|];
      cbn [length]; lia.
  - unfold protocol_events.
    destruct (defaultApp (env w)); [destruct (argv (env w)) as [|a0 [|a1 rest]]|];
      cbn [length]; split; try discriminate; try (intros _; split; [reflexivity | lia]);
      intros [Hd Hl]; try discriminate; first [reflexivity | cbn [length] in Hl; lia].
Qed.

Lemma protocol_registered_before_ready_witness :
  exists p w' before after,
    Main.main SecureTokenManager.new installed_world = (Ok p, w') /\
    added installed_world w' =
      before ++ [SetProtocolClient "pinac-workspace" []] ++ AppWhenReady :: after /\
    AppWhenReady ∉ before.
Proof.
  destruct (protocol_registered_before_ready _ _ _ _ installed_launch)
    as ((before & after & Ht & _ & _ & Hb) & _ & _).
  eexists _, _, before, after. split; [exact installed_launch|].
  split; [exact Ht | exact Hb].
Defined.

(** X28.  Closing all windows: on macOS ([darwin]) nothing happens, the
    application goes on and keeps its window variable; elsewhere the
    application is asked to quit and the window variable is cleared, and
    nothing else changes.  A [second-instance] event that still arrives
    afterwards raises no window and hands its URL to the callback handler
    as it is. *)
Theorem closing_all_windows (tm : TokenManager) (w : World) :
  (platform (env w) = "darwin" -> Main.window_all_closed w = (Ok tt, w)) /\
  (platform (env w) <> "darwin" ->
   exists w1,
     Main.window_all_closed w = (Ok tt, w1) /\
     quitting w1 = true /\ mainWindow w1 = None /\ trace w1 = trace w ++ [AppQuit] /\
     files w1 = files w /\ vault w1 = vault w /\ pending w1 = pending w /\
     forall commandLine url,
       last commandLine = Some url -> url <> "" ->
       Main.second_instance tm commandLine w1 = Main.parseAuthDataFromUrl tm url w1).
Proof.
  unfold Main.window_all_closed, Main.app_quit. msimpl. split; intros Hp.
  - bd_false (fun H : platform (env w) <> "darwin" => H Hp). reflexivity.
  - bd_true Hp. eexists. split; [reflexivity|]. msimpl.
    repeat (split; [reflexivity|]).
    intros commandLine url Hlast Hurl.
    unfold Main.second_instance, Main.if_truthy. msimpl.
    rewrite Hlast. cbn [Js.truthy default]. bd_false Hurl. reflexivity.
Qed.

(** ** More on the callback handler *)

Lemma payload_run (tm : TokenManager) (url : string) (authData : Json.value) (w : World) :
  payload w url = Some authData ->
  Main.parseAuthDataFromUrl tm url w =
    (Main.storing_user_info authData;; Main.storing_token tm authData) w.
Proof.
  unfold payload. intros H.
  destruct (Url.parse (parses_host (env w)) url) as [u|] eqn:Hu; [|discriminate H].
  cbn [mbind option_bind] in H.
  destruct (Url.search_params_get u "data") as [enc|] eqn:Hd; [|discriminate H].
  cbn [mbind option_bind] in H.
  destruct (bool_decide (enc = "")) eqn:Hne; [discriminate H|].
  apply bool_decide_eq_false_1 in Hne.
  destruct (Url.decodeURIComponent enc) as [dec|] eqn:Hdec; [|discriminate H].
  cbn [mbind option_bind] in H.
  exact (parse_payload tm url u enc dec authData w Hu Hd Hne Hdec H).
Qed.

(** X10.  A callback whose payload is the JSON text [null] ends in a
    [TypeError]: reading [displayName] of [null] throws outside any [try];
    no dialog is shown and nothing is changed, whatever the token
    manager. *)
Theorem null_payload_throws_type_error (tm : TokenManager) (url : string) (w : World) :
  payload w url = Some Json.Null ->
  Main.parseAuthDataFromUrl tm url w =
    (Throw (TypeError "Cannot read properties of null (reading 'displayName')"), w).
Proof. intros H. rewrite (payload_run tm url Json.Null w H). reflexivity. Qed.

Lemma null_payload_throws_type_error_witness :
  Main.parseAuthDataFromUrl (SecureTokenManager.new "k") url_with_null logged_in_world =
    (Throw (TypeError "Cannot read properties of null (reading 'displayName')"),
     logged_in_world).
Proof.
  apply (null_payload_throws_type_error _ url_with_null). vm_compute. reflexivity.
Defined.

(** The two blocks of the callback handler, one after the other. *)
Lemma blocks_run (tm : TokenManager) (authData : Json.value) (w : World) :
  (Main.storing_user_info authData;; Main.storing_token tm authData) w =
    match Main.storing_user_info authData w with
    | (Ok _, w1) => Main.storing_token tm authData w1
    | (Throw e, w1) => (Throw e, w1)
    end.
Proof. reflexivity. Qed.

(** X11.  With any payload but [null], and a profile that can be written
    (the system does not refuse to open the file, its directory is there,
    no directory is in its place, the disk takes the text), the callback
    handler returns normally whatever the token manager does: the profile
    (the [displayName], [email] and [photoUrl] of the payload that are
    there, and an empty [bio]) is written first, over the profile of an
    earlier session, and the token block, which cannot throw, runs in the
    world that holds it.  A payload that is no object leaves a profile with
    the empty [bio] only. *)
Theorem callback_writes_profile_then_tokens
    (tm : TokenManager) (url : string) (authData : Json.value) (w : World) :
  payload w url = Some authData -> authData <> Json.Null ->
  profile_writable w (profile_of w authData) ->
  Main.parseAuthDataFromUrl tm url w =
    (Ok tt, snd (Main.storing_token tm authData (profile_written authData w))) /\
  data <$> files (profile_written authData w) !! profilePath w = Some (profile_of w authData) /\
  ((forall members, authData <> Json.Object members) ->
   profile_of w authData = Bytes.dq "{'bio':''}").
Proof.
  intros Hp Hv Hok. split; [|split].
  - rewrite (payload_run tm url authData w Hp), blocks_run.
    rewrite (storing_user_info_run authData w Hv Hok).
    pose proof (storing_token_returns tm authData (profile_written authData w)) as Hret.
    destruct (Main.storing_token tm authData _) as [r w1] eqn:Hrun.
    cbn [fst snd] in *. now rewrite Hret.
  - apply profile_written_frame.
  - intros Hno. destruct authData; try reflexivity. destruct (Hno _ eq_refl).
Qed.

Lemma callback_writes_profile_then_tokens_witness :
  fst (Main.parseAuthDataFromUrl (SecureTokenManager.new "k") url_with_number
         logged_in_world) = Ok tt /\
  data <$> files (profile_written (Json.Number "5") logged_in_world) !! "/data/user-info.json" =
    Some (Bytes.dq "{'bio':''}").
Proof.
  assert (Hp : payload logged_in_world url_with_number = Some (Json.Number "5"))
    by (vm_compute; reflexivity).
  destruct (callback_writes_profile_then_tokens (SecureTokenManager.new "k")
              url_with_number (Json.Number "5") logged_in_world Hp)
    as (Hrun & Hfile & Hbio).
  - discriminate.
  - split; [reflexivity|]. split; [vm_compute; reflexivity|]. split.
    + intros Hin.
      pose proof (proj1 (elem_of_singleton (C := gset string)
                           (profilePath logged_in_world) "/data") Hin) as Heq.
      discriminate Heq.
    + vm_compute. reflexivity.
  - split; [now rewrite Hrun|].
    change (profilePath logged_in_world) with "/data/user-info.json" in Hfile.
    rewrite Hfile, Hbio; [reflexivity | discriminate].
Defined.

(** X12.  When the profile cannot be written (the system refuses to open
    the file, its directory is missing or is a file, the path is a
    directory, or the disk fills up), the callback handler throws the error
    of [writeFileSync] as it is: the write is outside any [try].  The token
    block is never reached: the call of [writeFileSync] is all that the
    trace gains, so the token manager is not called, no secret is stored
    and the window is not reloaded, although the payload was valid.  The
    files are as they were, unless the disk filled up: then the profile
    file holds the part of the new profile that the disk took. *)
Theorem refused_profile_write_stores_nothing
    (tm : TokenManager) (url : string) (authData : Json.value) (w : World) :
  payload w url = Some authData -> authData <> Json.Null ->
  ~ profile_writable w (profile_of w authData) ->
  exists code w1,
    Main.parseAuthDataFromUrl tm url w = (Throw (SystemError code (profilePath w)), w1) /\
    trace w1 = trace w ++ [FsWriteFile (profilePath w)] /\
    vault w1 = vault w /\ mainWindow w1 = mainWindow w /\
    (files w1 = files w \/
     exists n,
       space (env w) (profilePath w) = Some n /\
       (n < String.length (profile_of w authData))%nat /\
       files w1 =
         <[profilePath w :=
             mkFile (String.substring 0 n (profile_of w authData))
               (from_option mode fs.mode_0o666 (files w !! profilePath w))]> (files w)).
Proof.
  intros Hp Hv Hno.
  rewrite (payload_run tm url authData w Hp), blocks_run.
  rewrite (storing_user_info_cases authData w Hv). cbv zeta.
  destruct (fails (env w) OpWrite (profilePath w)) eqn:Hf;
    [eexists _, _; repeat (split; [reflexivity|]); left; reflexivity|].
  destruct (fs.parent_error (profilePath w) w) as [code|] eqn:Hparent;
    [eexists _, _; repeat (split; [reflexivity|]); left; reflexivity|].
  destruct (bool_decide (profilePath w ∈ dirs w)) eqn:Hd;
    [eexists _, _; repeat (split; [reflexivity|]); left; reflexivity|].
  apply bool_decide_eq_false_1 in Hd.
  destruct (space (env w) (profilePath w)) as [n|] eqn:Hs; cbn [default from_option];
    unfold Datatypes.id.
  - destruct (n <? String.length (profile_of w authData))%nat eqn:Hn.
    + eexists _, _. repeat (split; [reflexivity|]). right. exists n.
      split; [reflexivity|]. split; [apply Nat.ltb_lt; exact Hn | reflexivity].
    + destruct Hno. repeat split; try assumption. unfold takes. now rewrite Hs.
  - destruct Hno. repeat split; try assumption. unfold takes. rewrite Hs.
    apply Nat.ltb_irrefl.
Qed.

Lemma refused_profile_write_stores_nothing_witness :
  (let w := refusing OpWrite "/data/user-info.json" logged_in_world in
   exists code w1,
     Main.parseAuthDataFromUrl (SecureTokenManager.new "k") url_with_three_tokens w =
       (Throw (SystemError code "/data/user-info.json"), w1) /\
     vault w1 = vault w /\ files w1 = files w) /\
  (exists w1,
     Main.parseAuthDataFromUrl (SecureTokenManager.new "k") url_with_three_tokens fresh_world =
       (Throw (SystemError "ENOENT" "/data/user-info.json"), w1) /\
     vault w1 = ∅).
Proof.
  split.
  - cbv zeta.
    assert (Hp : payload (refusing OpWrite "/data/user-info.json" logged_in_world)
                   url_with_three_tokens =
                 Some (Json.Object [("idToken", Json.Str "a"); ("refreshToken", Json.Str "b");
                                    ("webApiKey", Json.Str "c")]))
      by (vm_compute; reflexivity).
    destruct (refused_profile_write_stores_nothing (SecureTokenManager.new "k")
                url_with_three_tokens _
                (refusing OpWrite "/data/user-info.json" logged_in_world) Hp)
      as (code & w1 & Hrun & _ & Hv & _ & Hfiles).
    + discriminate.
    + intros (Hok & _). vm_compute in Hok. discriminate Hok.
    + exists code, w1. split; [exact Hrun|]. split; [exact Hv|].
      destruct Hfiles as [Hfiles|(n & Hs & _)]; [exact Hfiles | discriminate Hs].
  - assert (Hp : payload fresh_world url_with_three_tokens =
                 Some (Json.Object [("idToken", Json.Str "a"); ("refreshToken", Json.Str "b");
                                    ("webApiKey", Json.Str "c")]))
      by (vm_compute; reflexivity).
    destruct (refused_profile_write_stores_nothing (SecureTokenManager.new "k")
                url_with_three_tokens _ fresh_world Hp)
      as (code & w1 & Hrun & _ & Hv & _).
    + discriminate.
    + intros (_ & Hparent & _). vm_compute in Hparent. discriminate Hparent.
    + exists w1. split; [|exact Hv].
      rewrite Hrun.
      assert (Hcode : fst (Main.parseAuthDataFromUrl (SecureTokenManager.new "k")
                             url_with_three_tokens fresh_world)
                      = Throw (SystemError "ENOENT" "/data/user-info.json"))
        by (vm_compute; reflexivity).
      rewrite Hrun in Hcode. cbn [fst] in Hcode. now rewrite Hcode.
Defined.

(** ** The attachment context *)

Example parseFilePath_windows :
  Attachment.parseFilePath "C:\Users\me\notes.final.txt" =
  Attachment.mkFileAttachment "notes.final.txt" "C:\Users\me\notes.final.txt" "txt" "notes.final".
Proof. vm_compute. reflexivity. Qed.

Example parseFilePath_dotfile :
  Attachment.parseFilePath "/home/me/.bashrc" =
  Attachment.mkFileAttachment ".bashrc" "/home/me/.bashrc" "" ".bashrc".
Proof. vm_compute. reflexivity. Qed.

(** A text that is empty or ends with a separator. *)
Lemma ends_with_separator_cons (c : ascii) (dir : string) :
  (exists d c0, dir = d +:+ String c0 "" /\ Attachment.is_separator c0 = true) ->
  exists d c0, String c dir = d +:+ String c0 "" /\ Attachment.is_separator c0 = true.
Proof. intros (d & c0 & -> & Hc). exists (String c d), c0. split; [reflexivity | exact Hc]. Qed.

Lemma split_structure (s : string) :
  exists dir nm,
    last (Attachment.split s) = Some nm /\ s = dir +:+ nm /\ no_separator nm /\
    ((dir = "" /\ Attachment.split s = [nm]) \/
     ((exists d c, dir = d +:+ String c "" /\ Attachment.is_separator c = true) /\
      exists p q ps, Attachment.split s = p :: q :: ps)).
Proof.
  induction s as [|c r (dir & nm & Hlast & Hr & Hnm & Hcase)].
  - exists "", "". split; [reflexivity|]. split; [reflexivity|]. split; [constructor|].
    left. split; reflexivity.
  - cbn [Attachment.split].
    destruct Hcase as [[Hd Hs]|[Hd (p & q & ps & Hs)]]; rewrite Hs in *;
      destruct (Attachment.is_separator c) eqn:Hc; subst r.
    + subst dir. exists (String c ""), nm.
      split; [exact Hlast|]. split; [reflexivity|]. split; [exact Hnm|]. right.
      split; [exists "", c; split; [reflexivity | exact Hc] | exists "", nm, []; reflexivity].
    + subst dir. exists "", (String c nm).
      split; [reflexivity|]. split; [reflexivity|].
      split; [constructor; [exact Hc | exact Hnm]|]. left. split; reflexivity.
    + exists (String c dir), nm.
      split; [exact Hlast|]. split; [reflexivity|]. split; [exact Hnm|]. right.
      split; [now apply ends_with_separator_cons | exists "", p, (q :: ps); reflexivity].
    + exists (String c dir), nm.
      split; [exact Hlast|]. split; [reflexivity|]. split; [exact Hnm|]. right.
      split; [now apply ends_with_separator_cons | exists (String c p), q, ps; reflexivity].
Qed.

Lemma or_else_name (nm : string) : Js.or_else (Some nm) "" = nm.
Proof. unfold Js.or_else. destruct (bool_decide (nm = "")) eqn:H; [|reflexivity].
  apply bool_decide_eq_true_1 in H. now subst. Qed.

(** A text without separator is the only part of its split. *)
Lemma split_name (nm : string) : no_separator nm -> Attachment.split nm = [nm].
Proof.
  unfold no_separator, chars. induction nm as [|c r IH]; [reflexivity|].
  cbn [list_ascii_of_string Attachment.split]. intros H. inversion H as [|? ? Hc Hr]; subst.
  rewrite Hc, (IH Hr). reflexivity.
Qed.

(** [lastIndexOf] gives the place of the last occurrence. *)
Lemma lastIndexOf_spec (c : ascii) (s : string) :
  (Attachment.lastIndexOf c s = -1 /\ c ∉ chars s) \/
  (exists a b, s = a +:+ String c b /\
     Attachment.lastIndexOf c s = Z.of_nat (String.length a) /\ c ∉ chars b).
Proof.
  unfold chars. induction s as [|x r IH].
  - left. split; [reflexivity | apply not_elem_of_nil].
  - cbn [Attachment.lastIndexOf list_ascii_of_string].
    destruct IH as [[Hi Hno]|(a & b & -> & Hi & Hno)]; rewrite Hi.
    + cbn [Z.leb Z.compare]. destruct (Ascii.eqb_spec x c) as [->|Hne].
      * right. exists "", r. split; [reflexivity|]. split; [reflexivity | exact Hno].
      * left. split; [reflexivity|]. rewrite elem_of_cons. intros [H|H]; [congruence | exact (Hno H)].
    + replace (0 <=? Z.of_nat (String.length a)) with true by (symmetry; apply Z.leb_le; lia).
      right. exists (String x a), b. split; [reflexivity|].
      split; [cbn [String.length]; lia | exact Hno].
Qed.

Lemma substring_prefix (a r : string) :
  String.substring 0 (String.length a) (a +:+ r) = a.
Proof.
  induction a as [|x a IH]; cbn [String.length String.app].
  - destruct r; reflexivity.
  - change (String x a +:+ r) with (String x (a +:+ r)).
    cbn [String.substring]. now rewrite IH.
Qed.

Lemma substring_skip (a r : string) (n m : nat) :
  String.substring (String.length a + n) m (a +:+ r) = String.substring n m r.
Proof. induction a as [|x a IH]; [reflexivity | exact IH]. Qed.

Lemma substring_all (b : string) : String.substring 0 (String.length b) b = b.
Proof. induction b as [|x b IH]; [reflexivity | cbn [String.length String.substring]; now rewrite IH]. Qed.

Lemma substring_before (a b : string) (c : ascii) :
  Attachment.substring (a +:+ String c b) 0 (Some (Z.of_nat (String.length a))) = a.
Proof.
  unfold Attachment.substring. cbn [from_option].
  rewrite string_length_app. cbn [String.length].
  replace (Z.min (Z.max 0 0) _) with 0 by lia.
  replace (Z.min (Z.max (Z.of_nat (String.length a)) 0) _)
    with (Z.of_nat (String.length a)) by lia.
  replace (Z.min 0 _) with 0 by lia.
  replace (Z.max 0 (Z.of_nat (String.length a)) - 0) with (Z.of_nat (String.length a)) by lia.
  rewrite Nat2Z.id. change (Z.to_nat 0) with 0%nat. apply substring_prefix.
Qed.

Lemma substring_after (a b : string) (c : ascii) :
  Attachment.substring (a +:+ String c b) (Z.of_nat (String.length a) + 1) None = b.
Proof.
  unfold Attachment.substring. cbn [from_option].
  rewrite string_length_app. cbn [String.length].
  set (la := String.length a). set (lb := String.length b).
  replace (Z.min (Z.max (Z.of_nat la + 1) 0) (Z.of_nat (la + S lb)))
    with (Z.of_nat (la + 1)) by lia.
  replace (Z.min (Z.of_nat (la + 1)) (Z.of_nat (la + S lb))) with (Z.of_nat (la + 1)) by lia.
  replace (Z.max (Z.of_nat (la + 1)) (Z.of_nat (la + S lb)) - Z.of_nat (la + 1))
    with (Z.of_nat lb) by lia.
  rewrite !Nat2Z.id. subst la lb.
  rewrite (substring_skip a (String c b) 1 (String.length b)).
  cbn [String.substring]. apply substring_all.
Qed.

(** X13.  [parseFilePath] keeps the path as it is, and takes as the name
    what follows the last separator ([/] or [\]): the name holds no
    separator, and the path is the name after a directory part that is
    empty or ends with a separator. *)
Theorem parseFilePath_name (filePath : string) :
  let file := Attachment.parseFilePath filePath in
  Attachment.path file = filePath /\
  no_separator (Attachment.name file) /\
  exists dir,
    filePath = dir +:+ Attachment.name file /\
    (dir = "" \/ exists d c, dir = d +:+ String c "" /\ Attachment.is_separator c = true).
Proof.
  cbv zeta. unfold Attachment.parseFilePath. cbn [Attachment.path Attachment.name].
  destruct (split_structure filePath) as (dir & nm & Hlast & Hp & Hnm & Hcase).
  rewrite Hlast, or_else_name.
  split; [reflexivity|]. split; [exact Hnm|]. exists dir. split; [exact Hp|].
  destruct Hcase as [[-> _]|[Hd _]]; [left; reflexivity | right; exact Hd].
Qed.

(** X14.  The extension is what follows the last dot of the name, unless
    that dot is the first character or there is none: then the extension
    is empty and the name is kept whole (a name such as [.bashrc] has no
    extension).  Otherwise the name is the name without extension, a dot
    and the extension, where the first is not empty and the extension
    holds no dot (and is empty for a name that ends with a dot). *)
Theorem parseFilePath_extension (filePath : string) :
  let file := Attachment.parseFilePath filePath in
  (Attachment.nameWithoutExtension file = Attachment.name file /\
   Attachment.extension file = "" /\
   forall c rest, Attachment.name file = String c rest -> no_dot rest) \/
  (Attachment.name file =
     Attachment.nameWithoutExtension file +:+ "." +:+ Attachment.extension file /\
   Attachment.nameWithoutExtension file <> "" /\
   no_dot (Attachment.extension file)).
Proof.
  cbv zeta. unfold Attachment.parseFilePath.
  cbn [Attachment.name Attachment.extension Attachment.nameWithoutExtension].
  set (nm := Js.or_else (last (Attachment.split filePath)) "").
  destruct (lastIndexOf_spec "." nm) as [[Hi Hno]|(a & b & Hnm & Hi & Hno)]; rewrite Hi.
  - left. cbn [Z.ltb Z.compare]. split; [reflexivity|]. split; [reflexivity|].
    intros c rest Heq. rewrite Heq in Hno. unfold no_dot, chars in *.
    cbn [list_ascii_of_string] in Hno. rewrite elem_of_cons in Hno. tauto.
  - destruct a as [|x a].
    + left. cbn [String.length Z.of_nat Z.ltb Z.compare].
      split; [reflexivity|]. split; [reflexivity|].
      intros c rest Heq. rewrite Hnm in Heq. cbn [String.app] in Heq.
      inversion Heq; subst rest. exact Hno.
    + right.
      replace (0 <? Z.of_nat (String.length (String x a))) with true
        by (symmetry; apply Z.ltb_lt; cbn [String.length]; lia).
      rewrite Hnm, substring_before, substring_after.
      split; [reflexivity|]. split; [discriminate | exact Hno].
Qed.

Lemma chars_app (a b : string) : chars (a +:+ b) = chars a ++ chars b.
Proof.
  unfold chars. induction a as [|x a IH]; [reflexivity|].
  change (String x a +:+ b) with (String x (a +:+ b)).
  cbn [list_ascii_of_string]. now rewrite IH.
Qed.

Lemma chars_empty (s : string) : chars s = [] -> s = "".
Proof. destruct s; [reflexivity | discriminate]. Qed.

(** X15.  A path that ends with a separator (a directory written with its
    slash) is not refused: the attachment that [parseFilePath] makes of it
    has an empty name, an empty extension and an empty name without
    extension. *)
Theorem parseFilePath_trailing_separator (dir : string) (c : ascii) :
  Attachment.is_separator c = true ->
  Attachment.parseFilePath (dir +:+ String c "") =
    Attachment.mkFileAttachment "" (dir +:+ String c "") "" "".
Proof.
  intros Hc.
  assert (Hlast : last (Attachment.split (dir +:+ String c "")) = Some "").
  { destruct (split_structure (dir +:+ String c "")) as (d & nm & Hlast & Hp & Hnm & _).
    rewrite Hlast. f_equal. apply chars_empty.
    apply (f_equal chars) in Hp. rewrite !chars_app in Hp.
    destruct (chars nm) as [|x l] eqn:Hn using rev_ind; [reflexivity|]. clear IHl.
    unfold no_separator in Hnm. rewrite Hn in Hnm.
    apply Forall_app in Hnm as [_ Hx]. inversion Hx as [|? ? Hx' _]; subst.
    rewrite app_assoc in Hp. apply app_inj_tail in Hp as [_ ->].
    rewrite Hc in Hx'. discriminate Hx'. }
  unfold Attachment.parseFilePath. rewrite Hlast. reflexivity.
Qed.

Lemma parseFilePath_trailing_separator_witness :
  Attachment.parseFilePath "/home/me/" = Attachment.mkFileAttachment "" "/home/me/" "" "".
Proof. apply (parseFilePath_trailing_separator "/home/me" "/"). reflexivity. Defined.

(** X16.  The name that [parseFilePath] gives is a path of its own: parsed
    again, it gives the same name, extension and name without extension. *)
Theorem parseFilePath_of_name (filePath : string) :
  let file := Attachment.parseFilePath filePath in
  Attachment.parseFilePath (Attachment.name file) =
    Attachment.mkFileAttachment (Attachment.name file) (Attachment.name file)
      (Attachment.extension file) (Attachment.nameWithoutExtension file).
Proof.
  cbv zeta.
  destruct (split_structure filePath) as (dir & nm & Hlast & _ & Hnm & _).
  assert (Hparse : forall p,
            last (Attachment.split p) = Some nm ->
            Attachment.parseFilePath p =
              Attachment.mkFileAttachment nm p
                (if 0 <? Attachment.lastIndexOf "." nm
                 then Attachment.substring nm (Attachment.lastIndexOf "." nm + 1) None
                 else "")
                (if 0 <? Attachment.lastIndexOf "." nm
                 then Attachment.substring nm 0 (Some (Attachment.lastIndexOf "." nm))
                 else nm)).
  { intros p Hp. unfold Attachment.parseFilePath. rewrite Hp, or_else_name. reflexivity. }
  rewrite (Hparse filePath Hlast).
  cbn [Attachment.name Attachment.extension Attachment.nameWithoutExtension].
  apply Hparse. rewrite (split_name nm Hnm). reflexivity.
Qed.

(** X17.  The attachment counts as used exactly when the last call to the
    context was [markAttachmentAsUsed]: every other call, also one that
    sets the attachment that is already there, makes it unused again; and
    marking never changes the attachment. *)
Theorem attachment_used_iff_marked_last (cs : list Attachment.Call) (s : Attachment.State) :
  (Attachment.isAttachmentUsed (Attachment.calls cs s) = true <->
   last cs = Some Attachment.MarkAttachmentAsUsed \/
   (cs = [] /\ Attachment.isAttachmentUsed s = true)) /\
  Attachment.attachment (Attachment.calls (cs ++ [Attachment.MarkAttachmentAsUsed]) s) =
    Attachment.attachment (Attachment.calls cs s).
Proof.
  unfold Attachment.calls. split; [|rewrite fold_left_app; reflexivity].
  destruct cs as [|c cs _] using rev_ind.
  - cbn [fold_left last]. split; [intros H; right; split; [reflexivity | exact H]|].
    intros [H|[_ H]]; [discriminate H | exact H].
  - rewrite fold_left_app, last_snoc. cbn [fold_left].
    destruct c; cbn [Attachment.call Attachment.isAttachmentUsed Attachment.setAttachment
                       Attachment.setAttachmentFromPath Attachment.markAttachmentAsUsed
                       Attachment.clearAttachment];
      split; try discriminate; try (intros _; left; reflexivity); try reflexivity.
    all: intros [H|[H _]]; [discriminate H | destruct cs; discriminate H].
Qed.

(** ** The chat context *)

Example message_id_sample : Chat.message_id 1730000000123 7 = "msg_1730000000123_7".
Proof. vm_compute. reflexivity. Qed.

(** The decimal digits of an integer tell it from every other. *)
Lemma decimal_inj (a b : Z) : Chat.decimal a = Chat.decimal b -> a = b.
Proof.
  unfold Chat.decimal. intros H. apply (f_equal NilZero.int_of_string) in H.
  assert (Hn : forall z,
            NilZero.int_of_string (NilZero.string_of_int (Z.to_int z)) = Some (Z.to_int z)).
  { intros z. apply NilZero.isi; destruct z; try discriminate; cbn [Z.to_int];
      intros E; injection E as E; exact (Unsigned.to_uint_nonnil _ E). }
  rewrite !Hn in H. injection H as H.
  rewrite <- (DecimalZ.of_to a), <- (DecimalZ.of_to b). now rewrite H.
Qed.

Lemma uint_no_underscore (d : Decimal.uint) : "_"%char ∉ chars (NilEmpty.string_of_uint d).
Proof.
  unfold chars.
  induction d; cbn [NilEmpty.string_of_uint list_ascii_of_string];
    rewrite ?elem_of_cons; [apply not_elem_of_nil | ..];
    (intros [H|H]; [discriminate H | exact (IHd H)]).
Qed.

Lemma decimal_no_underscore (n : Z) : "_"%char ∉ chars (Chat.decimal n).
Proof.
  unfold Chat.decimal, NilZero.string_of_int.
  assert (Hu : forall d, "_"%char ∉ chars (NilZero.string_of_uint d)).
  { intros d. unfold NilZero.string_of_uint.
    destruct d; try apply uint_no_underscore.
    unfold chars. cbn [list_ascii_of_string]. rewrite !elem_of_cons, elem_of_nil.
    intros [H|H]; [discriminate H | exact H]. }
  destruct (Z.to_int n) as [d|d]; [apply Hu|].
  unfold chars. cbn [list_ascii_of_string]. rewrite elem_of_cons.
  intros [H|H]; [discriminate H | exact (Hu d H)].
Qed.

(** Two texts cut at the first occurrence of a character. *)
Lemma cut_inj (c : ascii) (a a' b b' : string) :
  c ∉ chars a -> c ∉ chars a' ->
  a +:+ String c b = a' +:+ String c b' -> a = a' /\ b = b'.
Proof.
  unfold chars. revert a'. induction a as [|x a IH]; intros [|x' a'];
    cbn [list_ascii_of_string]; rewrite ?elem_of_cons; intros Ha Ha' H.
  - injection H as H. split; [reflexivity | exact H].
  - injection H as H1 H2. destruct Ha'. left. exact H1.
  - injection H as H1 H2. destruct Ha. left. symmetry. exact H1.
  - change (String x (a +:+ String c b) = String x' (a' +:+ String c b')) in H.
    injection H as H1 H2. subst x'.
    destruct (IH a') as [-> ->]; [tauto | tauto | exact H2 | split; reflexivity].
Qed.

Lemma message_id_inj (t t' : Z) (n n' : N) :
  Chat.message_id t n = Chat.message_id t' n' -> t = t' /\ n = n'.
Proof.
  unfold Chat.message_id. intros H.
  change ("msg_" +:+ ?s) with (String "m" (String "s" (String "g" (String "_" s)))) in H.
  injection H as H.
  apply cut_inj in H; [|apply decimal_no_underscore..].
  destruct H as [Ht Hn]. apply decimal_inj in Ht, Hn. split; [exact Ht | lia].
Qed.

(** The [id] of the message that [addMessage] makes, and of a message
    after an update that has no [id]. *)
Lemma id_of_new (t1 t2 : Z) (m : Chat.UIMessage) (s : Chat.State) :
  Chat.id_of (fst (Chat.addMessage t1 t2 m s)) =
    Some (Json.Str (Chat.message_id t1 (Chat.messageCounter s))).
Proof.
  unfold Chat.addMessage, Chat.id_of. cbv zeta. cbn [fst].
  rewrite lookup_insert_ne by discriminate. now rewrite lookup_insert_eq.
Qed.

Lemma id_of_updated (u m : Chat.UIMessage) :
  u !! "id" = None -> Chat.id_of (u ∪ m) = Chat.id_of m.
Proof. intros Hu. unfold Chat.id_of. now rewrite lookup_union_r. Qed.

Lemma issued_call (c : Chat.Call) (l : list (Z * N)) (s : Chat.State) :
  keeps_ids c -> issued l s -> exists l', issued l' (Chat.call s c).
Proof.
  intros Hc (Hids & Hnd & Hlt). destruct c as [t1 t2 m|id u| | |]; cbn [Chat.call].
  - exists (l ++ [(t1, Chat.messageCounter s)]).
    pose proof (id_of_new t1 t2 m s) as Hnew.
    unfold Chat.addMessage in *. cbv zeta in *. cbn [fst snd] in *.
    split; [|split]; cbn [Chat.messages Chat.messageCounter].
    + rewrite !fmap_app, Hids. cbn [fmap list_fmap fst snd]. now rewrite Hnew.
    + rewrite fmap_app. cbn [fmap list_fmap snd]. apply NoDup_app.
      split; [exact Hnd|]. split; [|apply NoDup_singleton].
      intros n Hn Hn'. apply list_elem_of_singleton in Hn'. subst n.
      apply list_elem_of_fmap in Hn as (p & Hp & Hin). rewrite Forall_forall in Hlt.
      specialize (Hlt p Hin). lia.
    + apply Forall_app. split.
      * eapply Forall_impl; [exact Hlt|]. intros p Hp. cbv beta in *. lia.
      * constructor; [cbn [snd]; lia | constructor].
  - exists l. cbn [keeps_ids] in Hc. unfold Chat.updateMessage.
    split; [|split]; cbn [Chat.messages Chat.messageCounter]; [|exact Hnd | exact Hlt].
    rewrite <- Hids, <- list_fmap_compose. apply list_fmap_ext. intros i m _. cbn [compose].
    destruct (Chat.has_id id m); [now apply id_of_updated | reflexivity].
  - exists []. split; [reflexivity|]. split; constructor.
  - exists l. split; [exact Hids|]. split; [exact Hnd | exact Hlt].
  - exists l. split; [exact Hids|]. split; [exact Hnd | exact Hlt].
Qed.

Lemma issued_calls (cs : list Chat.Call) (l : list (Z * N)) (s : Chat.State) :
  Forall keeps_ids cs -> issued l s -> exists l', issued l' (Chat.calls cs s).
Proof.
  unfold Chat.calls. intros Hcs. revert l s.
  induction Hcs as [|c cs Hc _ IH]; intros l s Hl; cbn [fold_left]; [exists l; exact Hl|].
  destruct (issued_call c l s Hc Hl) as (l1 & Hl1). exact (IH l1 _ Hl1).
Qed.

Lemma reachable_issued (s : Chat.State) : chat_reachable s -> exists l, issued l s.
Proof.
  intros (cs & Hcs & ->). apply (issued_calls cs [] Chat.initial Hcs).
  split; [reflexivity|]. split; constructor.
Qed.

Lemma Str_inj (a b : string) : Some (Json.Str a) = Some (Json.Str b) -> a = b.
Proof.
  intros H.
  exact (f_equal (fun v => match v with Some (Json.Str s) => s | _ => "" end) H).
Qed.

Lemma issued_NoDup (l : list (Z * N)) :
  NoDup (snd <$> l) ->
  NoDup ((fun p => Some (Json.Str (Chat.message_id (fst p) (snd p)))) <$> l).
Proof.
  induction l as [|p l IH]; cbn [fmap list_fmap]; intros Hnd; [constructor|].
  apply NoDup_cons in Hnd as [Hp Hnd]. apply NoDup_cons. split; [|exact (IH Hnd)].
  intros Hin. apply list_elem_of_fmap in Hin as (q & Hq & Hin).
  apply Str_inj, message_id_inj in Hq as [_ Hq].
  apply Hp. rewrite Hq. apply list_elem_of_fmap. exists q. split; [reflexivity | exact Hin].
Qed.

(** X18.  No two messages of the chat have the same [id], and every
    message has one, in every state that calls to the context lead to from
    the initial one, as long as no update carries an [id] of its own:
    the counter in the id tells the messages apart, also those made in the
    same millisecond, and [clearMessages], which restarts the counter,
    drops the messages that were counted. *)
Theorem message_ids_unique (s : Chat.State) :
  chat_reachable s ->
  NoDup (Chat.id_of <$> Chat.messages s) /\
  Forall (fun msg => exists id, Chat.id_of msg = Some (Json.Str id)) (Chat.messages s).
Proof.
  intros Hs. destruct (reachable_issued s Hs) as (l & Hids & Hnd & _).
  split; [rewrite Hids; exact (issued_NoDup l Hnd)|].
  apply Forall_forall. intros msg Hin.
  assert (Hin' : Chat.id_of msg ∈ Chat.id_of <$> Chat.messages s)
    by (apply list_elem_of_fmap; exists msg; split; [reflexivity | exact Hin]).
  rewrite Hids in Hin'. apply list_elem_of_fmap in Hin' as (p & Hp & _).
  eexists. exact Hp.
Qed.

Lemma message_ids_unique_witness :
  let s := Chat.calls [Chat.AddMessage 5 5 ∅; Chat.AddMessage 5 6 ∅;
                       Chat.UpdateMessage "msg_5_0" {["content" := Some (Json.Str "hi")]}]
             Chat.initial in
  NoDup (Chat.id_of <$> Chat.messages s).
Proof.
  cbv zeta. apply message_ids_unique. eexists. split; [|reflexivity].
  repeat constructor.
Defined.

(** X19.  The id that [addMessage] returns addresses the new message and
    no other: in a state as above, an update with the id of the message
    just added changes this message, the last of the list, and leaves all
    earlier messages as they are. *)
Theorem update_after_add_changes_last_only
    (s : Chat.State) (now_id now_stamp : Z) (message updates : Chat.UIMessage) :
  chat_reachable s ->
  let added := Chat.addMessage now_id now_stamp message s in
  Chat.id_of (fst added) = Some (Json.Str (Chat.message_id now_id (Chat.messageCounter s))) /\
  Chat.messages
    (Chat.updateMessage (Chat.message_id now_id (Chat.messageCounter s)) updates (snd added)) =
    Chat.messages s ++ [updates ∪ fst added].
Proof.
  intros Hs added. subst added. split; [apply id_of_new|].
  destruct (reachable_issued s Hs) as (l & Hids & _ & Hlt).
  pose proof (id_of_new now_id now_stamp message s) as Hnew.
  unfold Chat.addMessage in *. cbv zeta in *. cbn [fst snd] in *.
  unfold Chat.updateMessage. cbn [Chat.messages].
  rewrite fmap_app. cbn [fmap list_fmap]. f_equal.
  - rewrite <- (list_fmap_id (Chat.messages s)) at 2.
    apply list_fmap_ext. intros i m Hm. unfold Datatypes.id.
    assert (Hin : Chat.id_of m ∈ Chat.id_of <$> Chat.messages s)
      by (apply list_elem_of_fmap; exists m; split;
          [reflexivity | exact (list_elem_of_lookup_2 _ _ _ Hm)]).
    rewrite Hids in Hin. apply list_elem_of_fmap in Hin as (p & Hp & Hin).
    unfold Chat.has_id. rewrite Hp.
    rewrite Forall_forall in Hlt. specialize (Hlt p Hin).
    destruct (bool_decide _) eqn:Hb; [|reflexivity].
    apply bool_decide_eq_true_1, message_id_inj in Hb as [_ Hb]. lia.
  - unfold Chat.has_id. rewrite Hnew. now rewrite bool_decide_eq_true_2.
Qed.

Lemma update_after_add_changes_last_only_witness :
  let s := snd (Chat.addMessage 5 5 ∅ Chat.initial) in
  Chat.messages
    (Chat.updateMessage "msg_5_1" {["content" := Some (Json.Str "hi")]}
       (snd (Chat.addMessage 5 5 ∅ s))) =
  Chat.messages s ++ [{["content" := Some (Json.Str "hi")]} ∪ fst (Chat.addMessage 5 5 ∅ s)].
Proof.
  cbv zeta.
  apply (update_after_add_changes_last_only (snd (Chat.addMessage 5 5 ∅ Chat.initial)) 5 5 ∅).
  exists [Chat.AddMessage 5 5 ∅]. split; [repeat constructor | reflexivity].
Defined.

(** X20.  An update with an id that no message has changes nothing. *)
Theorem update_unknown_id_changes_nothing
    (id : string) (updates : Chat.UIMessage) (s : Chat.State) :
  Forall (fun msg => Chat.id_of msg <> Some (Json.Str id)) (Chat.messages s) ->
  Chat.updateMessage id updates s = s.
Proof.
  intros Hno. destruct s as [msgs sid str n]. unfold Chat.updateMessage.
  cbn [Chat.messages Chat.sessionId Chat.isStreaming Chat.messageCounter] in *. f_equal.
  rewrite <- (list_fmap_id msgs) at 2. apply list_fmap_ext. intros i m Hm. unfold Datatypes.id.
  rewrite Forall_forall in Hno. specialize (Hno m (list_elem_of_lookup_2 _ _ _ Hm)).
  unfold Chat.has_id. destruct (Chat.id_of m) as [[]|]; try reflexivity.
  destruct (bool_decide _) eqn:Hb; [|reflexivity].
  apply bool_decide_eq_true_1 in Hb. subst. destruct (Hno eq_refl).
Qed.

Lemma update_unknown_id_changes_nothing_witness :
  let s := snd (Chat.addMessage 5 5 ∅ Chat.initial) in
  Chat.updateMessage "msg_5_1" {["content" := Some (Json.Str "hi")]} s = s.
Proof.
  cbv zeta. apply update_unknown_id_changes_nothing.
  constructor; [|constructor]. vm_compute. discriminate.
Defined.

(** X21.  Two updates of the same message are one update with both sets of
    properties, where a property of the second replaces the one of the
    first, as long as the first update does not change the [id]. *)
Theorem updates_compose (id : string) (u1 u2 : Chat.UIMessage) (s : Chat.State) :
  u1 !! "id" = None ->
  Chat.updateMessage id u2 (Chat.updateMessage id u1 s) = Chat.updateMessage id (u2 ∪ u1) s.
Proof.
  intros Hu. unfold Chat.updateMessage.
  cbn [Chat.messages Chat.sessionId Chat.isStreaming Chat.messageCounter]. f_equal.
  rewrite <- list_fmap_compose. apply list_fmap_ext. intros i m _. cbn [compose].
  destruct (Chat.has_id id m) eqn:Hm.
  - unfold Chat.has_id in *. rewrite (id_of_updated u1 m Hu), Hm.
    now rewrite (assoc_L (∪)).
  - now rewrite Hm.
Qed.

Lemma updates_compose_witness :
  let s := snd (Chat.addMessage 5 5 ∅ Chat.initial) in
  Chat.updateMessage "msg_5_0" {["content" := Some (Json.Str "hello")]}
    (Chat.updateMessage "msg_5_0" {["content" := Some (Json.Str "he")]} s) =
  Chat.updateMessage "msg_5_0"
    ({["content" := Some (Json.Str "hello")]} ∪ {["content" := Some (Json.Str "he")]}) s.
Proof. cbv zeta. apply updates_compose. reflexivity. Defined.

(** ** The model settings context *)

Lemma find_model_spec (modelId : string) (l : list ModelSettings.ModelConfig) :
  match ModelSettings.find_model modelId l with
  | Some m => ModelSettings.id m = modelId /\ m ∈ l
  | None => modelId ∉ ModelSettings.id <$> l
  end.
Proof.
  unfold ModelSettings.find_model.
  induction l as [|m l IH]; cbn [List.find fmap list_fmap]; [apply not_elem_of_nil|].
  destruct (bool_decide (ModelSettings.id m = modelId)) eqn:Hm.
  - apply bool_decide_eq_true_1 in Hm. split; [exact Hm | apply list_elem_of_here].
  - apply bool_decide_eq_false_1 in Hm.
    destruct (List.find _ l) as [m'|].
    + destruct IH as [Hid Hin]. split; [exact Hid | now apply list_elem_of_further].
    + rewrite elem_of_cons. intros [H|H]; [exact (Hm (eq_sym H)) | exact (IH H)].
Qed.

(** X22.  However the request for the models of Ollama ends, and whatever
    was selected, [fetchOllamaModels] leaves the context not loading, with
    the models of the reply (none when the reply brings none or the request
    was rejected), and with an error message exactly when no model was
    brought.  The list in the state is the list that was last handed to
    [updateProviderModels]; the selected provider and the provider
    settings are not touched, and neither is the selected model unless the
    callback was made while Ollama was selected. *)
Theorem fetch_outcome
    (selectedProviderId selectedModelId : string) (reply : ModelSettings.Reply)
    (s : ModelSettings.State) :
  let s' := ModelSettings.fetchOllamaModels selectedProviderId selectedModelId reply s in
  ModelSettings.isLoadingOllamaModels s' = false /\
  ModelSettings.ollamaModels s' = configs_of reply /\
  (ModelSettings.ollamaError s' = None <-> brings_models reply) /\
  (Js.truthy (ModelSettings.ollamaError s') = true -> ModelSettings.ollamaModels s' = []) /\
  last (ModelSettings.effects s') =
    Some (ModelSettings.UpdateProviderModels "ollama" (ModelSettings.ollamaModels s')) /\
  ModelSettings.selectedProviderId s' = ModelSettings.selectedProviderId s /\
  ModelSettings.providerSettings s' = ModelSettings.providerSettings s /\
  (selectedProviderId <> "ollama" ->
   ModelSettings.selectedModelId s' = ModelSettings.selectedModelId s).
Proof.
  cbv zeta. unfold ModelSettings.fetchOllamaModels, ModelSettings.fetch_settle, brings_models.
  destruct reply as [[[|model models]|]|error]; cbv zeta.
  1, 3, 4: cbn; repeat split; try apply last_snoc; try discriminate;
    intros (m & ms & H); discriminate H.
  assert (Hyes : exists m ms,
            ModelSettings.Resolved (Some (model :: models)) = ModelSettings.Resolved (Some (m :: ms)))
    by (eexists _, _; reflexivity).
  destruct (bool_decide (selectedProviderId = "ollama")) eqn:Hp;
    [destruct (ModelSettings.find_model _ _)|]; cbn;
    repeat split; try apply last_snoc; try discriminate; try (intros _; exact Hyes).
  all: intros Hne; apply bool_decide_eq_true_1 in Hp; destruct (Hne Hp).
Qed.

(** X23.  When the callback was made while Ollama was selected and the
    selected model has not changed since, a reply that brings models leaves
    a selected model that is one of them: the selected model when it is
    among them, the first of them otherwise. *)
Theorem fetch_repairs_selection
    (selectedModelId : string) (reply : ModelSettings.Reply) (s : ModelSettings.State) :
  brings_models reply ->
  selectedModelId = ModelSettings.selectedModelId s ->
  let s' := ModelSettings.fetchOllamaModels "ollama" selectedModelId reply s in
  ModelSettings.selectedModelId s' ∈ ModelSettings.id <$> ModelSettings.ollamaModels s' /\
  (selectedModelId ∈ ModelSettings.id <$> configs_of reply ->
   ModelSettings.selectedModelId s' = selectedModelId) /\
  (selectedModelId ∉ ModelSettings.id <$> configs_of reply ->
   Some (ModelSettings.selectedModelId s') = ModelSettings.id <$> head (configs_of reply)).
Proof.
  intros (model & models & ->) Hsel. cbv zeta.
  unfold ModelSettings.fetchOllamaModels, ModelSettings.fetch_settle. cbv zeta.
  cbn [bool_decide decide_rel]. rewrite bool_decide_eq_true_2 by reflexivity.
  pose proof (find_model_spec selectedModelId (configs_of (ModelSettings.Resolved
                (Some (model :: models))))) as Hfind.
  cbn [configs_of] in *.
  destruct (ModelSettings.find_model _ _) as [m|].
  - destruct Hfind as [Hid Hin]. cbn -[fmap elem_of]. rewrite <- Hsel.
    assert (Hmem : selectedModelId ∈ ModelSettings.id <$>
              ((fun model0 => ModelSettings.mkModelConfig (ModelSettings.ollamaName model0)
                  (ModelSettings.ollamaName model0) (ModelSettings.ollamaName model0))
                 <$> model :: models)).
    { apply list_elem_of_fmap. exists m. split; [now symmetry | exact Hin]. }
    split; [exact Hmem|]. split; [reflexivity|]. intros Hno. destruct (Hno Hmem).
  - cbn -[elem_of]. split; [apply list_elem_of_here|]. split; [|reflexivity].
    intros Hin. destruct (Hfind Hin).
Qed.

Lemma fetch_repairs_selection_witness :
  let reply := ModelSettings.Resolved
                 (Some [ModelSettings.mkOllamaModel "llama3"; ModelSettings.mkOllamaModel "phi3"]) in
  ModelSettings.selectedModelId
    (ModelSettings.fetchOllamaModels "ollama" "" reply blank_settings) = "llama3".
Proof.
  cbv zeta.
  destruct (fetch_repairs_selection ""
              (ModelSettings.Resolved
                 (Some [ModelSettings.mkOllamaModel "llama3"; ModelSettings.mkOllamaModel "phi3"]))
              blank_settings) as (_ & _ & Hfirst).
  - eexists _, _. reflexivity.
  - reflexivity.
  - assert (Hno : "" ∉ ["llama3"; "phi3"]).
    { rewrite !elem_of_cons, elem_of_nil. intros [H|[H|H]]; [discriminate H..|exact H]. }
    exact (Some_inj _ "llama3" (Hfirst Hno)).
Defined.

(** X24.  What [getCurrentModelName] shows around a fetch while Ollama is
    selected: "Loading..." while the request is pending; "Error loading
    models" after a reply that brings no model or a rejected request; and
    after a reply that brings models with non-empty names, the id of the
    selected model, which is one of them. *)
Theorem model_name_around_fetch
    (MODEL_PROVIDERS : string -> option ModelSettings.ProviderConfig)
    (reply : ModelSettings.Reply) (s : ModelSettings.State) :
  ModelSettings.selectedProviderId s = "ollama" ->
  let s' := ModelSettings.fetchOllamaModels "ollama" (ModelSettings.selectedModelId s) reply s in
  ModelSettings.getCurrentModelName MODEL_PROVIDERS (ModelSettings.fetch_begin s) = "Loading..." /\
  (~ brings_models reply ->
   ModelSettings.getCurrentModelName MODEL_PROVIDERS s' = "Error loading models") /\
  (brings_models reply ->
   Forall (fun m => ModelSettings.displayName m <> "") (configs_of reply) ->
   ModelSettings.getCurrentModelName MODEL_PROVIDERS s' = ModelSettings.selectedModelId s' /\
   ModelSettings.selectedModelId s' ∈ ModelSettings.id <$> configs_of reply).
Proof.
  intros Hp. cbv zeta. split; [|split].
  - unfold ModelSettings.getCurrentModelName, ModelSettings.fetch_begin.
    cbn. rewrite Hp. reflexivity.
  - intros Hno.
    unfold ModelSettings.getCurrentModelName, ModelSettings.fetchOllamaModels,
      ModelSettings.fetch_settle.
    destruct reply as [[[|model models]|]|error]; cbv zeta.
    1, 3, 4: cbn; rewrite Hp; reflexivity.
    destruct Hno. eexists _, _. reflexivity.
  - intros (model & models & ->) Hnames.
    unfold ModelSettings.getCurrentModelName, ModelSettings.fetchOllamaModels,
      ModelSettings.fetch_settle. cbv zeta.
    rewrite (bool_decide_eq_true_2 ("ollama" = "ollama")) by reflexivity.
    cbn [configs_of fmap list_fmap] in *.
    set (first := ModelSettings.mkModelConfig (ModelSettings.ollamaName model)
                    (ModelSettings.ollamaName model) (ModelSettings.ollamaName model)) in *.
    set (rest := (fun model0 : ModelSettings.OllamaModel =>
                    ModelSettings.mkModelConfig (ModelSettings.ollamaName model0)
                      (ModelSettings.ollamaName model0) (ModelSettings.ollamaName model0))
                   <$> models) in *.
    assert (Hshown : forall m, m ∈ first :: rest ->
              Js.or_else (Some (ModelSettings.displayName m)) "Select a model" =
                ModelSettings.id m).
    { intros m Hm. rewrite Forall_forall in Hnames. specialize (Hnames m Hm).
      cbn [Js.or_else]. rewrite bool_decide_eq_false_2 by exact Hnames.
      apply elem_of_cons in Hm as [->|Hm]; [reflexivity|].
      subst rest. apply list_elem_of_fmap in Hm as (om & -> & _). reflexivity. }
    pose proof (find_model_spec (ModelSettings.selectedModelId s) (first :: rest)) as Hfind.
    destruct (ModelSettings.find_model (ModelSettings.selectedModelId s) (first :: rest))
      as [m|] eqn:Hm.
    + destruct Hfind as [Hid Hin].
      cbn -[first rest elem_of ModelSettings.find_model Js.or_else]. rewrite Hp.
      rewrite (bool_decide_eq_true_2 ("ollama" = "ollama")) by reflexivity.
      rewrite bool_decide_eq_false_2 by discriminate. rewrite Hm.
      cbn [fmap option_fmap option_map]. rewrite (Hshown m Hin).
      split; [exact Hid|]. rewrite <- Hid.
      apply (list_elem_of_fmap_2 ModelSettings.id (first :: rest) m Hin).
    + assert (Hfirst : ModelSettings.find_model (ModelSettings.id first) (first :: rest) =
                Some first).
      { unfold ModelSettings.find_model. cbn [List.find].
        now rewrite bool_decide_eq_true_2. }
      cbn -[first rest elem_of ModelSettings.find_model Js.or_else]. rewrite Hp.
      rewrite (bool_decide_eq_true_2 ("ollama" = "ollama")) by reflexivity.
      rewrite bool_decide_eq_false_2 by discriminate. rewrite Hfirst.
      cbn [fmap option_fmap option_map]. rewrite Hshown by apply list_elem_of_here.
      split; [reflexivity | apply list_elem_of_here].
Qed.

Lemma model_name_around_fetch_witness :
  let reply := ModelSettings.Resolved
                 (Some [ModelSettings.mkOllamaModel "llama3"; ModelSettings.mkOllamaModel "phi3"]) in
  ModelSettings.getCurrentModelName (fun _ => None)
    (ModelSettings.fetchOllamaModels "ollama" "" reply blank_settings) =
  ModelSettings.selectedModelId
    (ModelSettings.fetchOllamaModels "ollama" "" reply blank_settings).
Proof.
  cbv zeta.
  destruct (model_name_around_fetch (fun _ => None)
              (ModelSettings.Resolved
                 (Some [ModelSettings.mkOllamaModel "llama3"; ModelSettings.mkOllamaModel "phi3"]))
              blank_settings eq_refl) as (_ & _ & Hname).
  destruct Hname as [Hname _]; [eexists _, _; reflexivity | | exact Hname].
  repeat constructor; discriminate.
Defined.

(** X25.  [setSelectedProvider] with a provider that the configuration
    does not have only warns: the selection stays.  With a provider that
    it has, the provider is selected and with it the first of the models
    that [getAvailableModels] gives for this provider, or no model (the
    empty id) when there is none. *)
Theorem setSelectedProvider_selects_first_available
    (MODEL_PROVIDERS : string -> option ModelSettings.ProviderConfig)
    (providerId : string) (s : ModelSettings.State) :
  let s' := ModelSettings.setSelectedProvider MODEL_PROVIDERS providerId s in
  (MODEL_PROVIDERS providerId = None ->
   ModelSettings.selectedProviderId s' = ModelSettings.selectedProviderId s /\
   ModelSettings.selectedModelId s' = ModelSettings.selectedModelId s /\
   exists msg, ModelSettings.effects s' = ModelSettings.effects s ++ [ModelSettings.ConsoleWarn msg]) /\
  (is_Some (MODEL_PROVIDERS providerId) ->
   ModelSettings.selectedProviderId s' = providerId /\
   ModelSettings.selectedModelId s' =
     from_option ModelSettings.id ""
       (head (ModelSettings.getAvailableModels MODEL_PROVIDERS providerId s')) /\
   ModelSettings.effects s' = ModelSettings.effects s).
Proof.
  cbv zeta. unfold ModelSettings.setSelectedProvider, ModelSettings.getAvailableModels.
  destruct (MODEL_PROVIDERS providerId) as [provider|] eqn:Hprov.
  - split; [discriminate|]. intros _. cbv zeta.
    destruct (bool_decide (providerId = "ollama"));
      [destruct (ModelSettings.ollamaModels s) eqn:Hm
      |destruct (ModelSettings.models provider) eqn:Hm];
      cbn; rewrite ?Hm; repeat split.
  - split; [|intros [? H]; discriminate H]. intros _.
    split; [reflexivity|]. split; [reflexivity|]. eexists. reflexivity.
Qed.


(** X27.  The selection survives a reload: from what the two effects
    stored in [localStorage], the initial provider is the selected one when
    the configuration has it (the default one otherwise, and when the id is
    empty), and the initial model is the selected one unless its id is
    empty (then the default one). *)
Theorem selection_survives_reload
    (MODEL_PROVIDERS : string -> option ModelSettings.ProviderConfig)
    (DEFAULT_PROVIDER_ID DEFAULT_MODEL_ID : string)
    (s : ModelSettings.State) (localStorage : gmap string string) :
  let stored := ModelSettings.store_selection s localStorage in
  ModelSettings.initialSelectedProviderId MODEL_PROVIDERS DEFAULT_PROVIDER_ID stored =
    (if bool_decide (ModelSettings.selectedProviderId s <> "" /\
                     is_Some (MODEL_PROVIDERS (ModelSettings.selectedProviderId s)))
     then ModelSettings.selectedProviderId s else DEFAULT_PROVIDER_ID) /\
  ModelSettings.initialSelectedModelId DEFAULT_MODEL_ID stored =
    (if bool_decide (ModelSettings.selectedModelId s = "")
     then DEFAULT_MODEL_ID else ModelSettings.selectedModelId s).
Proof.
  cbv zeta. unfold ModelSettings.initialSelectedProviderId, ModelSettings.initialSelectedModelId,
    ModelSettings.store_selection. cbv zeta.
  rewrite lookup_insert_eq, lookup_insert_ne by discriminate. rewrite lookup_insert_eq.
  cbn [Js.truthy Js.or_else default from_option]. unfold Datatypes.id.
  split; [|reflexivity].
  destruct (bool_decide (ModelSettings.selectedProviderId s = "")) eqn:He;
    destruct (bool_decide (is_Some (MODEL_PROVIDERS (ModelSettings.selectedProviderId s)))) eqn:Hk;
    cbn [negb andb].
  all: try apply bool_decide_eq_true_1 in He; try apply bool_decide_eq_false_1 in He.
  all: try apply bool_decide_eq_true_1 in Hk; try apply bool_decide_eq_false_1 in Hk.
  all: destruct (bool_decide (_ /\ _)) eqn:Hb;
    [apply bool_decide_eq_true_1 in Hb | apply bool_decide_eq_false_1 in Hb];
    first [reflexivity | exfalso; tauto].
Qed.
